(** * simpleMemoryLibrary: a guard-banded debugging allocator

    Shallow embedding of [simpleMemoryLibrary/simpleMemoryLibrary.c] in its
    default build (neither [TRACE] nor [SML_PRINTF] defined, [pthread.h]
    included), on an LP64 little-endian machine.

    The C code keeps everything in raw memory: the header of a block, its
    intrusive [LIST_ENTRY] links, the padding bytes and the cap all live at
    addresses computed by pointer arithmetic.  The embedding keeps that
    picture: memory is a map from addresses to bytes, struct fields are
    8-byte little-endian words at fixed offsets, [size_t] and pointer
    arithmetic wrap modulo 2^64, and [int] arithmetic wraps modulo 2^32.

    One thread runs: [MUTEX_LOCK] and [MUTEX_UNLOCK] always succeed and
    leave no trace in the state.  A call either returns ([Done]) or ends in
    [abort ()] ([Aborted]); the loops over the list take fuel, since a list
    in raw memory may be cyclic. *)

From Stdlib Require Import ZArith List Lia Bool.
Import ListNotations.
Local Open Scope Z_scope.

(** ** Machine integers *)

Definition SIZE_MAX_P1 : Z := 2 ^ 64.

(** [size_t], [unsigned long long] and pointers: 64 bits, wrapping. *)
Definition wrap64 (z : Z) : Z := z mod SIZE_MAX_P1.

(** [int]: 32 bits, two's complement. *)
Definition wrap_int (z : Z) : Z := (z + 2 ^ 31) mod 2 ^ 32 - 2 ^ 31.

Definition INT_MAX : Z := 2 ^ 31 - 1.
Definition INT_MIN : Z := - 2 ^ 31.

(** ** Byte-addressed memory *)

Definition memory := Z -> Z.

Definition loadb (m : memory) (a : Z) : Z := m a mod 256.

Definition storeb (m : memory) (a v : Z) : memory :=
  fun x => if x =? a then v mod 256 else m x.

(** Little-endian words of [n] bytes. *)
Fixpoint load_le (n : nat) (m : memory) (a : Z) : Z :=
  match n with
  | O => 0
  | S k => loadb m a + 256 * load_le k m (a + 1)
  end.

Fixpoint store_le (n : nat) (m : memory) (a v : Z) : memory :=
  match n with
  | O => m
  | S k => store_le k (storeb m a v) (a + 1) (v / 256)
  end.

Definition load8 (m : memory) (a : Z) : Z := load_le 8 m a.
Definition store8 (m : memory) (a v : Z) : memory := store_le 8 m a v.

(** [memcpy], as the underlying [realloc] uses it when it moves a block. *)
Fixpoint memcpy (n : nat) (m : memory) (dst src : Z) : memory :=
  match n with
  | O => m
  | S k => memcpy k (storeb m dst (loadb m src)) (dst + 1) (src + 1)
  end.

(** ** Constants and layout of the two structs *)

Definition MEM_HEADER_GUARD_LEN : nat := 2.
Definition MEM_CAP_GUARD_LEN : nat := 2.
Definition GUARD_BAND_TOP : Z := 0xDEADBEEFCAFEF00D.
Definition GUARD_BAND_BOTTOM : Z := 0x0CACAFECEBADC0DE.

Definition sizeof_ull : Z := 8.

(** [struct memoryHeader]:
    [szAllocator] at 0, [size] at 8, [threadId] at 16,
    [doubleLL.le_next] at 24, [doubleLL.le_prev] at 32,
    [ullFixedValues[2]] at 40 and 48. *)
Definition off_szAllocator : Z := 0.
Definition off_size : Z := 8.
Definition off_threadId : Z := 16.
Definition off_le_next : Z := 24.
Definition off_le_prev : Z := 32.
Definition off_ullFixedValues : Z := 40.
Definition sizeof_memoryHeader : Z := 56.

(** [struct memoryCap]: [ullFixedValues[2]]. *)
Definition sizeof_memoryCap : Z := 16.

(** Addresses of the statics.  [gp_listHead] holds the one pointer
    [lh_first]; [szEmpty] is the string returned by the [trace] stub;
    [ullStatic] is the bootstrap array of [internalStaticAlloc]. *)
Definition gp_listHead : Z := 4096.
Definition szEmpty : Z := 4112.
Definition ullStatic : Z := 8192.
Definition ullStatic_len : Z := 0x3000.

(** Lowest address the underlying allocator hands out. *)
Definition HEAP_BASE : Z := 1048576.

(** ** Outcomes: a call returns, or the process aborts *)

Inductive abort_reason : Type :=
| TopGuardCorrupt (i : Z)          (* ASSERT on mHead->ullFixedValues[i] *)
| EndOverwritten (beyond : Z)      (* ASSERT on a padding byte *)
| BottomGuardCorrupt (i : Z)       (* ASSERT on mCap->ullFixedValues[i] *)
| StaticExhausted                  (* abort () in internalStaticAlloc *)
| ReallocBeforeInit.               (* ASSERT (gp_orgRealloc != NULL) *)

Inductive outcome (A : Type) : Type :=
| Done (a : A)
| Aborted (r : abort_reason)
| Timeout.                         (* a loop of the model ran out of fuel *)

Arguments Done {A} a.
Arguments Aborted {A} r.
Arguments Timeout {A}.

Definition bind {A B : Type} (c : outcome A) (k : A -> outcome B) : outcome B :=
  match c with
  | Done a => k a
  | Aborted r => Aborted r
  | Timeout => Timeout
  end.

Notation "x <- c ;; k" := (bind c (fun x => k))
  (at level 61, c at next level, right associativity).
Notation "' p <- c ;; k" := (bind c (fun p => k))
  (at level 61, p pattern, c at next level, right associativity).

(** ** Process state *)

Record state : Type := mkState {
  mem : memory;
  gi_hookDisabled : Z;             (* static __thread int *)
  gi_allocCount : Z;               (* static int *)
  gp_orgRealloc_set : bool;        (* the four gp_org* pointers, set by init *)
  sIndex : Z;                      (* cursor of internalStaticAlloc *)
  thread_self : Z;                 (* pthread_self () *)
  (* the allocator found through dlsym (RTLD_NEXT, ...) *)
  org_brk : Z;
  org_limit : Z;
  org_blocks : Z -> option Z
}.

Definition set_mem (st : state) (m : memory) : state :=
  mkState m (gi_hookDisabled st) (gi_allocCount st) (gp_orgRealloc_set st)
          (sIndex st) (thread_self st) (org_brk st) (org_limit st) (org_blocks st).

Definition set_hook (st : state) (h : Z) : state :=
  mkState (mem st) h (gi_allocCount st) (gp_orgRealloc_set st)
          (sIndex st) (thread_self st) (org_brk st) (org_limit st) (org_blocks st).

Definition set_count (st : state) (c : Z) : state :=
  mkState (mem st) (gi_hookDisabled st) c (gp_orgRealloc_set st)
          (sIndex st) (thread_self st) (org_brk st) (org_limit st) (org_blocks st).

Definition set_org_ptrs (st : state) (b : bool) : state :=
  mkState (mem st) (gi_hookDisabled st) (gi_allocCount st) b
          (sIndex st) (thread_self st) (org_brk st) (org_limit st) (org_blocks st).

Definition set_sIndex (st : state) (i : Z) : state :=
  mkState (mem st) (gi_hookDisabled st) (gi_allocCount st) (gp_orgRealloc_set st)
          i (thread_self st) (org_brk st) (org_limit st) (org_blocks st).

Definition set_org (st : state) (m : memory) (brk : Z) (bl : Z -> option Z) : state :=
  mkState m (gi_hookDisabled st) (gi_allocCount st) (gp_orgRealloc_set st)
          (sIndex st) (thread_self st) brk (org_limit st) bl.

(** ** The underlying allocator

    The library obtains [realloc] and [free] from the C library at run time
    and uses nothing else of it.  Its model is an arena that grows upwards
    from [org_brk] to [org_limit]: a request that does not fit returns NULL
    and changes nothing, a request that fits returns a fresh 16-aligned
    block, [realloc] of a live block moves its bytes to the fresh block, and
    [realloc (p, 0)] releases [p] and returns NULL. *)

Definition align16 (z : Z) : Z := (z + 15) / 16 * 16.

Definition upd (f : Z -> option Z) (k : Z) (v : option Z) : Z -> option Z :=
  fun x => if x =? k then v else f x.

Definition org_free (st : state) (ptr : Z) : state :=
  set_org st (mem st) (org_brk st) (upd (org_blocks st) ptr None).

Definition org_realloc (st : state) (ptr n : Z) : Z * state :=
  let brk := org_brk st in
  if ptr =? 0 then
    if brk + n <=? org_limit st then
      (brk, set_org st (mem st) (align16 (brk + Z.max n 1))
                    (upd (org_blocks st) brk (Some n)))
    else (0, st)
  else if n =? 0 then (0, org_free st ptr)
  else if brk + n <=? org_limit st then
    let old := match org_blocks st ptr with Some k => k | None => 0 end in
    (brk, set_org st (memcpy (Z.to_nat (Z.min old n)) (mem st) brk ptr)
                  (align16 (brk + n))
                  (upd (upd (org_blocks st) ptr None) brk (Some n)))
  else (0, st).

(** ** The [LIST_*] macros of [<sys/queue.h>] on the field [doubleLL]

    [le_next] points to the next header, [le_prev] to the pointer that
    points to this header: [&gp_listHead.lh_first] for the first element,
    [&prev->doubleLL.le_next] for the others. *)

(** [LIST_INIT (&gp_listHead)] *)
Definition LIST_INIT (m : memory) : memory := store8 m gp_listHead 0.

(** [LIST_INSERT_HEAD (&gp_listHead, elm, doubleLL)] *)
Definition LIST_INSERT_HEAD (m : memory) (elm : Z) : memory :=
  let m1 := store8 m (elm + off_le_next) (load8 m gp_listHead) in
  let m2 := if load8 m1 (elm + off_le_next) =? 0 then m1
            else store8 m1 (load8 m1 gp_listHead + off_le_prev)
                        (elm + off_le_next) in
  let m3 := store8 m2 gp_listHead elm in
  store8 m3 (elm + off_le_prev) gp_listHead.

(** [LIST_REMOVE (elm, doubleLL)] *)
Definition LIST_REMOVE (m : memory) (elm : Z) : memory :=
  let m1 := if load8 m (elm + off_le_next) =? 0 then m
            else store8 m (load8 m (elm + off_le_next) + off_le_prev)
                        (load8 m (elm + off_le_prev)) in
  store8 m1 (load8 m1 (elm + off_le_prev)) (load8 m1 (elm + off_le_next)).

(** ** verifyIntegrity *)

(** [for (i = 0; i < LEN; i++) ASSERT (w[i] == guard, ...)] *)
Fixpoint check_guards (n : nat) (m : memory) (w : Z) (i : Z) (guard : Z)
         (why : Z -> abort_reason) : outcome unit :=
  match n with
  | O => Done tt
  | S k => if load8 m (w + sizeof_ull * i) =? guard
           then check_guards k m w (i + 1) guard why
           else Aborted (why i)
  end.

(** The padding scan: [for (s = size; (ucPtr + s) % 8; s++) ASSERT (...)].
    Yields the final [s]. *)
Fixpoint verify_pad (fuel : nat) (m : memory) (ucPtr size s : Z) : outcome Z :=
  match fuel with
  | O => Timeout
  | S f =>
      if wrap64 (ucPtr + s) mod sizeof_ull =? 0 then Done s
      else if loadb m (wrap64 (ucPtr + s)) =? Z.land (wrap64 (ucPtr + s)) 0xFF
           then verify_pad f m ucPtr size (wrap64 (s + 1))
           else Aborted (EndOverwritten (wrap64 (1 + s - size)))
  end.

Definition verifyIntegrity (m : memory) (vPtr : Z) : outcome Z :=
  let mHead := wrap64 (vPtr - sizeof_memoryHeader) in
  let size := load8 m (mHead + off_size) in
  _ <- check_guards MEM_HEADER_GUARD_LEN m (mHead + off_ullFixedValues) 0
                    GUARD_BAND_TOP TopGuardCorrupt ;;
  let ucPtr := vPtr in
  s <- verify_pad 8 m ucPtr size size ;;
  let mCap := wrap64 (ucPtr + s) in
  _ <- check_guards MEM_CAP_GUARD_LEN m mCap 0
                    GUARD_BAND_BOTTOM BottomGuardCorrupt ;;
  Done mHead.

(** ** internalRealloc *)

Inductive alloc_type : Type := REALLOC | MALLOC | CALLOC.

(** The stub of [trace] compiled when [execinfo.h] is not included. *)
Definition trace (iLen ucGetPtr : Z) : Z := szEmpty.

(** [for (i = 0; i < LEN; i++) w[i] = guard;] *)
Fixpoint write_guards (n : nat) (m : memory) (w : Z) (i : Z) (guard : Z) : memory :=
  match n with
  | O => m
  | S k => write_guards k (store8 m (w + sizeof_ull * i) guard) w (i + 1) guard
  end.

(** The padding fill:
    [for (s = mHead->size; (ucPtr + s) % 8; s++) ucPtr[s] = (ucPtr + s) & 0xFF;] *)
Fixpoint fill_pad (fuel : nat) (m : memory) (ucPtr s : Z) : outcome (memory * Z) :=
  match fuel with
  | O => Timeout
  | S f =>
      if wrap64 (ucPtr + s) mod sizeof_ull =? 0 then Done (m, s)
      else fill_pad f (storeb m (wrap64 (ucPtr + s))
                              (Z.land (wrap64 (ucPtr + s)) 0xFF))
                    ucPtr (wrap64 (s + 1))
  end.

(** [adjSize]: payload, header and cap, rounded up to a multiple of 8. *)
Definition adjSize_of (size nmemb : Z) : Z :=
  let adjSize := wrap64 (size * nmemb) in
  let adjSize := wrap64 (adjSize + (sizeof_memoryHeader + sizeof_memoryCap)) in
  if adjSize mod sizeof_ull =? 0 then adjSize
  else wrap64 (adjSize + (sizeof_ull - adjSize mod sizeof_ull)).

(** What the [switch (type)] does to [gi_allocCount]. *)
Definition count_after_alloc (type : alloc_type) (vPtr : Z) (count : Z) : Z :=
  match type with
  | REALLOC => if vPtr =? 0 then wrap_int (count + 1) else count
  | MALLOC => wrap_int (count + 1)
  | CALLOC => wrap_int (count + 1)
  end.

(** The part of [internalRealloc] that precedes the call of [gp_orgRealloc]:
    verify the old block and take it out of the list.  Yields the old
    header (NULL when [vPtr] is NULL).  The old [szAllocator] that the C
    code reads here is only used by the [TRACE] and [SML_PRINTF] builds. *)
Definition detach_old (st : state) (vPtr : Z) : outcome (Z * state) :=
  if vPtr =? 0 then Done (0, st)
  else
    mHead <- verifyIntegrity (mem st) vPtr ;;
    let m := mem st in
    let m := if load8 m (mHead + off_le_prev) =? 0 then m
             else store8 (LIST_REMOVE m mHead) (mHead + off_le_prev) 0 in
    Done (mHead, set_mem st m).

(** The part that follows a successful [gp_orgRealloc]: fill in the header,
    link it, write the guards, the padding and the cap. *)
Definition build_record (st : state) (mHead size nmemb szCaller : Z)
  : outcome (Z * state) :=
  let m := mem st in
  let m := store8 m (mHead + off_szAllocator) szCaller in
  let m := store8 m (mHead + off_size) (wrap64 (size * nmemb)) in
  let m := store8 m (mHead + off_threadId) (thread_self st) in
  let m := store8 m (mHead + off_le_next) 0 in
  let m := store8 m (mHead + off_le_prev) 0 in
  let m := LIST_INSERT_HEAD m mHead in
  let m := write_guards MEM_HEADER_GUARD_LEN m (mHead + off_ullFixedValues) 0
                        GUARD_BAND_TOP in
  let ucPtr := wrap64 (mHead + sizeof_memoryHeader) in
  '(m, s) <- fill_pad 8 m ucPtr (load8 m (mHead + off_size)) ;;
  let mCap := wrap64 (ucPtr + s) in
  let m := write_guards MEM_CAP_GUARD_LEN m mCap 0 GUARD_BAND_BOTTOM in
  Done (ucPtr, set_mem st m).

(** The [if (!gi_hookDisabled) { ... }] block: with the hook enabled the
    caller is traced and the allocation counted; otherwise [szCaller] stays
    NULL and the count is left alone. *)
Definition trace_and_count (st : state) (type : alloc_type) (vPtr : Z) : Z * state :=
  if gi_hookDisabled st =? 0 then
    let st := set_hook st 1 in
    let szCaller := trace 4 1 in
    let st := set_count st (count_after_alloc type vPtr (gi_allocCount st)) in
    (szCaller, set_hook st 0)
  else (0, st).

Definition internalRealloc (st : state) (vPtr size nmemb : Z) (type : alloc_type)
  : outcome (Z * state) :=
  let adjSize := adjSize_of size nmemb in
  '(mHead, st) <- detach_old st vPtr ;;
  let '(mHead, st) := org_realloc st mHead adjSize in
  if mHead =? 0 then Done (0, st)
  else
    let '(szCaller, st) := trace_and_count st type vPtr in
    build_record st mHead size nmemb szCaller.

(** ** internalStaticAlloc *)

Definition internalStaticAlloc (st : state) (size : Z) : outcome (Z * state) :=
  let vPtr := ullStatic + sizeof_ull * sIndex st in
  let i := wrap64 (sIndex st + wrap64 (size + (sizeof_ull - 1)) / sizeof_ull) in
  if i >=? ullStatic_len then Aborted StaticExhausted
  else Done (vPtr, set_sIndex st i).

(** ** internalFree *)

Definition internalFree (st : state) (vPtr iLen : Z) : outcome state :=
  mHead <- verifyIntegrity (mem st) vPtr ;;
  let m := mem st in
  let m := if load8 m (mHead + off_le_prev) =? 0 then m
           else store8 (LIST_REMOVE m mHead) (mHead + off_le_prev) 0 in
  let st := org_free (set_mem st m) mHead in
  if gi_hookDisabled st =? 0 then
    let st := set_hook st 1 in
    let st := set_count st (wrap_int (gi_allocCount st - 1)) in
    Done (set_hook st 0)
  else Done st.

(** ** The intercepted entry points *)

Definition malloc (st : state) (size : Z) : outcome (Z * state) :=
  if gp_orgRealloc_set st then internalRealloc st 0 size 1 MALLOC
  else internalStaticAlloc st size.

Definition realloc (st : state) (vPtr size : Z) : outcome (Z * state) :=
  if gp_orgRealloc_set st then internalRealloc st vPtr size 1 REALLOC
  else Aborted ReallocBeforeInit.

Definition free (st : state) (vPtr : Z) : outcome state :=
  if vPtr =? 0 then Done st else internalFree st vPtr 4.

(** [init]: resolve the underlying allocator, [LIST_INIT], [malloc (0)]. *)
Definition init (st : state) : outcome state :=
  let st := set_org_ptrs st true in
  let st := set_mem st (LIST_INIT (mem st)) in
  '(_, st) <- malloc st 0 ;;
  Done st.

(** ** Diagnostics *)

Definition mem_get_alloc_count (st : state) : Z := gi_allocCount st.

Fixpoint usage_loop (fuel : nat) (m : memory) (ml size : Z) : outcome Z :=
  match fuel with
  | O => Timeout
  | S f =>
      if ml =? 0 then Done size
      else
        _ <- verifyIntegrity m (wrap64 (ml + sizeof_memoryHeader)) ;;
        let size := if load8 m (ml + off_szAllocator) =? 0 then size
                    else wrap64 (size + load8 m (ml + off_size)) in
        usage_loop f m (load8 m (ml + off_le_next)) size
  end.

Definition mem_get_usage (fuel : nat) (st : state) : outcome Z :=
  usage_loop fuel (mem st) (load8 (mem st) gp_listHead) 0.

Fixpoint real_usage_loop (fuel : nat) (m : memory) (ml size : Z) : outcome Z :=
  match fuel with
  | O => Timeout
  | S f =>
      if ml =? 0 then Done size
      else
        _ <- verifyIntegrity m (wrap64 (ml + sizeof_memoryHeader)) ;;
        let size := wrap64 (size + wrap64 (wrap64 (load8 m (ml + off_size)
                                                  + sizeof_memoryHeader)
                                           + sizeof_memoryCap)) in
        real_usage_loop f m (load8 m (ml + off_le_next)) size
  end.

Definition mem_get_real_usage (fuel : nat) (st : state) : outcome Z :=
  real_usage_loop fuel (mem st) (load8 (mem st) gp_listHead) 0.

Fixpoint check_loop (fuel : nat) (m : memory) (ml : Z) : outcome unit :=
  match fuel with
  | O => Timeout
  | S f =>
      if ml =? 0 then Done tt
      else
        _ <- verifyIntegrity m (wrap64 (ml + sizeof_memoryHeader)) ;;
        check_loop f m (load8 m (ml + off_le_next))
  end.

Definition mem_check_integrity (fuel : nat) (st : state) : outcome unit :=
  check_loop fuel (mem st) (load8 (mem st) gp_listHead).

Fixpoint ignore_loop (fuel : nat) (m : memory) (ml : Z) : outcome memory :=
  match fuel with
  | O => Timeout
  | S f =>
      if ml =? 0 then Done m
      else
        let m := LIST_REMOVE m ml in
        let m := store8 m (ml + off_le_prev) 0 in
        ignore_loop f m (load8 m (ml + off_le_next))
  end.

Definition mem_ignore_current_allocations (fuel : nat) (st : state) : outcome state :=
  m <- ignore_loop fuel (mem st) (load8 (mem st) gp_listHead) ;;
  Done (set_count (set_mem st m) 0).

(** What [mem_show_allocations] writes to [fp], one item per [fprintf]. *)
Inductive fprintf_call : Type :=
| F_newline                                   (* "\n" *)
| F_blocks_remain (count : Z)                 (* "%d block%s remains allocated\n" *)
| F_dash                                      (* "-" *)
| F_address (addr size szAllocator : Z)
      (* "  Address %p size of %zu, allocated by \"%s\"\n" *)
| F_no_allocations.                           (* "No memory allocations currently\n" *)

(** Number of characters [%d] prints. *)
Fixpoint ndigits (fuel : nat) (z : Z) : Z :=
  match fuel with
  | O => 1
  | S f => if z <? 10 then 1 else 1 + ndigits f (z / 10)
  end.

Definition decimal_len (z : Z) : Z :=
  if z <? 0 then 1 + ndigits 10 (- z) else ndigits 10 z.

(** The return value of the [fprintf] of the header line. *)
Definition blocks_remain_len (count : Z) : Z :=
  decimal_len count + 6 + (if count =? 1 then 0 else 1) + 19.

(** The header written before the first reported block. *)
Definition show_header (count : Z) : list fprintf_call :=
  [F_newline; F_blocks_remain count]
    ++ repeat F_dash (Z.to_nat (blocks_remain_len count - 1))
    ++ [F_newline].

Fixpoint show_loop (fuel : nat) (m : memory) (count : Z) (ml iCount : Z)
         (out : list fprintf_call) : outcome (Z * list fprintf_call) :=
  match fuel with
  | O => Timeout
  | S f =>
      if ml =? 0 then Done (iCount, out)
      else
        _ <- verifyIntegrity m (wrap64 (ml + sizeof_memoryHeader)) ;;
        let '(iCount, out) :=
          if negb (load8 m (ml + off_szAllocator) =? 0)
             && negb (load8 m (ml + off_size) =? 0)
          then
            let out := if iCount =? 0 then out ++ show_header count else out in
            (wrap_int (iCount + 1),
             out ++ [F_address (ml + off_ullFixedValues
                                + sizeof_ull * Z.of_nat MEM_HEADER_GUARD_LEN)
                               (load8 m (ml + off_size))
                               (load8 m (ml + off_szAllocator))])
          else (iCount, out) in
        show_loop f m count (load8 m (ml + off_le_next)) iCount out
  end.

Definition mem_show_allocations (fuel : nat) (st : state)
  : outcome (list fprintf_call) :=
  '(iCount, out) <- show_loop fuel (mem st) (gi_allocCount st)
                              (load8 (mem st) gp_listHead) 0 [] ;;
  if negb (iCount =? 0) then Done (out ++ [F_newline])
  else Done (out ++ [F_no_allocations]).

(** A write of one byte by the program that owns the payload. *)
Definition poke (st : state) (a v : Z) : state := set_mem st (storeb (mem st) a v).

(** * Well-formed states

    What the proofs know of a state: which headers the list starting at
    [gp_listHead] links, where their blocks lie, and that each block still
    carries its guards, padding and cap. *)

(** Bytes from address [a] up to the next multiple of 8. *)
Definition pad_len (a : Z) : Z := (- a) mod 8.

(** Views of the header at [h]. *)
Definition rec_size (m : memory) (h : Z) : Z := load8 m (h + off_size).
Definition rec_allocator (m : memory) (h : Z) : Z := load8 m (h + off_szAllocator).
Definition rec_next (m : memory) (h : Z) : Z := load8 m (h + off_le_next).
Definition rec_prev (m : memory) (h : Z) : Z := load8 m (h + off_le_prev).

(** Layout of the block whose header is at [h]. *)
Definition payload_of (h : Z) : Z := h + sizeof_memoryHeader.
Definition payload_end (m : memory) (h : Z) : Z := payload_of h + rec_size m h.
Definition cap_of (m : memory) (h : Z) : Z :=
  payload_end m h + pad_len (payload_end m h).
Definition block_end (m : memory) (h : Z) : Z := cap_of m h + sizeof_memoryCap.

(** The block at [h] is intact. *)
Definition block_ok (m : memory) (h : Z) : Prop :=
  h mod 8 = 0 /\ 0 < h /\ block_end m h <= 2 ^ 64 /\
  load8 m (h + off_ullFixedValues) = GUARD_BAND_TOP /\
  load8 m (h + off_ullFixedValues + 8) = GUARD_BAND_TOP /\
  (forall x, payload_end m h <= x < cap_of m h -> loadb m x = x mod 256) /\
  load8 m (cap_of m h) = GUARD_BAND_BOTTOM /\
  load8 m (cap_of m h + 8) = GUARD_BAND_BOTTOM.

(** The headers [l] are linked in this order: [p] is the pointer to the
    first of them and [prevp] the address of the pointer that holds [p]. *)
Fixpoint chain (m : memory) (prevp p : Z) (l : list Z) : Prop :=
  match l with
  | [] => p = 0
  | h :: t => p = h /\ rec_prev m h = prevp /\
              chain m (h + off_le_next) (rec_next m h) t
  end.

(** The blocks of [l] lie below [top], each below the one before it, none
    below [HEAP_BASE]. *)
Fixpoint layout (m : memory) (top : Z) (l : list Z) : Prop :=
  match l with
  | [] => HEAP_BASE <= top
  | h :: t => block_end m h <= top /\ layout m h t
  end.

(** The list at [gp_listHead] links exactly the headers [l]. *)
Definition registry (m : memory) (l : list Z) : Prop :=
  chain m gp_listHead (load8 m gp_listHead) l.

(** A state of the initialised library whose list links the headers [l].
    Blocks come out of the arena in ascending order and are linked at the
    head, so the list is in descending order of address. *)
Record wf (st : state) (l : list Z) : Prop := mkWf {
  wf_init : gp_orgRealloc_set st = true;
  wf_registry : registry (mem st) l;
  wf_layout : layout (mem st) (org_brk st) l;
  wf_blocks : Forall (block_ok (mem st)) l;
  wf_brk : org_brk st mod 16 = 0;
  wf_limit : org_limit st + 16 <= 2 ^ 64;
  wf_count : INT_MIN <= gi_allocCount st <= INT_MAX
}.

(** Largest payload for which [adjSize] does not wrap. *)
Definition MAX_PAYLOAD : Z := 2 ^ 64 - 80.

(** What [mem_get_usage] and [mem_get_real_usage] add up. *)
Definition usage_of (m : memory) (l : list Z) : Z :=
  fold_right (fun h acc => (if rec_allocator m h =? 0 then 0 else rec_size m h) + acc) 0 l.

Definition real_usage_of (m : memory) (l : list Z) : Z :=
  fold_right (fun h acc => rec_size m h + sizeof_memoryHeader + sizeof_memoryCap + acc) 0 l.

(** The headers [mem_show_allocations] writes a line for. *)
Definition shown (m : memory) (h : Z) : bool :=
  negb (rec_allocator m h =? 0) && negb (rec_size m h =? 0).

Definition address_line (m : memory) (h : Z) : fprintf_call :=
  F_address (payload_of h) (rec_size m h) (rec_allocator m h).

(** A process before [init] has run, with an arena that ends at [limit]. *)
Definition boot (limit : Z) : state :=
  mkState (fun _ => 0) 0 0 false 0 1 HEAP_BASE limit (fun _ => None).



(** The part of memory the intactness of a block depends on: its [size]
    field, and everything from its guard words to the end of the cap. *)
Definition same_block (m m' : memory) (h : Z) : Prop :=
  forall x, h + off_size <= x < h + off_threadId \/
            h + off_ullFixedValues <= x < block_end m h -> m' x = m x.

(** The links of the headers [l]. *)
Definition same_links (m m' : memory) (l : list Z) : Prop :=
  forall h x, In h l -> h + off_le_next <= x < h + off_ullFixedValues -> m' x = m x.

(** From [m] to [m'] nothing was written but bytes of [lo, hi), the list
    head, and links of the headers [l]. *)
Definition changed_only (m m' : memory) (lo hi : Z) (l : list Z) : Prop :=
  forall x, x < lo \/ hi <= x ->
            ~ (gp_listHead <= x < gp_listHead + 8) ->
            (forall h, In h l -> ~ (h + off_le_next <= x < h + off_ullFixedValues)) ->
            m' x = m x.

(** What the hook block leaves in [szCaller] and in [gi_allocCount]. *)
Definition hook_allocator (st : state) : Z :=
  if gi_hookDisabled st =? 0 then szEmpty else 0.

Definition hook_count (st : state) (type : alloc_type) (vPtr : Z) : Z :=
  if gi_hookDisabled st =? 0 then count_after_alloc type vPtr (gi_allocCount st)
  else gi_allocCount st.

(** The lines of the report, and the whole report. *)
Definition shown_lines (m : memory) (l : list Z) : list fprintf_call :=
  map (address_line m) (filter (shown m) l).

Definition show_output (count : Z) (m : memory) (l : list Z) : list fprintf_call :=
  match shown_lines m l with
  | [] => [F_no_allocations]
  | ls => show_header count ++ ls ++ [F_newline]
  end.

(** Observers of an outcome. *)
Definition returned {A : Type} (o : outcome (A * state)) : option A :=
  match o with Done (a, _) => Some a | _ => None end.

Definition state_after {A : Type} (o : outcome (A * state)) (st : state) : state :=
  match o with Done (_, st') => st' | _ => st end.

Definition state_of (o : outcome state) (st : state) : state :=
  match o with Done st' => st' | _ => st end.

Definition completes {A : Type} (o : outcome A) : bool :=
  match o with Done _ => true | _ => false end.

(** The process once [init] has run, with an arena that ends at [limit]. *)
Definition started (limit : Z) : state := state_of (init (boot limit)) (boot limit).

(** The state [init] reaches after [LIST_INIT], before its own [malloc (0)]. *)
Definition listed (limit : Z) : state :=
  set_mem (set_org_ptrs (boot limit) true) (LIST_INIT (mem (boot limit))).

(** The header of the [i]-th block of a fresh arena in which every block
    so far took 80 bytes. *)
Definition nth_header (i : Z) : Z := HEAP_BASE + 80 * i.

(** An initialised process with room for a few blocks, and the same after
    one [malloc (S)]. *)
Definition arena : Z := HEAP_BASE + 4096.

Definition after_malloc (S : Z) : state :=
  state_after (malloc (started arena) S) (started arena).

(** * The rest of the library

    [calloc], the destructor [end], and [getFunction], the helper of the
    [trace] that is compiled when [execinfo.h] is included. *)

From Stdlib Require Import Ascii.

(** The headers of [l] say the same in [m'] as in [m], and the blocks hold
    the same from their guard words to the end of the cap. *)
Definition same_records (m m' : memory) (l : list Z) : Prop :=
  forall h, In h l ->
    rec_size m' h = rec_size m h /\ rec_allocator m' h = rec_allocator m h /\
    block_end m' h = block_end m h /\
    forall x, h + off_ullFixedValues <= x < block_end m h -> m' x = m x.

(** ** calloc *)

(** [memset (dst, c, n)] *)
Fixpoint memset (n : nat) (m : memory) (dst c : Z) : memory :=
  match n with
  | O => m
  | S k => memset k (storeb m dst c) (dst + 1) c
  end.

(** A call that stores through a pointer either has the storage to do so,
    or it stores through NULL or past the end of the address space, which
    the C code does not survive. *)
Inductive access (A : Type) : Type :=
| Valid (a : A)
| BadStore.

Arguments Valid {A} a.
Arguments BadStore {A}.

(** [calloc]: the block comes from [internalStaticAlloc] before [init] and
    from [internalRealloc] after it, called with [nmemb] in the place of
    [size] and [size] in the place of [nmemb]; the result is then handed to
    [memset] without a test for NULL. *)
Definition calloc (st : state) (nmemb size : Z) : outcome (access (Z * state)) :=
  '(vPtr, st) <- (if gp_orgRealloc_set st
                  then internalRealloc st 0 nmemb size CALLOC
                  else internalStaticAlloc st (wrap64 (nmemb * size))) ;;
  let n := wrap64 (nmemb * size) in
  if negb (n =? 0) && ((vPtr =? 0) || (SIZE_MAX_P1 <? vPtr + n))
  then Done BadStore
  else Done (Valid (vPtr, set_mem st (memset (Z.to_nat n) (mem st) vPtr 0))).

(** ** end *)

(** The destructor: the leak report on [stderr], then the integrity check.
    It yields what was written. *)
Definition end_ (fuel : nat) (st : state) : outcome (list fprintf_call) :=
  out <- mem_show_allocations fuel st ;;
  _ <- mem_check_integrity fuel st ;;
  Done out.

(** ** getFunction

    [szDst] is the destination buffer, [szSrc] the characters of the source
    string up to its terminator.  A store outside the buffer has no
    result. *)

Definition buf_store (szDst : list ascii) (i : Z) (c : ascii) : option (list ascii) :=
  if (0 <=? i) && (i <? Z.of_nat (length szDst))
  then Some (firstn (Z.to_nat i) szDst ++ c :: skipn (S (Z.to_nat i)) szDst)
  else None.

(** [if (sDst < sMax) { szDst[sDst++] = c; }] *)
Definition put_if_room (szDst : list ascii) (sDst sMax : Z) (c : ascii)
  : option (list ascii * Z) :=
  if sDst <? sMax then
    match buf_store szDst sDst c with
    | Some d => Some (d, wrap64 (sDst + 1))
    | None => None
    end
  else Some (szDst, sDst).

Fixpoint getFunction_loop (szDst : list ascii) (sDst iMode : Z)
         (szSrc : list ascii) (sMax : Z) : option (list ascii * Z) :=
  match szSrc with
  | [] => Some (szDst, sDst)
  | c :: rest =>
      if Ascii.eqb c zero then Some (szDst, sDst)
      else if sDst =? sMax then
        match buf_store szDst (wrap64 (sMax - 1)) zero with
        | Some d => Some (d, sDst)
        | None => None
        end
      else if Ascii.eqb c "("%char then getFunction_loop szDst sDst 1 rest sMax
      else if Ascii.eqb c ")"%char then
        match put_if_room szDst sDst sMax "<"%char with
        | Some (d1, s1) =>
            match put_if_room d1 s1 sMax "<"%char with
            | Some (d2, s2) =>
                match put_if_room d2 s2 sMax "-"%char with
                | Some (d3, s3) => getFunction_loop d3 s3 2 rest sMax
                | None => None
                end
            | None => None
            end
        | None => None
        end
      else if iMode =? 1 then
        match put_if_room szDst sDst sMax c with
        | Some (d, s) => getFunction_loop d s iMode rest sMax
        | None => None
        end
      else getFunction_loop szDst sDst iMode rest sMax
  end.

Definition getFunction (szDst : list ascii) (sOffset : Z) (szSrc : list ascii)
           (sMax : Z) : option (list ascii * Z) :=
  getFunction_loop szDst sOffset 0 szSrc sMax.

(** The text [getFunction] is after: what stands between parentheses, each
    closing parenthesis replaced by an arrow. *)
Definition arrow : list ascii := ["<"; "<"; "-"]%char.

Definition plain (s : list ascii) : Prop :=
  forall c, In c s -> c <> zero /\ c <> "("%char /\ c <> ")"%char.

(** [cs] written over [szDst] from index [s] on. *)
Definition overwrite (szDst : list ascii) (s : nat) (cs : list ascii) : list ascii :=
  firstn s szDst ++ cs ++ skipn (s + length cs) szDst.

(** * Properties *)

(** ** Memory *)

Lemma storeb_eq (m : memory) (a v : Z) : storeb m a v a = v mod 256.
Proof. unfold storeb. now rewrite Z.eqb_refl. Qed.

Lemma storeb_neq (m : memory) (a v x : Z) : x <> a -> storeb m a v x = m x.
Proof. intros H. unfold storeb. destruct (Z.eqb_spec x a); congruence. Qed.

Lemma loadb_range (m : memory) (a : Z) : 0 <= loadb m a < 256.
Proof. unfold loadb. apply Z.mod_pos_bound. lia. Qed.

Lemma loadb_storeb_eq (m : memory) (a v : Z) : loadb (storeb m a v) a = v mod 256.
Proof. unfold loadb. rewrite storeb_eq. apply Z.mod_mod. lia. Qed.

Lemma store_le_outside (n : nat) : forall (m : memory) (a v x : Z),
  x < a \/ a + Z.of_nat n <= x -> store_le n m a v x = m x.
Proof.
  induction n as [|n IH]; intros m a v x H; cbn [store_le]; [reflexivity|].
  rewrite IH by lia. apply storeb_neq. lia.
Qed.

Lemma load_le_agree (n : nat) : forall (m m' : memory) (a : Z),
  (forall x, a <= x < a + Z.of_nat n -> m' x = m x) ->
  load_le n m' a = load_le n m a.
Proof.
  induction n as [|n IH]; intros m m' a H; cbn [load_le]; [reflexivity|].
  unfold loadb. rewrite (H a) by lia. f_equal. f_equal.
  apply IH. intros x Hx. apply H. lia.
Qed.

Lemma load_le_range (n : nat) : forall (m : memory) (a : Z),
  0 <= load_le n m a < 256 ^ Z.of_nat n.
Proof.
  induction n as [|n IH]; intros m a; cbn [load_le].
  - change (256 ^ Z.of_nat 0) with 1. lia.
  - rewrite Nat2Z.inj_succ, Z.pow_succ_r by lia.
    pose proof (loadb_range m a). specialize (IH m (a + 1)). nia.
Qed.

Lemma load_le_store_le (n : nat) : forall (m : memory) (a v : Z),
  load_le n (store_le n m a v) a = v mod 256 ^ Z.of_nat n.
Proof.
  induction n as [|n IH]; intros m a v; cbn [load_le store_le].
  - change (256 ^ Z.of_nat 0) with 1. now rewrite Z.mod_1_r.
  - rewrite IH. unfold loadb. rewrite store_le_outside by lia.
    rewrite storeb_eq, Z.mod_mod by lia.
    rewrite Nat2Z.inj_succ, Z.pow_succ_r by lia.
    assert (Hp : 0 < 256 ^ Z.of_nat n) by (apply Z.pow_pos_nonneg; lia).
    rewrite (Z.rem_mul_r v 256 (256 ^ Z.of_nat n)) by lia. reflexivity.
Qed.

(** Two words that are equal are equal byte by byte. *)
Lemma load_le_inj (n : nat) : forall (m m' : memory) (a x : Z),
  load_le n m a = load_le n m' a ->
  a <= x < a + Z.of_nat n -> loadb m x = loadb m' x.
Proof.
  induction n as [|n IH]; intros m m' a x H Hx; [lia|].
  cbn [load_le] in H.
  pose proof (loadb_range m a) as Ra. pose proof (loadb_range m' a) as Ra'.
  assert (loadb m a = loadb m' a /\ load_le n m (a + 1) = load_le n m' (a + 1))
    as [E1 E2] by lia.
  destruct (Z.eq_dec x a) as [->|Hne]; [exact E1|].
  apply (IH m m' (a + 1)); [exact E2|lia].
Qed.

Lemma store8_outside (m : memory) (a v x : Z) :
  x < a \/ a + 8 <= x -> store8 m a v x = m x.
Proof. intros H. unfold store8. apply store_le_outside. cbn. lia. Qed.

Lemma load8_agree (m m' : memory) (a : Z) :
  (forall x, a <= x < a + 8 -> m' x = m x) -> load8 m' a = load8 m a.
Proof. intros H. unfold load8. apply load_le_agree. cbn. exact H. Qed.

Lemma loadb_agree (m m' : memory) (a : Z) : m' a = m a -> loadb m' a = loadb m a.
Proof. unfold loadb. now intros ->. Qed.

Lemma load8_range (m : memory) (a : Z) : 0 <= load8 m a < 2 ^ 64.
Proof. unfold load8. exact (load_le_range 8 m a). Qed.

Lemma load8_store8 (m : memory) (a v : Z) : load8 (store8 m a v) a = wrap64 v.
Proof. unfold load8, store8. rewrite load_le_store_le. reflexivity. Qed.

Lemma load8_store8_small (m : memory) (a v : Z) :
  0 <= v < 2 ^ 64 -> load8 (store8 m a v) a = v.
Proof. intros H. rewrite load8_store8. unfold wrap64. apply Z.mod_small. exact H. Qed.

Lemma load8_store8_other (m : memory) (a v b : Z) :
  b + 8 <= a \/ a + 8 <= b -> load8 (store8 m a v) b = load8 m b.
Proof. intros H. apply load8_agree. intros x Hx. apply store8_outside. lia. Qed.

Lemma load8_storeb_other (m : memory) (a v b : Z) :
  a < b \/ b + 8 <= a -> load8 (storeb m a v) b = load8 m b.
Proof. intros H. apply load8_agree. intros x Hx. apply storeb_neq. lia. Qed.

(** A byte written into a word with another value changes the word. *)
Lemma load8_storeb_changed (m : memory) (a v b : Z) :
  b <= a < b + 8 -> v mod 256 <> loadb m a ->
  load8 (storeb m a v) b <> load8 m b.
Proof.
  intros Ha Hv Heq. apply Hv.
  rewrite <- (loadb_storeb_eq m a v).
  apply (load_le_inj 8 _ _ b a); [exact Heq|cbn; lia].
Qed.

Lemma memcpy_outside (n : nat) : forall (m : memory) (dst src x : Z),
  x < dst \/ dst + Z.of_nat n <= x -> memcpy n m dst src x = m x.
Proof.
  induction n as [|n IH]; intros m dst src x H; cbn [memcpy]; [reflexivity|].
  rewrite IH by lia. apply storeb_neq. lia.
Qed.

Lemma wrap64_small (z : Z) : 0 <= z < 2 ^ 64 -> wrap64 z = z.
Proof. intros H. unfold wrap64. apply Z.mod_small. exact H. Qed.

Lemma land_255 (z : Z) : Z.land z 0xFF = z mod 256.
Proof. change 0xFF with (Z.ones 8). now rewrite Z.land_ones by lia. Qed.

Lemma wrap64_range (z : Z) : 0 <= wrap64 z < 2 ^ 64.
Proof. unfold wrap64, SIZE_MAX_P1. apply Z.mod_pos_bound. lia. Qed.


(** ** Block layout and verifyIntegrity *)

Ltac consts :=
  unfold block_end, cap_of, payload_end, payload_of, rec_size, rec_allocator,
    rec_next, rec_prev, off_szAllocator, off_size, off_threadId, off_le_next,
    off_le_prev, off_ullFixedValues, sizeof_memoryHeader, sizeof_memoryCap,
    sizeof_ull, gp_listHead, szEmpty, HEAP_BASE, MAX_PAYLOAD, INT_MAX, INT_MIN in *.

Lemma pad_len_range (a : Z) : 0 <= pad_len a < 8.
Proof. unfold pad_len. apply Z.mod_pos_bound. lia. Qed.

Lemma pad_len_0 (a : Z) : a mod 8 = 0 -> pad_len a = 0.
Proof. unfold pad_len. Z.div_mod_to_equations. lia. Qed.

Lemma pad_len_succ (a : Z) : a mod 8 <> 0 -> pad_len a = 1 + pad_len (a + 1).
Proof.
  unfold pad_len. intros H.
  pose proof (Z.mod_pos_bound a 8 ltac:(lia)).
  pose proof (Z.mod_pos_bound (- a) 8 ltac:(lia)).
  pose proof (Z.mod_pos_bound (- (a + 1)) 8 ltac:(lia)).
  pose proof (Z_div_mod_eq_full a 8).
  pose proof (Z_div_mod_eq_full (- a) 8).
  pose proof (Z_div_mod_eq_full (- (a + 1)) 8).
  lia.
Qed.

Lemma verify_pad_ok (m : memory) (ucPtr size : Z) : forall (fuel : nat) (s : Z),
  0 <= ucPtr -> 0 <= s -> ucPtr + s + pad_len (ucPtr + s) < 2 ^ 64 ->
  pad_len (ucPtr + s) < Z.of_nat fuel ->
  (forall x, ucPtr + s <= x < ucPtr + s + pad_len (ucPtr + s) ->
             loadb m x = x mod 256) ->
  verify_pad fuel m ucPtr size s = Done (s + pad_len (ucPtr + s)).
Proof.
  induction fuel as [|f IH]; intros s Hu Hs Hb Hf Hp.
  - pose proof (pad_len_range (ucPtr + s)). lia.
  - rewrite Nat2Z.inj_succ in Hf. cbn [verify_pad]. unfold sizeof_ull.
    pose proof (pad_len_range (ucPtr + s)) as Hr.
    rewrite (wrap64_small (ucPtr + s)) by lia.
    destruct (Z.eqb_spec ((ucPtr + s) mod 8) 0) as [E|E].
    + rewrite pad_len_0 by exact E. f_equal. lia.
    + pose proof (pad_len_succ _ E) as Hk.
      pose proof (pad_len_range (ucPtr + s + 1)).
      rewrite land_255, Hp, Z.eqb_refl by lia.
      rewrite (wrap64_small (s + 1)) by lia.
      assert (Ea : ucPtr + (s + 1) = ucPtr + s + 1) by lia.
      rewrite IH; rewrite ?Ea; try lia.
      * f_equal. lia.
      * intros x Hx. apply Hp. lia.
Qed.

Lemma verify_pad_bad (m : memory) (ucPtr size : Z) : forall (fuel : nat) (s x : Z),
  0 <= ucPtr -> 0 <= s -> ucPtr + s + pad_len (ucPtr + s) < 2 ^ 64 ->
  pad_len (ucPtr + s) < Z.of_nat fuel ->
  ucPtr + s <= x < ucPtr + s + pad_len (ucPtr + s) ->
  loadb m x <> x mod 256 ->
  exists r, verify_pad fuel m ucPtr size s = Aborted r.
Proof.
  induction fuel as [|f IH]; intros s x Hu Hs Hb Hf Hx Hne.
  - pose proof (pad_len_range (ucPtr + s)). lia.
  - rewrite Nat2Z.inj_succ in Hf. cbn [verify_pad]. unfold sizeof_ull.
    pose proof (pad_len_range (ucPtr + s)) as Hr.
    rewrite (wrap64_small (ucPtr + s)) by lia.
    destruct (Z.eqb_spec ((ucPtr + s) mod 8) 0) as [E|E].
    + rewrite pad_len_0 in Hx by exact E. lia.
    + pose proof (pad_len_succ _ E) as Hk.
      pose proof (pad_len_range (ucPtr + s + 1)).
      rewrite land_255.
      destruct (Z.eqb_spec (loadb m (ucPtr + s)) ((ucPtr + s) mod 256)) as [E2|E2].
      * rewrite (wrap64_small (s + 1)) by lia.
        assert (Ea : ucPtr + (s + 1) = ucPtr + s + 1) by lia.
        assert (x <> ucPtr + s) by congruence.
        apply (IH (s + 1) x); rewrite ?Ea; try lia; exact Hne.
      * eexists. reflexivity.
Qed.

Lemma guard_top_range : 0 <= GUARD_BAND_TOP < 2 ^ 64.
Proof. unfold GUARD_BAND_TOP. lia. Qed.

Lemma guard_bottom_range : 0 <= GUARD_BAND_BOTTOM < 2 ^ 64.
Proof. unfold GUARD_BAND_BOTTOM. lia. Qed.

Lemma block_end_lower (m : memory) (h : Z) : h + 72 <= block_end m h.
Proof.
  consts. pose proof (load8_range m (h + 8)).
  pose proof (pad_len_range (h + 56 + load8 m (h + 8))). lia.
Qed.

Lemma verifyIntegrity_ok (m : memory) (h : Z) :
  block_ok m h -> verifyIntegrity m (payload_of h) = Done h.
Proof.
  intros (Hal & Hpos & Hend & Ht0 & Ht1 & Hpad & Hc0 & Hc1).
  pose proof (block_end_lower m h) as Hlow.
  pose proof (load8_range m (h + 8)) as Hsz.
  pose proof (pad_len_range (payload_end m h)) as Hpl.
  unfold verifyIntegrity.
  replace (wrap64 (payload_of h - sizeof_memoryHeader)) with h
    by (consts; rewrite wrap64_small; lia).
  cbn [check_guards MEM_HEADER_GUARD_LEN bind].
  replace (h + off_ullFixedValues + sizeof_ull * 0) with (h + off_ullFixedValues)
    by (consts; lia).
  rewrite Ht0, Z.eqb_refl.
  replace (h + off_ullFixedValues + sizeof_ull * (0 + 1))
    with (h + off_ullFixedValues + 8) by (consts; lia).
  rewrite Ht1, Z.eqb_refl. cbn [bind].
  rewrite (verify_pad_ok m (payload_of h) _ 8 (load8 m (h + off_size)));
    try (consts; lia).
  2:{ intros x Hx. apply Hpad. consts. lia. }
  cbn [bind check_guards MEM_CAP_GUARD_LEN].
  replace (wrap64 (payload_of h + (load8 m (h + off_size)
            + pad_len (payload_of h + load8 m (h + off_size)))))
    with (cap_of m h) by (consts; rewrite wrap64_small; lia).
  replace (cap_of m h + sizeof_ull * 0) with (cap_of m h) by (consts; lia).
  rewrite Hc0, Z.eqb_refl.
  replace (cap_of m h + sizeof_ull * (0 + 1)) with (cap_of m h + 8) by (consts; lia).
  rewrite Hc1, Z.eqb_refl. reflexivity.
Qed.

Lemma same_block_size (m m' : memory) (h : Z) :
  same_block m m' h -> rec_size m' h = rec_size m h.
Proof.
  intros H. unfold rec_size. apply load8_agree. intros x Hx. apply H. consts. lia.
Qed.

Lemma same_block_end (m m' : memory) (h : Z) :
  same_block m m' h -> block_end m' h = block_end m h.
Proof.
  intros H. unfold block_end, cap_of, payload_end.
  now rewrite (same_block_size _ _ _ H).
Qed.

Lemma block_ok_same (m m' : memory) (h : Z) :
  same_block m m' h -> block_ok m h -> block_ok m' h.
Proof.
  intros H (Hal & Hpos & Hend & Ht0 & Ht1 & Hpad & Hc0 & Hc1).
  pose proof (same_block_size _ _ _ H) as Hs.
  pose proof (load8_range m (h + 8)) as Hsz.
  pose proof (pad_len_range (payload_end m h)) as Hpl.
  assert (Hce : cap_of m' h = cap_of m h)
    by (unfold cap_of, payload_end; now rewrite Hs).
  assert (Hpe : payload_end m' h = payload_end m h)
    by (unfold payload_end; now rewrite Hs).
  unfold block_ok. rewrite (same_block_end _ _ _ H), Hce, Hpe.
  repeat split; try assumption.
  - rewrite <- Ht0. apply load8_agree. intros x Hx. apply H. consts. lia.
  - rewrite <- Ht1. apply load8_agree. intros x Hx. apply H. consts. lia.
  - intros x Hx. rewrite <- (Hpad x Hx). apply loadb_agree. apply H. consts. lia.
  - rewrite <- Hc0. apply load8_agree. intros x Hx. apply H. consts. lia.
  - rewrite <- Hc1. apply load8_agree. intros x Hx. apply H. consts. lia.
Qed.

(** ** The list in memory *)

Lemma layout_in (m : memory) : forall (l : list Z) (top h : Z),
  layout m top l -> In h l -> HEAP_BASE <= h /\ block_end m h <= top.
Proof.
  induction l as [|a t IH]; intros top h Hl Hin; [contradiction|].
  destruct Hl as [Ha Ht]. pose proof (block_end_lower m a) as Hlow.
  destruct Hin as [->|Hin].
  - split; [|exact Ha].
    clear IH. revert Ht. generalize h as top'. induction t as [|b t IHt]; intros top' Ht.
    + exact Ht.
    + destruct Ht as [Hb Ht]. pose proof (block_end_lower m b).
      specialize (IHt b Ht). lia.
  - destruct (IH a h Ht Hin) as [H1 H2]. split; [exact H1|lia].
Qed.

Lemma layout_base (m : memory) (l : list Z) (top : Z) : layout m top l -> HEAP_BASE <= top.
Proof.
  destruct l as [|a t]; [trivial|]. intros [Ha Ht].
  pose proof (layout_in m (a :: t) top a (conj Ha Ht) (or_introl eq_refl)).
  pose proof (block_end_lower m a). lia.
Qed.

Lemma layout_weaken (m : memory) (l : list Z) (top top' : Z) :
  layout m top l -> top <= top' -> layout m top' l.
Proof. destruct l; cbn; intros; [lia|]. intuition lia. Qed.

Lemma layout_same (m m' : memory) : forall (l : list Z) (top : Z),
  (forall h, In h l -> block_end m' h = block_end m h) ->
  layout m top l -> layout m' top l.
Proof.
  induction l as [|a t IH]; intros top H Hl; [exact Hl|].
  destruct Hl as [Ha Ht]. split.
  - rewrite H by (left; reflexivity). exact Ha.
  - apply IH; [|exact Ht]. intros h Hh. apply H. now right.
Qed.

Lemma layout_NoDup (m : memory) : forall (l : list Z) (top : Z),
  layout m top l -> NoDup l.
Proof.
  induction l as [|a t IH]; intros top Hl; constructor.
  - destruct Hl as [_ Ht]. intros Hin.
    destruct (layout_in m t a a Ht Hin) as [_ H].
    pose proof (block_end_lower m a). lia.
  - destruct Hl as [_ Ht]. exact (IH a Ht).
Qed.

Lemma chain_same (m m' : memory) : forall (l : list Z) (prevp p : Z),
  same_links m m' l -> chain m prevp p l -> chain m' prevp p l.
Proof.
  induction l as [|a t IH]; intros prevp p Hs Hc; [exact Hc|].
  destruct Hc as (Hp & Hprev & Hc).
  assert (Hn : rec_next m' a = rec_next m a).
  { unfold rec_next. apply load8_agree. intros x Hx.
    apply (Hs a); [now left|consts; lia]. }
  repeat split.
  - exact Hp.
  - rewrite <- Hprev. unfold rec_prev. apply load8_agree. intros x Hx.
    apply (Hs a); [now left|consts; lia].
  - rewrite Hn. apply IH; [|exact Hc].
    intros h x Hh Hx. apply (Hs h); [now right|exact Hx].
Qed.

Lemma chain_head_range (m : memory) (l : list Z) (prevp p top : Z) :
  chain m prevp p l -> layout m top l ->
  match l with [] => p = 0 | h :: _ => p = h /\ HEAP_BASE <= h /\ h + 72 <= top end.
Proof.
  destruct l as [|h t]; [trivial|]. intros (Hp & _) Hl.
  destruct (layout_in m (h :: t) top h Hl (or_introl eq_refl)).
  pose proof (block_end_lower m h). repeat split; [assumption|lia|lia].
Qed.

Lemma load8_store8_at (m : memory) (a b v : Z) :
  a = b -> 0 <= v < 2 ^ 64 -> load8 (store8 m a v) b = v.
Proof. intros <-. apply load8_store8_small. Qed.

Ltac side :=
  first [ apply load8_range | apply wrap64_range | apply guard_top_range
        | apply guard_bottom_range | consts; lia ].

Ltac mem_simpl :=
  repeat first
    [ rewrite load8_store8_at by side
    | rewrite load8_store8_other by side
    | rewrite store8_outside by side ].

Lemma insert_head_spec (m : memory) (l : list Z) (b : Z) :
  registry m l -> layout m b l -> b + 56 <= 2 ^ 64 ->
  registry (LIST_INSERT_HEAD m b) (b :: l) /\
  (forall x, ~ (b + off_le_next <= x < b + off_ullFixedValues) ->
             ~ (gp_listHead <= x < gp_listHead + 8) ->
             match l with
             | [] => True
             | h :: _ => ~ (h + off_le_prev <= x < h + off_ullFixedValues)
             end ->
             LIST_INSERT_HEAD m b x = m x).
Proof.
  intros Hreg Hlay Hb.
  pose proof (layout_base m l b Hlay) as Hbase.
  pose proof (chain_head_range m l _ _ b Hreg Hlay) as Hhd.
  pose proof (load8_range m gp_listHead) as Hr.
  unfold registry, LIST_INSERT_HEAD in *.
  destruct l as [|h t].
  - rewrite load8_store8_small by exact Hr.
    rewrite Hhd. cbn [Z.eqb]. split.
    + cbn [chain]. unfold rec_prev, rec_next. consts. mem_simpl. auto.
    + intros x H1 H2 _. consts. mem_simpl. reflexivity.
  - destruct Hhd as (Hp & Hh1 & Hh2).
    rewrite load8_store8_small by exact Hr.
    rewrite Hp in *.
    destruct (Z.eqb_spec h 0) as [E|_]; [consts; lia|].
    rewrite (load8_store8_other m (b + off_le_next)) by (consts; lia).
    rewrite Hp. split.
    + cbn [chain]. destruct Hreg as (_ & _ & Hc). destruct Hlay as [_ Hlt].
      unfold rec_prev, rec_next in *. consts. mem_simpl.
      repeat split.
      refine (chain_same m _ t _ _ _ Hc).
      intros h' x Hh' Hx.
      destruct (layout_in m t h h' Hlt Hh') as [Hq1 Hq2].
      pose proof (block_end_lower m h'). consts. mem_simpl. reflexivity.
    + intros x H1 H2 H3. consts. mem_simpl. reflexivity.
Qed.

Lemma layout_disjoint (m : memory) : forall (l : list Z) (top h h' : Z),
  layout m top l -> In h l -> In h' l -> h <> h' ->
  block_end m h <= h' \/ block_end m h' <= h.
Proof.
  induction l as [|a t IH]; intros top h h' Hl Hh Hh' Hne; [contradiction|].
  destruct Hl as [_ Ht].
  destruct Hh as [->|Hh], Hh' as [->|Hh'].
  - congruence.
  - right. now destruct (layout_in m t h h' Ht Hh').
  - left. now destruct (layout_in m t h' h Ht Hh).
  - exact (IH a h h' Ht Hh Hh' Hne).
Qed.

Lemma changed_only_block (m m' : memory) (lo hi : Z) (l : list Z) (h : Z) :
  changed_only m m' lo hi l -> layout m lo l -> In h l ->
  same_block m m' h /\
  (forall x, h <= x < h + off_le_next -> m' x = m x) /\
  (forall x, h + off_ullFixedValues <= x < block_end m h -> m' x = m x).
Proof.
  intros Hc Hl Hh.
  destruct (layout_in m l lo h Hl Hh) as [Hb He].
  pose proof (block_end_lower m h) as Hlow.
  assert (K : forall x, h <= x < h + off_le_next \/
                        h + off_ullFixedValues <= x < block_end m h -> m' x = m x).
  { intros x Hx. apply Hc.
    - consts. lia.
    - consts. lia.
    - intros h' Hh'. destruct (Z.eq_dec h h') as [<-|Hne]; [consts; lia|].
      destruct (layout_in m l lo h' Hl Hh') as [Hb' He'].
      pose proof (block_end_lower m h').
      destruct (layout_disjoint m l lo h h' Hl Hh Hh' Hne); consts; lia. }
  repeat split.
  - intros x Hx. apply K. consts. lia.
  - intros x Hx. apply K. now left.
  - intros x Hx. apply K. now right.
Qed.

Lemma changed_only_allocator (m m' : memory) (lo hi : Z) (l : list Z) (h : Z) :
  changed_only m m' lo hi l -> layout m lo l -> In h l ->
  rec_allocator m' h = rec_allocator m h.
Proof.
  intros Hc Hl Hh. destruct (changed_only_block _ _ _ _ _ _ Hc Hl Hh) as (_ & K & _).
  unfold rec_allocator. apply load8_agree. intros x Hx. apply K. consts. lia.
Qed.

Lemma changed_only_size (m m' : memory) (lo hi : Z) (l : list Z) (h : Z) :
  changed_only m m' lo hi l -> layout m lo l -> In h l ->
  rec_size m' h = rec_size m h.
Proof.
  intros Hc Hl Hh. destruct (changed_only_block _ _ _ _ _ _ Hc Hl Hh) as (K & _).
  now apply same_block_size.
Qed.

Lemma changed_only_blocks_ok (m m' : memory) (lo hi : Z) (l : list Z) :
  changed_only m m' lo hi l -> layout m lo l ->
  Forall (block_ok m) l -> Forall (block_ok m') l.
Proof.
  intros Hc Hl Hok. rewrite Forall_forall in *. intros h Hh.
  destruct (changed_only_block _ _ _ _ _ _ Hc Hl Hh) as (K & _).
  exact (block_ok_same m m' h K (Hok h Hh)).
Qed.

Lemma changed_only_layout (m m' : memory) (lo hi : Z) (l l' : list Z) (top : Z) :
  changed_only m m' lo hi l -> layout m lo l -> incl l' l ->
  layout m top l' -> layout m' top l'.
Proof.
  intros Hc Hl Hi. apply layout_same. intros h Hh.
  destruct (changed_only_block _ _ _ _ _ _ Hc Hl (Hi h Hh)) as (K & _).
  now apply same_block_end.
Qed.

Lemma changed_only_usage (m m' : memory) (lo hi : Z) (l l' : list Z) :
  changed_only m m' lo hi l -> layout m lo l -> incl l' l ->
  usage_of m' l' = usage_of m l' /\ real_usage_of m' l' = real_usage_of m l'.
Proof.
  intros Hc Hl. induction l' as [|a t IH]; intros Hi; [split; reflexivity|].
  assert (Ha : In a l) by (apply Hi; now left).
  destruct IH as [IH1 IH2]; [intros x Hx; apply Hi; now right|].
  cbn [usage_of real_usage_of fold_right] in *.
  fold (usage_of m' t) (usage_of m t) (real_usage_of m' t) (real_usage_of m t).
  rewrite (changed_only_allocator _ _ _ _ _ _ Hc Hl Ha),
          (changed_only_size _ _ _ _ _ _ Hc Hl Ha), IH1, IH2.
  split; reflexivity.
Qed.

(** ** Building a record *)

Lemma fill_pad_spec (ucPtr : Z) : forall (fuel : nat) (m : memory) (s : Z),
  0 <= ucPtr -> 0 <= s -> ucPtr + s + pad_len (ucPtr + s) < 2 ^ 64 ->
  pad_len (ucPtr + s) < Z.of_nat fuel ->
  exists m',
    fill_pad fuel m ucPtr s = Done (m', s + pad_len (ucPtr + s)) /\
    (forall x, x < ucPtr + s \/ ucPtr + s + pad_len (ucPtr + s) <= x -> m' x = m x) /\
    (forall x, ucPtr + s <= x < ucPtr + s + pad_len (ucPtr + s) ->
               loadb m' x = x mod 256).
Proof.
  induction fuel as [|f IH]; intros m s Hu Hs Hb Hf.
  - pose proof (pad_len_range (ucPtr + s)). lia.
  - rewrite Nat2Z.inj_succ in Hf. cbn [fill_pad]. unfold sizeof_ull.
    pose proof (pad_len_range (ucPtr + s)) as Hr.
    rewrite (wrap64_small (ucPtr + s)) by lia.
    destruct (Z.eqb_spec ((ucPtr + s) mod 8) 0) as [E|E].
    + rewrite pad_len_0 by exact E. exists m. repeat split.
      * do 2 f_equal. lia.
      * intros x Hx. lia.
    + pose proof (pad_len_succ _ E) as Hk.
      pose proof (pad_len_range (ucPtr + s + 1)).
      rewrite (wrap64_small (s + 1)) by lia.
      assert (Ea : ucPtr + (s + 1) = ucPtr + s + 1) by lia.
      destruct (IH (storeb m (ucPtr + s) (Z.land (ucPtr + s) 255)) (s + 1))
        as (m' & E1 & E2 & E3); rewrite ?Ea; [lia|lia|lia|lia|].
      exists m'. rewrite Ea in *. repeat split.
      * rewrite E1. do 2 f_equal. lia.
      * intros x Hx. rewrite E2 by lia. apply storeb_neq. lia.
      * intros x Hx. destruct (Z.eq_dec x (ucPtr + s)) as [->|Hne].
        -- unfold loadb. rewrite E2 by lia. rewrite storeb_eq, land_255.
           now rewrite !Z.mod_mod by lia.
        -- apply E3. lia.
Qed.

Lemma registry_same (m m' : memory) (l : list Z) :
  same_links m m' l ->
  (forall x, gp_listHead <= x < gp_listHead + 8 -> m' x = m x) ->
  registry m l -> registry m' l.
Proof.
  intros Hs Hg Hr. unfold registry in *.
  rewrite (load8_agree m m' gp_listHead Hg). exact (chain_same m m' l _ _ Hs Hr).
Qed.

(** Writes at or above [b] do not disturb a list whose blocks lie below [b]. *)
Lemma above_preserved (m m' : memory) (l : list Z) (b : Z) :
  (forall x, x < b -> m' x = m x) -> layout m b l ->
  (registry m l -> registry m' l) /\ layout m' b l /\
  (Forall (block_ok m) l -> Forall (block_ok m') l).
Proof.
  intros Hf Hl.
  assert (K : forall h, In h l -> forall x, h <= x < block_end m h -> m' x = m x).
  { intros h Hh x Hx. destruct (layout_in m l b h Hl Hh). apply Hf. lia. }
  pose proof (layout_base m l b Hl) as Hbase.
  repeat split.
  - apply registry_same.
    + intros h x Hh Hx. apply (K h Hh). pose proof (block_end_lower m h). consts. lia.
    + intros x Hx. apply Hf. consts. lia.
  - apply (layout_same m m' l b); [|exact Hl]. intros h Hh.
    apply same_block_end. intros x Hx. apply (K h Hh).
    pose proof (block_end_lower m h). consts. lia.
  - intros Hok. rewrite Forall_forall in *. intros h Hh.
    apply (block_ok_same m m' h); [|exact (Hok h Hh)].
    intros x Hx. apply (K h Hh). pose proof (block_end_lower m h). consts. lia.
Qed.

Lemma build_record_spec (st : state) (l : list Z) (b size nmemb szCaller : Z) :
  registry (mem st) l -> layout (mem st) b l -> b mod 8 = 0 ->
  b + 80 + wrap64 (size * nmemb) <= 2 ^ 64 -> 0 <= szCaller < 2 ^ 64 ->
  exists m',
    build_record st b size nmemb szCaller = Done (payload_of b, set_mem st m') /\
    registry m' (b :: l) /\ block_ok m' b /\
    rec_size m' b = wrap64 (size * nmemb) /\ rec_allocator m' b = szCaller /\
    changed_only (mem st) m' b (block_end m' b) l.
Proof.
  intros Hreg Hlay Hal Hfit Hsz.
  pose proof (wrap64_range (size * nmemb)) as Hw.
  set (sz := wrap64 (size * nmemb)) in *.
  pose proof (layout_base _ _ _ Hlay) as Hbase. unfold HEAP_BASE in Hbase.
  pose proof (pad_len_range (b + 56 + sz)) as Hpl.
  unfold build_record.
  match goal with |- context [LIST_INSERT_HEAD ?m _] => set (m5 := m) end.
  assert (F5 : forall x, x < b \/ b + 40 <= x -> m5 x = mem st x).
  { intros x Hx. unfold m5. consts. mem_simpl. reflexivity. }
  destruct (above_preserved (mem st) m5 l b) as (R5 & L5 & _);
    [intros x Hx; apply F5; lia|exact Hlay|].
  specialize (R5 Hreg).
  destruct (insert_head_spec m5 l b R5 L5 ltac:(lia)) as [R6 F6].
  set (m6 := LIST_INSERT_HEAD m5 b) in *.
  assert (F6' : forall x, b <= x < b + 24 \/ b + 40 <= x < 2 ^ 64 -> m6 x = m5 x).
  { intros x Hx. apply F6.
    - consts. lia.
    - consts. lia.
    - destruct l as [|h t]; [trivial|].
      destruct (layout_in m5 (h :: t) b h L5 (or_introl eq_refl)) as [H1 H2].
      pose proof (block_end_lower m5 h). consts. lia. }
  cbn [write_guards MEM_HEADER_GUARD_LEN MEM_CAP_GUARD_LEN].
  replace (b + off_ullFixedValues + sizeof_ull * 0) with (b + 40) by (consts; lia).
  replace (b + off_ullFixedValues + sizeof_ull * (0 + 1)) with (b + 48) by (consts; lia).
  set (m7 := store8 (store8 m6 (b + 40) GUARD_BAND_TOP) (b + 48) GUARD_BAND_TOP).
  assert (S7 : load8 m7 (b + off_size) = sz).
  { unfold m7. consts. mem_simpl.
    rewrite (load8_agree m5 m6) by (intros x Hx; apply F6'; lia).
    unfold m5. consts. mem_simpl. reflexivity. }
  rewrite S7.
  replace (wrap64 (b + sizeof_memoryHeader)) with (b + 56)
    by (consts; rewrite wrap64_small; lia).
  destruct (fill_pad_spec (b + 56) 8 m7 sz) as (m8 & E8 & F8 & P8);
    [consts; lia|lia|consts; lia|cbn; lia|].
  rewrite E8. cbn [bind].
  replace (wrap64 (b + 56 + (sz + pad_len (b + 56 + sz))))
    with (b + 56 + sz + pad_len (b + 56 + sz)) by (rewrite wrap64_small; lia).
  set (cap := b + 56 + sz + pad_len (b + 56 + sz)) in *.
  replace (cap + sizeof_ull * 0) with cap by (consts; lia).
  replace (cap + sizeof_ull * (0 + 1)) with (cap + 8) by (consts; lia).
  set (m9 := store8 (store8 m8 cap GUARD_BAND_BOTTOM) (cap + 8) GUARD_BAND_BOTTOM).
  assert (G : forall x, x < b + 40 \/ cap + 16 <= x -> m9 x = m6 x).
  { intros x Hx. unfold m9. rewrite !store8_outside by lia.
    rewrite F8 by lia. unfold m7. rewrite !store8_outside by lia. reflexivity. }
  assert (S9 : rec_size m9 b = sz).
  { unfold rec_size. rewrite <- S7.
    rewrite (load8_agree m6 m9) by (intros x Hx; apply G; consts; lia).
    unfold m7. consts. mem_simpl. reflexivity. }
  assert (A9 : rec_allocator m9 b = szCaller).
  { unfold rec_allocator.
    rewrite (load8_agree m6 m9) by (intros x Hx; apply G; consts; lia).
    rewrite (load8_agree m5 m6) by (intros x Hx; apply F6'; consts; lia).
    unfold m5. consts. mem_simpl. reflexivity. }
  assert (C9 : cap_of m9 b = cap).
  { unfold cap_of, payload_end. rewrite S9. unfold cap. consts. lia. }
  assert (E9 : block_end m9 b = cap + 16).
  { unfold block_end. rewrite C9. reflexivity. }
  exists m9. split; [reflexivity|]. split; [|split; [|split; [|split]]].
  - apply (registry_same m6 m9); [| |exact R6].
    + intros h x [<-|Hh] Hx; apply G; [consts; lia|].
      destruct (layout_in m5 l b h L5 Hh). pose proof (block_end_lower m5 h).
      consts. lia.
    + intros x Hx. apply G. consts. lia.
  - unfold block_ok. rewrite E9, C9.
    assert (PE : payload_end m9 b = b + 56 + sz)
      by (unfold payload_end; rewrite S9; consts; lia).
    rewrite PE.
    pose proof guard_top_range. pose proof guard_bottom_range.
    repeat split; try lia.
    + unfold m9. consts. mem_simpl.
      rewrite (load8_agree m7 m8) by (intros x Hx; apply F8; lia).
      unfold m7. mem_simpl. reflexivity.
    + unfold m9. consts. mem_simpl.
      rewrite (load8_agree m7 m8) by (intros x Hx; apply F8; lia).
      unfold m7. mem_simpl. reflexivity.
    + intros x Hx. rewrite <- (P8 x) by (unfold cap in Hx; lia).
      apply loadb_agree. unfold m9. rewrite !store8_outside by lia. reflexivity.
    + unfold m9. mem_simpl. reflexivity.
    + unfold m9. mem_simpl. reflexivity.
  - exact S9.
  - exact A9.
  - rewrite E9. intros x Hx Hg Hl.
    rewrite G by lia. rewrite <- F5 by lia. apply F6.
    + consts. lia.
    + exact Hg.
    + destruct l as [|h t]; [trivial|].
      specialize (Hl h (or_introl eq_refl)). consts. lia.
Qed.

(** ** Allocation of a new block *)

Lemma wrap_int_range (z : Z) : INT_MIN <= wrap_int z <= INT_MAX.
Proof.
  unfold wrap_int, INT_MIN, INT_MAX.
  pose proof (Z.mod_pos_bound (z + 2 ^ 31) (2 ^ 32) ltac:(lia)). lia.
Qed.

Lemma wrap_int_small (z : Z) : INT_MIN <= z <= INT_MAX -> wrap_int z = z.
Proof.
  unfold wrap_int, INT_MIN, INT_MAX. intros H.
  rewrite Z.mod_small by lia. lia.
Qed.

Lemma wrap_int_succ_pred (c : Z) :
  INT_MIN <= c <= INT_MAX -> wrap_int (wrap_int (c + 1) - 1) = c.
Proof.
  unfold wrap_int, INT_MIN, INT_MAX. intros H.
  replace ((c + 1 + 2 ^ 31) mod 2 ^ 32 - 2 ^ 31 - 1 + 2 ^ 31)
    with ((c + 1 + 2 ^ 31) mod 2 ^ 32 - 1) by lia.
  rewrite <- (Z.mod_small 1 (2 ^ 32)) at 2 by lia.
  rewrite <- Zminus_mod.
  replace (c + 1 + 2 ^ 31 - 1) with (c + 2 ^ 31) by lia.
  rewrite Z.mod_small by lia. lia.
Qed.

Lemma adjSize_of_small (size : Z) :
  0 <= size <= MAX_PAYLOAD ->
  adjSize_of size 1 = size + pad_len size + 72.
Proof.
  intros H. unfold adjSize_of, MAX_PAYLOAD, sizeof_memoryHeader, sizeof_memoryCap,
    sizeof_ull in *.
  rewrite Z.mul_1_r, (wrap64_small size) by lia.
  rewrite (wrap64_small (size + (56 + 16))) by lia.
  pose proof (pad_len_range size) as Hp.
  assert (Hm : (size + (56 + 16)) mod 8 = size mod 8).
  { replace (size + (56 + 16)) with (size + 9 * 8) by lia. apply Z_mod_plus_full. }
  rewrite Hm.
  destruct (Z.eqb_spec (size mod 8) 0) as [E|E].
  - rewrite (pad_len_0 _ E). lia.
  - rewrite wrap64_small.
    + unfold pad_len in *.
      pose proof (Z.mod_pos_bound size 8 ltac:(lia)).
      pose proof (Z_div_mod_eq_full size 8).
      pose proof (Z_div_mod_eq_full (- size) 8). lia.
    + pose proof (Z.mod_pos_bound size 8 ltac:(lia)). lia.
Qed.

Lemma pad_len_shift (b s : Z) : b mod 8 = 0 -> pad_len (b + 56 + s) = pad_len s.
Proof.
  intros H. unfold pad_len.
  pose proof (Z_div_mod_eq_full b 8).
  replace (- (b + 56 + s)) with (- s + (- (b / 8) - 7) * 8) by lia.
  apply Z_mod_plus_full.
Qed.

Lemma align16_spec (z : Z) : z <= align16 z < z + 16 /\ align16 z mod 16 = 0.
Proof.
  unfold align16. split.
  - pose proof (Z_div_mod_eq_full (z + 15) 16).
    pose proof (Z.mod_pos_bound (z + 15) 16 ltac:(lia)). lia.
  - apply Z_mod_mult.
Qed.

Lemma mod16_mod8 (b : Z) : b mod 16 = 0 -> b mod 8 = 0.
Proof.
  intros H. pose proof (Z_div_mod_eq_full b 16).
  replace b with ((2 * (b / 16)) * 8) by lia. apply Z_mod_mult.
Qed.

Lemma count_after_alloc_range (type : alloc_type) (vPtr c : Z) :
  INT_MIN <= c <= INT_MAX -> INT_MIN <= count_after_alloc type vPtr c <= INT_MAX.
Proof.
  intros H. destruct type; cbn; try apply wrap_int_range.
  destruct (vPtr =? 0); [apply wrap_int_range|exact H].
Qed.

(** The common tail of [internalRealloc] once [gp_orgRealloc] has returned
    the block [b]: the state [st1] is the one after that call. *)
Lemma record_new_block (st1 : state) (l : list Z) (b size : Z)
      (type : alloc_type) (vPtr : Z) :
  gp_orgRealloc_set st1 = true ->
  registry (mem st1) l -> layout (mem st1) b l -> Forall (block_ok (mem st1)) l ->
  b mod 16 = 0 -> 0 <= size <= MAX_PAYLOAD ->
  b + adjSize_of size 1 <= org_limit st1 -> org_limit st1 + 16 <= 2 ^ 64 ->
  org_brk st1 = align16 (b + adjSize_of size 1) ->
  INT_MIN <= gi_allocCount st1 <= INT_MAX ->
  exists st',
    (let '(szCaller, st) := trace_and_count st1 type vPtr in
     build_record st b size 1 szCaller) = Done (payload_of b, st') /\
    wf st' (b :: l) /\
    rec_size (mem st') b = size /\
    rec_allocator (mem st') b = hook_allocator st1 /\
    gi_allocCount st' = hook_count st1 type vPtr /\
    gi_hookDisabled st' = gi_hookDisabled st1 /\
    changed_only (mem st1) (mem st') b (org_brk st') l /\
    org_limit st' = org_limit st1 /\ org_blocks st' = org_blocks st1 /\
    org_brk st' = org_brk st1.
Proof.
  intros Hinit Hreg Hlay Hok Hb Hsz Hfit Hlim Hbrk Hcnt.
  pose proof (adjSize_of_small size Hsz) as Hadj.
  pose proof (pad_len_range size) as Hpl.
  pose proof (mod16_mod8 b Hb) as Hb8.
  pose proof (align16_spec (b + adjSize_of size 1)) as [Hal1 Hal2].
  assert (Hw : wrap64 (size * 1) = size)
    by (rewrite Z.mul_1_r; apply wrap64_small; unfold MAX_PAYLOAD in Hsz; lia).
  set (szc := hook_allocator st1).
  set (st2 := if gi_hookDisabled st1 =? 0
              then set_hook (set_count (set_hook st1 1)
                     (count_after_alloc type vPtr (gi_allocCount st1))) 0
              else st1).
  assert (Hm2 : mem st2 = mem st1) by (unfold st2; destruct (_ =? 0); reflexivity).
  destruct (build_record_spec st2 l b size 1 szc)
    as (m' & E & R & B & S & A & C).
  { rewrite Hm2. exact Hreg. }
  { rewrite Hm2. exact Hlay. }
  { exact Hb8. }
  { rewrite Hw. unfold MAX_PAYLOAD in Hsz. lia. }
  { unfold szc, hook_allocator, szEmpty. destruct (_ =? 0); lia. }
  rewrite Hw in S.
  assert (Eend : block_end m' b = b + adjSize_of size 1).
  { unfold block_end, cap_of, payload_end. rewrite S.
    unfold payload_of, sizeof_memoryHeader, sizeof_memoryCap.
    rewrite (pad_len_shift b size Hb8). lia. }
  exists (set_mem st2 m').
  assert (Ego : (let '(szCaller, st) := trace_and_count st1 type vPtr in
     build_record st b size 1 szCaller) = build_record st2 b size 1 szc).
  { unfold trace_and_count, st2, szc, hook_allocator, trace.
    destruct (gi_hookDisabled st1 =? 0); reflexivity. }
  rewrite Ego, E. rewrite Hm2 in C.
  assert (C' : changed_only (mem st1) m' b (org_brk st1) l).
  { intros x Hx. apply C. rewrite Eend. lia. }
  assert (Hfields : gp_orgRealloc_set st2 = gp_orgRealloc_set st1 /\
                    org_brk st2 = org_brk st1 /\ org_limit st2 = org_limit st1 /\
                    org_blocks st2 = org_blocks st1 /\
                    gi_hookDisabled st2 = gi_hookDisabled st1 /\
                    gi_allocCount st2 = hook_count st1 type vPtr).
  { unfold st2, hook_count. destruct (Z.eqb_spec (gi_hookDisabled st1) 0) as [E0|E0];
      cbn; auto 10. }
  destruct Hfields as (H1 & H2 & H3 & H4 & H5 & H6).
  split; [reflexivity|]. split; [|cbn; rewrite ?H2; auto 10].
  constructor; cbn.
  - congruence.
  - exact R.
  - split.
    + rewrite Eend, H2, Hbrk. lia.
    + refine (changed_only_layout _ _ _ _ l l b C' _ (incl_refl l) Hlay).
      exact Hlay.
  - constructor; [exact B|].
    exact (changed_only_blocks_ok _ _ _ _ _ C' Hlay Hok).
  - rewrite H2, Hbrk. exact Hal2.
  - lia.
  - rewrite H6. unfold hook_count. destruct (_ =? 0); [|exact Hcnt].
    now apply count_after_alloc_range.
Qed.

Lemma alloc_new_spec (st : state) (l : list Z) (size : Z) (type : alloc_type) :
  wf st l -> 0 <= size <= MAX_PAYLOAD ->
  org_brk st + adjSize_of size 1 <= org_limit st ->
  exists st',
    internalRealloc st 0 size 1 type = Done (payload_of (org_brk st), st') /\
    wf st' (org_brk st :: l) /\
    rec_size (mem st') (org_brk st) = size /\
    rec_allocator (mem st') (org_brk st) = hook_allocator st /\
    gi_allocCount st' = hook_count st type 0 /\
    gi_hookDisabled st' = gi_hookDisabled st /\
    changed_only (mem st) (mem st') (org_brk st) (org_brk st') l /\
    org_limit st' = org_limit st /\
    org_brk st' = align16 (org_brk st + adjSize_of size 1).
Proof.
  intros [Hinit Hreg Hlay Hok Hbrk Hlim Hcnt] Hsz Hfit.
  pose proof (adjSize_of_small size Hsz) as Hadj.
  pose proof (pad_len_range size) as Hpl.
  pose proof (layout_base _ _ _ Hlay) as Hbase.
  unfold internalRealloc, detach_old. cbn [Z.eqb bind].
  unfold org_realloc. cbn [Z.eqb].
  destruct (Z.leb_spec (org_brk st + adjSize_of size 1) (org_limit st)) as [_|?]; [|lia].
  destruct (Z.eqb_spec (org_brk st) 0) as [E|_]; [unfold HEAP_BASE in Hbase; lia|].
  replace (Z.max (adjSize_of size 1) 1) with (adjSize_of size 1) by lia.
  set (st1 := set_org st (mem st) (align16 (org_brk st + adjSize_of size 1))
                      (upd (org_blocks st) (org_brk st) (Some (adjSize_of size 1)))).
  destruct (record_new_block st1 l (org_brk st) size type 0)
    as (st' & E & W & S & A & C & H & Ch & L & _ & B); try assumption; try reflexivity.
  exists st'. change (gi_hookDisabled st1) with (gi_hookDisabled st) in *.
  change (gi_allocCount st1) with (gi_allocCount st) in *.
  rewrite E. auto 10.
Qed.

(** ** Taking a record out of the list *)

Lemma layout_remove (m : memory) : forall (l1 l2 : list Z) (h top : Z),
  layout m top (l1 ++ h :: l2) -> layout m top (l1 ++ l2).
Proof.
  induction l1 as [|a t IH]; intros l2 h top Hl.
  - destruct Hl as [Hh Hl]. cbn. apply (layout_weaken m l2 h top Hl).
    pose proof (block_end_lower m h). lia.
  - destruct Hl as [Ha Hl]. split; [exact Ha|]. exact (IH l2 h a Hl).
Qed.

(** Where the links of a member of the list point. *)
Lemma chain_links (m : memory) : forall (l1 l2 : list Z) (h prevp p : Z),
  chain m prevp p (l1 ++ h :: l2) ->
  (rec_prev m h = prevp /\ l1 = [] \/
   exists a, In a l1 /\ rec_prev m h = a + off_le_next) /\
  (rec_next m h = 0 /\ l2 = [] \/ In (rec_next m h) l2).
Proof.
  induction l1 as [|a t IH]; intros l2 h prevp p Hc.
  - destruct Hc as (_ & Hp & Hc). split; [left; auto|].
    destruct l2 as [|n t2]; [left; auto|].
    destruct Hc as (-> & _). right. now left.
  - destruct Hc as (_ & _ & Hc). destruct (IH l2 h _ _ Hc) as [[[H1 H2]|(a' & H1 & H2)] H3].
    + split; [|exact H3]. right. exists a. subst t. split; [now left|exact H1].
    + split; [|exact H3]. right. exists a'. split; [now right|exact H2].
Qed.

(** What [LIST_REMOVE (h)] followed by [h->le_prev = NULL] writes, when
    the three words it touches do not overlap. *)
Lemma list_remove_local (m : memory) (h : Z) :
  let n := rec_next m h in
  let ph := rec_prev m h in
  let m3 := store8 (LIST_REMOVE m h) (h + off_le_prev) 0 in
  (ph + 8 <= h + off_le_next \/ h + off_ullFixedValues <= ph) ->
  (n = 0 \/ n + off_ullFixedValues <= h \/ h + sizeof_memoryHeader <= n) ->
  (n = 0 \/ ph + 8 <= n + off_le_prev \/ n + off_ullFixedValues <= ph) ->
  load8 m3 ph = n /\
  (n <> 0 -> load8 m3 (n + off_le_prev) = ph) /\
  load8 m3 (h + off_le_prev) = 0 /\
  (forall x, ~ (ph <= x < ph + 8) ->
             (n = 0 \/ ~ (n + off_le_prev <= x < n + off_ullFixedValues)) ->
             ~ (h + off_le_prev <= x < h + off_ullFixedValues) ->
             m3 x = m x).
Proof.
  intros n ph m3 D1 D2 D3.
  pose proof (load8_range m (h + off_le_next)) as Rn.
  pose proof (load8_range m (h + off_le_prev)) as Rp.
  unfold m3, LIST_REMOVE. fold (rec_next m h) (rec_prev m h). fold n ph.
  unfold n, ph, rec_next, rec_prev in *.
  destruct (Z.eqb_spec (load8 m (h + off_le_next)) 0) as [E|E].
  - rewrite E. repeat split.
    + consts. mem_simpl. reflexivity.
    + congruence.
    + consts. mem_simpl. reflexivity.
    + intros x H1 _ H3. consts. mem_simpl. reflexivity.
  - assert (Ep : load8 (store8 m (load8 m (h + off_le_next) + off_le_prev)
                               (load8 m (h + off_le_prev))) (h + off_le_prev)
                 = load8 m (h + off_le_prev)) by (consts; mem_simpl; reflexivity).
    assert (En : load8 (store8 m (load8 m (h + off_le_next) + off_le_prev)
                               (load8 m (h + off_le_prev))) (h + off_le_next)
                 = load8 m (h + off_le_next)) by (consts; mem_simpl; reflexivity).
    rewrite Ep, En. repeat split.
    + consts. mem_simpl. reflexivity.
    + intros _. consts. mem_simpl. reflexivity.
    + consts. mem_simpl. reflexivity.
    + intros x H1 [H2|H2] H3; [congruence|]. consts. mem_simpl. reflexivity.
Qed.

Lemma chain_remove_ind (m m3 : memory) (h : Z) (l2 : list Z) :
  load8 m3 (rec_prev m h) = rec_next m h ->
  (rec_next m h <> 0 -> load8 m3 (rec_next m h + off_le_prev) = rec_prev m h) ->
  (forall x, ~ (rec_prev m h <= x < rec_prev m h + 8) ->
             (rec_next m h = 0 \/
              ~ (rec_next m h + off_le_prev <= x < rec_next m h + off_ullFixedValues)) ->
             ~ (h + off_le_prev <= x < h + off_ullFixedValues) ->
             m3 x = m x) ->
  forall (l1 : list Z) (pp top : Z),
    chain m pp (load8 m pp) (l1 ++ h :: l2) ->
    layout m top (l1 ++ h :: l2) ->
    (forall h', In h' (l1 ++ h :: l2) -> pp + 8 <= h' \/ block_end m h' <= pp) ->
    chain m3 pp (load8 m3 pp) (l1 ++ l2).
Proof.
  intros L1 L2 F. induction l1 as [|a t IH]; intros pp top Hc Hl Ho.
  - cbn [app] in *. destruct Hc as (Hp & Hprev & Hc). rewrite Hprev in *.
    rewrite L1. destruct l2 as [|n t2]; [exact Hc|].
    destruct Hc as (Hn & Hnp & Hc). rewrite Hn in *.
    destruct Hl as [_ Hl]. pose proof Hl as [Hnh Hlt].
    destruct (layout_in m (n :: t2) h n Hl (or_introl eq_refl)) as [Hb _].
    pose proof (block_end_lower m n) as Hlown.
    pose proof (block_end_lower m h) as Hlowh.
    destruct (Ho n (or_intror (or_introl eq_refl))) as [Ho1|Ho1];
    destruct (Ho h (or_introl eq_refl)) as [Ho2|Ho2].
    all: (split; [reflexivity|]; split;
          [unfold rec_prev; apply L2; unfold HEAP_BASE in Hb; lia|]).
    all: assert (En : rec_next m3 n = rec_next m n)
      by (unfold rec_next; apply load8_agree; intros x Hx; apply F;
          [consts; lia|right; consts; lia|consts; lia]).
    all: rewrite En; refine (chain_same m m3 t2 _ _ _ Hc); intros h' x Hh' Hx;
      destruct (layout_in m t2 n h' Hlt Hh') as [Hb' He'];
      pose proof (block_end_lower m h');
      destruct (Ho h' (or_intror (or_intror Hh'))); apply F;
      [consts; lia|right; consts; lia|consts; lia
      |consts; lia|right; consts; lia|consts; lia].
  - cbn [app] in *. destruct Hc as (Hp & Hprev & Hc).
    pose proof Hl as [Ha Hlt].
    pose proof (block_end_lower m a) as Hlowa.
    pose proof (block_end_lower m h) as Hlowh.
    assert (Hin : In h (t ++ h :: l2)) by (apply in_or_app; right; now left).
    destruct (layout_in m _ a h Hlt Hin) as [Hbh Heh].
    destruct (chain_links m (a :: t) l2 h pp _
                (conj Hp (conj Hprev Hc))) as [Hph Hn].
    assert (Fa : forall x, pp <= x < pp + 8 \/ a + off_le_prev <= x < a + off_ullFixedValues
                           -> m3 x = m x).
    { intros x Hx.
      assert (Hpa : pp + 8 <= a \/ block_end m a <= pp) by (apply Ho; now left).
      apply F.
      - destruct Hph as [[_ Hnil]|(a' & Ha' & Hph)]; [discriminate|]. rewrite Hph.
        destruct Ha' as [<-|Ha'].
        + consts. lia.
        + assert (Hin' : In a' (t ++ h :: l2)) by (apply in_or_app; now left).
          destruct (layout_in m _ a a' Hlt Hin') as [Hb' He'].
          pose proof (block_end_lower m a').
          destruct (Ho a' (or_intror Hin')); consts; lia.
      - destruct Hn as [[Hn _]|Hn]; [now left|right].
        assert (Hin' : In (rec_next m h) (t ++ h :: l2))
          by (apply in_or_app; right; now right).
        destruct (layout_in m _ a _ Hlt Hin') as [Hb' He'].
        pose proof (block_end_lower m (rec_next m h)).
        destruct (Ho _ (or_intror Hin')); consts; lia.
      - destruct (Ho h (or_intror Hin)); consts; lia. }
    repeat split.
    + rewrite (load8_agree m m3 pp) by (intros x Hx; apply Fa; lia). exact Hp.
    + unfold rec_prev in *. rewrite <- Hprev. apply load8_agree.
      intros x Hx. apply Fa. consts. lia.
    + apply (IH (a + off_le_next) a); [exact Hc|exact Hlt|].
      intros h' Hh'. right. destruct (layout_in m _ a h' Hlt Hh'). consts. lia.
Qed.

Lemma remove_spec (m : memory) (l1 l2 : list Z) (h top : Z) :
  registry m (l1 ++ h :: l2) -> layout m top (l1 ++ h :: l2) ->
  let m3 := store8 (LIST_REMOVE m h) (h + off_le_prev) 0 in
  rec_prev m h <> 0 /\ registry m3 (l1 ++ l2) /\ rec_prev m3 h = 0 /\
  changed_only m m3 0 0 (l1 ++ h :: l2) /\ rec_next m3 h = rec_next m h.
Proof.
  intros Hreg Hlay m3. unfold registry in Hreg.
  destruct (chain_links m l1 l2 h _ _ Hreg) as [Hph Hn].
  assert (Hin : In h (l1 ++ h :: l2)) by (apply in_or_app; right; now left).
  destruct (layout_in m _ top h Hlay Hin) as [Hbh Heh].
  pose proof (block_end_lower m h) as Hlowh.
  assert (Hout : forall h', In h' (l1 ++ h :: l2) ->
                   gp_listHead + 8 <= h' \/ block_end m h' <= gp_listHead).
  { intros h' Hh'. left. destruct (layout_in m _ top h' Hlay Hh'). consts. lia. }
  assert (Dp : rec_prev m h = gp_listHead \/
               exists a, In a (l1 ++ h :: l2) /\ a <> h /\ rec_prev m h = a + off_le_next).
  { destruct Hph as [[Hp _]|(a & Ha & Hp)]; [now left|right].
    exists a. split; [apply in_or_app; now left|]. split; [|exact Hp].
    intros ->. pose proof (layout_NoDup m _ top Hlay) as Hnd.
    apply NoDup_remove_2 in Hnd. apply Hnd. apply in_or_app. now left. }
  assert (Dn : rec_next m h = 0 \/ In (rec_next m h) (l1 ++ h :: l2) /\ rec_next m h <> h).
  { destruct Hn as [[Hn _]|Hn]; [now left|right].
    split; [apply in_or_app; right; now right|].
    intros E. pose proof (layout_NoDup m _ top Hlay) as Hnd.
    apply NoDup_remove_2 in Hnd. apply Hnd. apply in_or_app. right. now rewrite <- E. }
  assert (Sep : forall a, In a (l1 ++ h :: l2) -> a <> h ->
                  a + 72 <= h \/ h + 72 <= a).
  { intros a Ha Hne. pose proof (block_end_lower m a).
    destruct (layout_disjoint m _ top a h Hlay Ha Hin Hne); lia. }
  destruct (list_remove_local m h) as (L1 & L2 & L3 & F).
  { destruct Dp as [->|(a & Ha & Hne & ->)]; [consts; lia|].
    destruct (Sep a Ha Hne); consts; lia. }
  { destruct Dn as [->|[Hn' Hne]]; [now left|right].
    destruct (Sep _ Hn' Hne); consts; lia. }
  { destruct Dn as [->|[Hn' Hne]]; [now left|right].
    destruct (layout_in m _ top _ Hlay Hn') as [Hbn Hen].
    destruct Dp as [->|(a & Ha & Hna & ->)]; [consts; lia|].
    destruct (Z.eq_dec a (rec_next m h)) as [<-|Hd]; [consts; lia|].
    pose proof (block_end_lower m a). pose proof (block_end_lower m (rec_next m h)).
    destruct (layout_disjoint m _ top a _ Hlay Ha Hn' Hd); consts; lia. }
  fold m3 in L1, L2, L3, F.
  assert (Dp' : rec_prev m h + 8 <= h + off_le_next \/ h + off_ullFixedValues <= rec_prev m h).
  { destruct Dp as [->|(a & Ha & Hne & ->)]; [consts; lia|].
    destruct (Sep a Ha Hne); consts; lia. }
  split; [|split; [|split; [|split]]].
  - destruct Dp as [->|(a & Ha & _ & ->)]; [consts; lia|].
    destruct (layout_in m _ top a Hlay Ha). consts. lia.
  - unfold registry.
    exact (chain_remove_ind m m3 h l2 L1 L2 F l1 gp_listHead top Hreg Hlay Hout).
  - exact L3.
  - intros x _ Hg Hl. apply F.
    + destruct Dp as [->|(a & Ha & _ & ->)]; [exact Hg|].
      specialize (Hl a Ha). consts. lia.
    + destruct Dn as [->|[Hn' _]]; [now left|right].
      specialize (Hl _ Hn'). consts. lia.
    + specialize (Hl h Hin). consts. lia.
  - unfold rec_next. apply load8_agree. intros x Hx. apply F.
    + consts. lia.
    + destruct Dn as [E|[Hn' Hne]]; [now left|right].
      destruct (Sep _ Hn' Hne); consts; lia.
    + consts. lia.
Qed.

(** What is left of a well-formed state when one of its records has been
    taken out of the list. *)
Lemma wf_remove (st : state) (l1 l2 : list Z) (h : Z) :
  wf st (l1 ++ h :: l2) ->
  let m3 := store8 (LIST_REMOVE (mem st) h) (h + off_le_prev) 0 in
  (if load8 (mem st) (h + off_le_prev) =? 0 then mem st else m3) = m3 /\
  wf (set_mem st m3) (l1 ++ l2) /\ block_ok m3 h /\ rec_prev m3 h = 0 /\
  changed_only (mem st) m3 0 0 (l1 ++ h :: l2).
Proof.
  intros [Hinit Hreg Hlay Hok Hbrk Hlim Hcnt] m3.
  destruct (remove_spec (mem st) l1 l2 h _ Hreg Hlay) as (Hnz & R & P & C & _).
  fold m3 in R, P, C.
  assert (C' : changed_only (mem st) m3 (org_brk st) (org_brk st) (l1 ++ h :: l2)).
  { intros x _. apply C. lia. }
  pose proof (changed_only_blocks_ok _ _ _ _ _ C' Hlay Hok) as Hok'.
  assert (Hincl : incl (l1 ++ l2) (l1 ++ h :: l2)).
  { intros x Hx. apply in_app_or in Hx. apply in_or_app.
    destruct Hx; [now left|right; now right]. }
  split; [|split; [|split; [|split]]].
  - unfold rec_prev in Hnz. destruct (Z.eqb_spec (load8 (mem st) (h + off_le_prev)) 0);
      [contradiction|reflexivity].
  - constructor;
      cbn [set_mem mem gi_allocCount org_brk org_limit gp_orgRealloc_set];
      try assumption.
    + refine (changed_only_layout _ _ _ _ _ _ _ C' Hlay Hincl _).
      exact (layout_remove _ _ _ _ _ Hlay).
    + rewrite Forall_forall in *. intros x Hx. apply Hok'. now apply Hincl.
  - rewrite Forall_forall in Hok'. apply Hok'. apply in_or_app. right. now left.
  - exact P.
  - exact C.
Qed.

Lemma wf_ext (st st' : state) (l : list Z) :
  wf st l -> mem st' = mem st -> gp_orgRealloc_set st' = gp_orgRealloc_set st ->
  org_brk st' = org_brk st -> org_limit st' = org_limit st ->
  INT_MIN <= gi_allocCount st' <= INT_MAX -> wf st' l.
Proof.
  intros [Hinit Hreg Hlay Hok Hbrk Hlim Hcnt] Hm Hg Hb Hl Hc.
  constructor; rewrite ?Hm, ?Hg, ?Hb, ?Hl; assumption.
Qed.

Lemma wf_member (st : state) (l : list Z) (h : Z) :
  wf st l -> In h l ->
  block_ok (mem st) h /\ HEAP_BASE <= h /\ block_end (mem st) h <= org_brk st /\
  payload_of h <> 0 /\ wrap64 (h + sizeof_memoryHeader) = payload_of h /\ h <> 0.
Proof.
  intros [Hinit Hreg Hlay Hok Hbrk Hlim Hcnt] Hin.
  rewrite Forall_forall in Hok. pose proof (Hok h Hin) as Hb.
  destruct (layout_in _ _ _ _ Hlay Hin) as [H1 H2].
  pose proof (block_end_lower (mem st) h).
  destruct Hb as (_ & _ & He & _).
  repeat split; try assumption; try (apply Hok; assumption).
  - consts. lia.
  - unfold payload_of. apply wrap64_small. consts. lia.
  - consts. lia.
Qed.

Ltac conjs := repeat match goal with |- _ /\ _ => split end.

(** ** Release of a tracked block *)

Lemma free_tracked (st : state) (l1 l2 : list Z) (h : Z) :
  wf st (l1 ++ h :: l2) ->
  exists st',
    free st (payload_of h) = Done st' /\ wf st' (l1 ++ l2) /\
    gi_allocCount st' =
      (if gi_hookDisabled st =? 0 then wrap_int (gi_allocCount st - 1)
       else gi_allocCount st) /\
    gi_hookDisabled st' = gi_hookDisabled st /\
    org_blocks st' h = None /\
    changed_only (mem st) (mem st') 0 0 (l1 ++ h :: l2).
Proof.
  intros Hwf.
  assert (Hin : In h (l1 ++ h :: l2)) by (apply in_or_app; right; now left).
  destruct (wf_member st _ h Hwf Hin) as (Hb & _ & _ & Hnz & _ & _).
  destruct (wf_remove st l1 l2 h Hwf) as (Eif & W3 & B3 & P3 & C3).
  unfold free. destruct (Z.eqb_spec (payload_of h) 0) as [E|_]; [contradiction|].
  unfold internalFree. rewrite (verifyIntegrity_ok _ _ Hb). cbn [bind].
  rewrite Eif.
  set (m3 := store8 (LIST_REMOVE (mem st) h) (h + off_le_prev) 0) in *.
  set (st3 := org_free (set_mem st m3) h).
  assert (Hh : gi_hookDisabled st3 = gi_hookDisabled st) by reflexivity.
  assert (Ob : org_blocks st3 h = None)
    by (unfold st3, org_free, set_org, upd; cbn [org_blocks]; now rewrite Z.eqb_refl).
  rewrite Hh. destruct (Z.eqb_spec (gi_hookDisabled st) 0) as [E0|E0].
  - eexists. split; [reflexivity|].
    cbn [set_hook set_count gi_allocCount gi_hookDisabled org_blocks mem].
    conjs; try assumption; try reflexivity; try congruence.
    apply (wf_ext (set_mem st m3)); try reflexivity; [exact W3|].
    cbn [set_hook set_count gi_allocCount]. apply wrap_int_range.
  - exists st3. split; [reflexivity|]. conjs; try assumption; try reflexivity.
    apply (wf_ext (set_mem st m3)); try reflexivity; [exact W3|].
    destruct Hwf. assumption.
Qed.

(** ** Resize of a tracked block *)

Lemma detach_tracked (st : state) (l1 l2 : list Z) (h : Z) :
  wf st (l1 ++ h :: l2) ->
  detach_old st (payload_of h) =
    Done (h, set_mem st (store8 (LIST_REMOVE (mem st) h) (h + off_le_prev) 0)).
Proof.
  intros Hwf.
  assert (Hin : In h (l1 ++ h :: l2)) by (apply in_or_app; right; now left).
  destruct (wf_member st _ h Hwf Hin) as (Hb & _ & _ & Hnz & _ & _).
  destruct (wf_remove st l1 l2 h Hwf) as (Eif & _).
  unfold detach_old. destruct (Z.eqb_spec (payload_of h) 0) as [E|_]; [contradiction|].
  rewrite (verifyIntegrity_ok _ _ Hb). cbn [bind]. now rewrite Eif.
Qed.

Lemma adjSize_lower (size : Z) : 0 <= size <= MAX_PAYLOAD -> 72 <= adjSize_of size 1.
Proof.
  intros H. rewrite (adjSize_of_small size H). pose proof (pad_len_range size). lia.
Qed.

Lemma realloc_fails (st : state) (l1 l2 : list Z) (h size : Z) :
  wf st (l1 ++ h :: l2) -> 0 <= size <= MAX_PAYLOAD ->
  org_limit st < org_brk st + adjSize_of size 1 ->
  realloc st (payload_of h) size =
    Done (0, set_mem st (store8 (LIST_REMOVE (mem st) h) (h + off_le_prev) 0)).
Proof.
  intros Hwf Hsz Hfull.
  assert (Hin : In h (l1 ++ h :: l2)) by (apply in_or_app; right; now left).
  destruct (wf_member st _ h Hwf Hin) as (_ & _ & _ & _ & _ & Hnz).
  pose proof (adjSize_lower size Hsz) as Hadj.
  unfold realloc. rewrite (wf_init _ _ Hwf).
  unfold internalRealloc. rewrite (detach_tracked st l1 l2 h Hwf). cbn [bind].
  unfold org_realloc.
  destruct (Z.eqb_spec h 0) as [E|_]; [contradiction|].
  destruct (Z.eqb_spec (adjSize_of size 1) 0) as [E|_]; [lia|].
  cbn [org_brk org_limit set_mem].
  destruct (Z.leb_spec (org_brk st + adjSize_of size 1) (org_limit st)) as [?|_]; [lia|].
  reflexivity.
Qed.

Lemma realloc_tracked (st : state) (l1 l2 : list Z) (h size : Z) :
  wf st (l1 ++ h :: l2) -> 0 <= size <= MAX_PAYLOAD ->
  org_brk st + adjSize_of size 1 <= org_limit st ->
  exists st',
    realloc st (payload_of h) size = Done (payload_of (org_brk st), st') /\
    wf st' (org_brk st :: l1 ++ l2) /\
    rec_size (mem st') (org_brk st) = size /\
    rec_allocator (mem st') (org_brk st) = hook_allocator st /\
    gi_allocCount st' = gi_allocCount st /\
    gi_hookDisabled st' = gi_hookDisabled st.
Proof.
  intros Hwf Hsz Hfit.
  assert (Hin : In h (l1 ++ h :: l2)) by (apply in_or_app; right; now left).
  destruct (wf_member st _ h Hwf Hin) as (_ & _ & _ & Hpz & _ & Hnz).
  destruct (wf_remove st l1 l2 h Hwf) as (_ & W3 & _).
  pose proof (adjSize_lower size Hsz) as Hadj.
  unfold realloc. rewrite (wf_init _ _ Hwf).
  unfold internalRealloc. rewrite (detach_tracked st l1 l2 h Hwf). cbn [bind].
  set (m3 := store8 (LIST_REMOVE (mem st) h) (h + off_le_prev) 0) in *.
  unfold org_realloc.
  destruct (Z.eqb_spec h 0) as [E|_]; [contradiction|].
  destruct (Z.eqb_spec (adjSize_of size 1) 0) as [E|_]; [lia|].
  cbn [org_brk org_limit set_mem org_blocks mem].
  destruct (Z.leb_spec (org_brk st + adjSize_of size 1) (org_limit st)) as [_|?]; [|lia].
  destruct W3 as [Hinit Hreg Hlay Hok Hbrk Hlim Hcnt].
  cbn [set_mem mem org_brk org_limit gp_orgRealloc_set gi_allocCount] in *.
  pose proof (layout_base _ _ _ Hlay) as Hbase.
  destruct (Z.eqb_spec (org_brk st) 0) as [E|_]; [unfold HEAP_BASE in Hbase; lia|].
  match goal with
  | |- context [memcpy ?k m3 ?d ?s] => set (mc := memcpy k m3 d s);
      assert (Fc : forall x, x < org_brk st -> mc x = m3 x)
        by (intros x Hx; unfold mc; apply memcpy_outside; lia)
  end.
  destruct (above_preserved m3 mc (l1 ++ l2) (org_brk st) Fc Hlay) as (Rc & Lc & Oc).
  match goal with
  | |- context [trace_and_count ?s _ _] => set (st1 := s)
  end.
  destruct (record_new_block st1 (l1 ++ l2) (org_brk st) size REALLOC (payload_of h))
    as (st' & E & W & S & A & C & H & _); try assumption; try reflexivity; auto.
  exists st'. rewrite E.
  change (hook_allocator st1) with (hook_allocator st) in A.
  change (gi_hookDisabled st1) with (gi_hookDisabled st) in H.
  unfold hook_count in C. change (gi_hookDisabled st1) with (gi_hookDisabled st) in C.
  change (gi_allocCount st1) with (gi_allocCount st) in C.
  cbn [count_after_alloc] in C.
  destruct (Z.eqb_spec (payload_of h) 0) as [?|_]; [contradiction|].
  conjs; try assumption; try reflexivity.
  destruct (gi_hookDisabled st =? 0); exact C.
Qed.

(** ** The traversals of the diagnostics *)

Lemma rec_size_range (m : memory) (h : Z) : 0 <= rec_size m h < 2 ^ 64.
Proof. apply load8_range. Qed.

Lemma usage_le_real (m : memory) (l : list Z) :
  0 <= usage_of m l <= real_usage_of m l.
Proof.
  induction l as [|h t IH]; cbn [usage_of real_usage_of fold_right]; [lia|].
  fold (usage_of m t) (real_usage_of m t).
  pose proof (rec_size_range m h). consts.
  destruct (load8 m (h + 0) =? 0); lia.
Qed.

Lemma real_usage_bound (m : memory) : forall (l : list Z) (top : Z),
  layout m top l -> real_usage_of m l <= top - HEAP_BASE.
Proof.
  induction l as [|h t IH]; intros top Hl; cbn [real_usage_of fold_right].
  - cbn in Hl. lia.
  - fold (real_usage_of m t). destruct Hl as [Hh Ht]. specialize (IH h Ht).
    pose proof (pad_len_range (payload_end m h)). consts. lia.
Qed.

Section Traversal.
Variable m : memory.

Lemma step_member (h : Z) :
  block_ok m h ->
  (h =? 0) = false /\
  verifyIntegrity m (wrap64 (h + sizeof_memoryHeader)) = Done h.
Proof.
  intros Hb. pose proof Hb as (_ & Hpos & He & _).
  pose proof (block_end_lower m h).
  split; [apply Z.eqb_neq; lia|].
  replace (wrap64 (h + sizeof_memoryHeader)) with (payload_of h)
    by (unfold payload_of; rewrite wrap64_small; consts; lia).
  now apply verifyIntegrity_ok.
Qed.

Lemma usage_loop_spec : forall (l : list Z) (fuel : nat) (prevp p acc : Z),
  chain m prevp p l -> Forall (block_ok m) l -> (length l < fuel)%nat ->
  0 <= acc -> acc + usage_of m l < 2 ^ 64 ->
  usage_loop fuel m p acc = Done (acc + usage_of m l).
Proof.
  induction l as [|h t IH]; intros fuel prevp p acc Hc Hok Hf Ha Hs;
    (destruct fuel as [|f]; [cbn in Hf; lia|]); cbn [usage_loop].
  - cbn in Hc. subst p. cbn. f_equal. lia.
  - destruct Hc as (-> & _ & Hc). inversion Hok as [|? ? Hb Hok']; subst.
    destruct (step_member h Hb) as [E1 E2]. rewrite E1, E2. cbn [bind].
    cbn [usage_of fold_right] in *. fold (usage_of m t) in *.
    pose proof (usage_le_real m t) as Hu. pose proof (rec_size_range m h) as Hr.
    fold (rec_allocator m h) (rec_size m h) (rec_next m h).
    destruct (rec_allocator m h =? 0).
    + rewrite (IH f _ _ acc Hc Hok'); [f_equal; lia|cbn in Hf; lia|lia|lia].
    + rewrite wrap64_small by lia.
      rewrite (IH f _ _ _ Hc Hok'); [f_equal; lia|cbn in Hf; lia|lia|lia].
Qed.

Lemma real_usage_loop_spec : forall (l : list Z) (fuel : nat) (prevp p acc : Z),
  chain m prevp p l -> Forall (block_ok m) l -> (length l < fuel)%nat ->
  0 <= acc -> acc + real_usage_of m l < 2 ^ 64 ->
  real_usage_loop fuel m p acc = Done (acc + real_usage_of m l).
Proof.
  induction l as [|h t IH]; intros fuel prevp p acc Hc Hok Hf Ha Hs;
    (destruct fuel as [|f]; [cbn in Hf; lia|]); cbn [real_usage_loop].
  - cbn in Hc. subst p. cbn. f_equal. lia.
  - destruct Hc as (-> & _ & Hc). inversion Hok as [|? ? Hb Hok']; subst.
    destruct (step_member h Hb) as [E1 E2]. rewrite E1, E2. cbn [bind].
    cbn [real_usage_of fold_right] in *. fold (real_usage_of m t) in *.
    pose proof (usage_le_real m t) as Hu. pose proof (rec_size_range m h) as Hr.
    fold (rec_size m h) (rec_next m h).
    unfold sizeof_memoryHeader, sizeof_memoryCap in *.
    rewrite (wrap64_small (rec_size m h + 56)) by lia.
    rewrite (wrap64_small (rec_size m h + 56 + 16)) by lia.
    rewrite wrap64_small by lia.
    rewrite (IH f _ _ _ Hc Hok'); [f_equal; lia|cbn in Hf; lia|lia|lia].
Qed.

Lemma check_loop_spec : forall (l : list Z) (fuel : nat) (prevp p : Z),
  chain m prevp p l -> Forall (block_ok m) l -> (length l < fuel)%nat ->
  check_loop fuel m p = Done tt.
Proof.
  induction l as [|h t IH]; intros fuel prevp p Hc Hok Hf;
    (destruct fuel as [|f]; [cbn in Hf; lia|]); cbn [check_loop].
  - cbn in Hc. subst p. reflexivity.
  - destruct Hc as (-> & _ & Hc). inversion Hok as [|? ? Hb Hok']; subst.
    destruct (step_member h Hb) as [E1 E2]. rewrite E1, E2. cbn [bind].
    apply (IH f _ _ Hc Hok'). cbn in Hf. lia.
Qed.

(** The scan stops with an abort at the first record that fails. *)
Lemma check_loop_abort : forall (l1 : list Z) (l2 : list Z) (h : Z) (r : abort_reason)
                                (fuel : nat) (prevp p : Z),
  chain m prevp p (l1 ++ h :: l2) -> Forall (block_ok m) l1 ->
  h <> 0 -> verifyIntegrity m (wrap64 (h + sizeof_memoryHeader)) = Aborted r ->
  (length l1 < fuel)%nat ->
  check_loop fuel m p = Aborted r.
Proof.
  induction l1 as [|a t IH]; intros l2 h r fuel prevp p Hc Hok Hnz Hv Hf;
    (destruct fuel as [|f]; [cbn in Hf; lia|]); cbn [check_loop].
  - destruct Hc as (-> & _). destruct (Z.eqb_spec h 0); [contradiction|].
    now rewrite Hv.
  - destruct Hc as (-> & _ & Hc). inversion Hok as [|? ? Hb Hok']; subst.
    destruct (step_member a Hb) as [E1 E2]. rewrite E1, E2. cbn [bind].
    apply (IH l2 h r f _ _ Hc Hok' Hnz Hv). cbn in Hf. lia.
Qed.
End Traversal.

Lemma changed_only_trans (m m1 m2 : memory) (l t : list Z) :
  incl t l -> changed_only m m1 0 0 l -> changed_only m1 m2 0 0 t ->
  changed_only m m2 0 0 l.
Proof.
  intros Hi H1 H2 x Hx Hg Hl. rewrite H2; [apply H1; assumption|exact Hx|exact Hg|].
  intros h Hh. apply Hl. now apply Hi.
Qed.

Lemma ignore_loop_spec : forall (l : list Z) (fuel : nat) (m : memory) (top : Z),
  registry m l -> layout m top l -> (length l < fuel)%nat ->
  exists m',
    ignore_loop fuel m (load8 m gp_listHead) = Done m' /\
    registry m' [] /\ (forall h, In h l -> rec_prev m' h = 0) /\
    changed_only m m' 0 0 l.
Proof.
  induction l as [|h t IH]; intros fuel m top Hreg Hlay Hf;
    (destruct fuel as [|f]; [cbn in Hf; lia|]); cbn [ignore_loop].
  - unfold registry in Hreg. cbn [chain] in Hreg. rewrite Hreg. cbn [Z.eqb].
    exists m. split; [reflexivity|]. split; [exact Hreg|].
    split; [intros h []|]. intros x _ _ _. reflexivity.
  - pose proof Hreg as (Hp & _ & Hc). rewrite Hp.
    destruct (layout_in m (h :: t) top h Hlay (or_introl eq_refl)) as [Hb He].
    pose proof (block_end_lower m h) as Hlow.
    destruct (Z.eqb_spec h 0) as [E|_]; [unfold HEAP_BASE in Hb; lia|].
    destruct (remove_spec m [] t h top Hreg Hlay) as (_ & R3 & P3 & C3 & N3).
    cbn [app] in *.
    set (m3 := store8 (LIST_REMOVE m h) (h + off_le_prev) 0) in *.
    assert (C3' : changed_only m m3 top top (h :: t)) by (intros x _; apply C3; lia).
    assert (L3 : layout m3 h t).
    { refine (changed_only_layout m m3 top top (h :: t) t h C3' Hlay _ (proj2 Hlay)).
      intros x Hx. now right. }
    assert (Enext : load8 m3 (h + off_le_next) = load8 m3 gp_listHead).
    { fold (rec_next m3 h). rewrite N3. unfold registry in R3.
      destruct t as [|n t']; cbn [chain] in Hc, R3; [congruence|].
      destruct Hc as [-> _]. destruct R3 as [-> _]. reflexivity. }
    rewrite Enext.
    destruct (IH f m3 h R3 L3) as (m' & E & R' & P' & C'); [cbn in Hf; lia|].
    exists m'. split; [exact E|]. split; [exact R'|]. split.
    + intros h' [<-|Hh']; [|now apply P'].
      rewrite <- P3. unfold rec_prev. apply load8_agree. intros x Hx. apply C'.
      * lia.
      * consts. lia.
      * intros h' Hh'. destruct (layout_in m3 t h h' L3 Hh').
        pose proof (block_end_lower m3 h'). consts. lia.
    + apply (changed_only_trans m m3 m' (h :: t) t); [|exact C3|exact C'].
      intros x Hx. now right.
Qed.

(** ** A byte written past the payload *)

Lemma verifyIntegrity_bad (m : memory) (h a v : Z) :
  block_ok m h -> payload_end m h <= a < block_end m h ->
  v mod 256 <> loadb m a ->
  exists r, verifyIntegrity (storeb m a v) (payload_of h) = Aborted r.
Proof.
  intros (Hal & Hpos & Hend & Ht0 & Ht1 & Hpad & Hc0 & Hc1) Ha Hv.
  pose proof (block_end_lower m h) as Hlow.
  pose proof (rec_size_range m h) as Hsz.
  pose proof (pad_len_range (payload_end m h)) as Hpl.
  set (m' := storeb m a v).
  assert (Ha56 : h + 56 <= a) by (consts; lia).
  unfold verifyIntegrity.
  replace (wrap64 (payload_of h - sizeof_memoryHeader)) with h
    by (consts; rewrite wrap64_small; lia).
  assert (Es : load8 m' (h + off_size) = rec_size m h)
    by (unfold m', rec_size; apply load8_storeb_other; consts; lia).
  rewrite Es.
  cbn [check_guards MEM_HEADER_GUARD_LEN bind].
  replace (h + off_ullFixedValues + sizeof_ull * 0) with (h + off_ullFixedValues)
    by (consts; lia).
  replace (h + off_ullFixedValues + sizeof_ull * (0 + 1))
    with (h + off_ullFixedValues + 8) by (consts; lia).
  unfold m' at 1. rewrite load8_storeb_other by (consts; lia).
  rewrite Ht0, Z.eqb_refl.
  unfold m' at 1. rewrite load8_storeb_other by (consts; lia).
  rewrite Ht1, Z.eqb_refl. cbn [bind].
  destruct (Z_lt_ge_dec a (cap_of m h)) as [Hlt|Hge].
  - destruct (verify_pad_bad m' (payload_of h) (rec_size m h) 8 (rec_size m h) a)
      as [r Er]; try (consts; lia).
    + unfold m'. rewrite loadb_storeb_eq. rewrite <- (Hpad a) by lia. exact Hv.
    + rewrite Er. eexists. reflexivity.
  - rewrite (verify_pad_ok m' (payload_of h) _ 8 (rec_size m h)); try (consts; lia).
    2:{ intros x Hx. unfold m', loadb. rewrite storeb_neq by (consts; lia).
        apply Hpad. consts. lia. }
    cbn [bind check_guards MEM_CAP_GUARD_LEN].
    replace (wrap64 (payload_of h + (rec_size m h
              + pad_len (payload_of h + rec_size m h))))
      with (cap_of m h) by (consts; rewrite wrap64_small; lia).
    replace (cap_of m h + sizeof_ull * 0) with (cap_of m h) by (consts; lia).
    replace (cap_of m h + sizeof_ull * (0 + 1)) with (cap_of m h + 8) by (consts; lia).
    destruct (Z_lt_ge_dec a (cap_of m h + 8)) as [Hlt8|Hge8].
    + pose proof (load8_storeb_changed m a v (cap_of m h) ltac:(lia) Hv) as Hne.
      fold m' in Hne. rewrite Hc0 in Hne.
      destruct (Z.eqb_spec (load8 m' (cap_of m h)) GUARD_BAND_BOTTOM);
        [contradiction|]. eexists. reflexivity.
    + unfold m' at 1. rewrite load8_storeb_other by lia. rewrite Hc0, Z.eqb_refl.
      assert (Ha16 : cap_of m h + 8 <= a < cap_of m h + 8 + 8)
        by (unfold block_end, sizeof_memoryCap in Ha; lia).
      pose proof (load8_storeb_changed m a v (cap_of m h + 8) Ha16 Hv) as Hne.
      fold m' in Hne. rewrite Hc1 in Hne.
      destruct (Z.eqb_spec (load8 m' (cap_of m h + 8)) GUARD_BAND_BOTTOM);
        [contradiction|]. eexists. reflexivity.
Qed.

(** ** The report *)

Section Show.
Variables (m : memory) (count : Z).

Lemma address_line_eq (h : Z) :
  F_address (h + off_ullFixedValues + sizeof_ull * Z.of_nat MEM_HEADER_GUARD_LEN)
            (load8 m (h + off_size)) (load8 m (h + off_szAllocator))
  = address_line m h.
Proof.
  unfold address_line, payload_of, rec_size, rec_allocator. f_equal.
  unfold MEM_HEADER_GUARD_LEN. consts. lia.
Qed.

Lemma show_loop_pos : forall (l : list Z) (fuel : nat) (prevp p iCount : Z)
                             (out : list fprintf_call),
  chain m prevp p l -> Forall (block_ok m) l -> (length l < fuel)%nat ->
  1 <= iCount -> iCount + Z.of_nat (length l) <= INT_MAX ->
  show_loop fuel m count p iCount out
  = Done (iCount + Z.of_nat (length (shown_lines m l)), out ++ shown_lines m l).
Proof.
  induction l as [|h t IH]; intros fuel prevp p iCount out Hc Hok Hf Hi Hb;
    (destruct fuel as [|f]; [cbn in Hf; lia|]); cbn [show_loop].
  - cbn [chain] in Hc. subst p. cbn. rewrite app_nil_r. do 2 f_equal. lia.
  - destruct Hc as (-> & _ & Hc). inversion Hok as [|? ? Hbk Hok']; subst.
    destruct (step_member m h Hbk) as [E1 E2]. rewrite E1, E2. cbn [bind].
    rewrite address_line_eq. fold (rec_allocator m h) (rec_size m h) (rec_next m h).
    change (negb (rec_allocator m h =? 0) && negb (rec_size m h =? 0))
      with (shown m h).
    cbn [length] in Hb, Hf. rewrite Nat2Z.inj_succ in Hb.
    unfold shown_lines. cbn [filter].
    destruct (shown m h); cbn [map length].
    + destruct (Z.eqb_spec iCount 0) as [?|_]; [lia|].
      rewrite wrap_int_small by (unfold INT_MIN, INT_MAX in *; lia).
      rewrite (IH f _ _ _ _ Hc Hok'); try lia.
      fold (shown_lines m t). rewrite <- app_assoc. cbn [app].
      do 2 f_equal. lia.
    + rewrite (IH f _ _ _ _ Hc Hok'); try lia. reflexivity.
Qed.

Lemma show_loop_zero : forall (l : list Z) (fuel : nat) (prevp p : Z),
  chain m prevp p l -> Forall (block_ok m) l -> (length l < fuel)%nat ->
  Z.of_nat (length l) <= INT_MAX ->
  show_loop fuel m count p 0 []
  = Done (Z.of_nat (length (shown_lines m l)),
          match shown_lines m l with
          | [] => []
          | ls => show_header count ++ ls
          end).
Proof.
  induction l as [|h t IH]; intros fuel prevp p Hc Hok Hf Hb;
    (destruct fuel as [|f]; [cbn in Hf; lia|]); cbn [show_loop].
  - cbn [chain] in Hc. subst p. reflexivity.
  - destruct Hc as (-> & _ & Hc). inversion Hok as [|? ? Hbk Hok']; subst.
    destruct (step_member m h Hbk) as [E1 E2]. rewrite E1, E2. cbn [bind].
    rewrite address_line_eq. fold (rec_allocator m h) (rec_size m h) (rec_next m h).
    change (negb (rec_allocator m h =? 0) && negb (rec_size m h =? 0))
      with (shown m h).
    cbn [length] in Hb, Hf. rewrite Nat2Z.inj_succ in Hb.
    unfold shown_lines. cbn [filter].
    destruct (shown m h); cbn [map length].
    + cbn [Z.eqb app]. change (wrap_int (0 + 1)) with 1.
      rewrite (show_loop_pos t f _ _ 1 _ Hc Hok'); try lia.
      fold (shown_lines m t). rewrite <- app_assoc. cbn [app].
      do 2 f_equal. lia.
    + rewrite (IH f _ _ Hc Hok'); try lia. reflexivity.
Qed.
End Show.

Lemma mem_show_allocations_spec (st : state) (l : list Z) (fuel : nat) :
  wf st l -> (length l < fuel)%nat -> Z.of_nat (length l) <= INT_MAX ->
  mem_show_allocations fuel st = Done (show_output (gi_allocCount st) (mem st) l).
Proof.
  intros [Hinit Hreg Hlay Hok Hbrk Hlim Hcnt] Hf Hb.
  unfold mem_show_allocations.
  rewrite (show_loop_zero (mem st) (gi_allocCount st) l fuel _ _ Hreg Hok Hf Hb).
  cbn [bind]. unfold show_output.
  destruct (shown_lines (mem st) l) as [|a ls]; [reflexivity|].
  cbn [length negb]. rewrite Nat2Z.inj_succ.
  destruct (Z.eqb_spec (Z.succ (Z.of_nat (length ls))) 0) as [?|_]; [lia|].
  cbn [negb]. now rewrite <- app_assoc.
Qed.

Lemma real_usage_lt (m : memory) (l : list Z) (top : Z) :
  layout m top l -> Forall (block_ok m) l -> real_usage_of m l < 2 ^ 64.
Proof.
  intros Hl Hok. destruct l as [|h t]; [cbn; lia|].
  inversion Hok as [|? ? Hb _]; subst. destruct Hb as (_ & _ & He & _).
  assert (Hl' : layout m (block_end m h) (h :: t)) by (split; [lia|exact (proj2 Hl)]).
  pose proof (real_usage_bound m _ _ Hl'). unfold HEAP_BASE in *. lia.
Qed.

Lemma mem_get_usage_spec (st : state) (l : list Z) (fuel : nat) :
  wf st l -> (length l < fuel)%nat ->
  mem_get_usage fuel st = Done (usage_of (mem st) l).
Proof.
  intros [Hinit Hreg Hlay Hok Hbrk Hlim Hcnt] Hf.
  pose proof (usage_le_real (mem st) l). pose proof (real_usage_lt _ _ _ Hlay Hok).
  unfold mem_get_usage.
  rewrite (usage_loop_spec (mem st) l fuel _ _ 0 Hreg Hok Hf); [reflexivity|lia|lia].
Qed.

Lemma mem_get_real_usage_spec (st : state) (l : list Z) (fuel : nat) :
  wf st l -> (length l < fuel)%nat ->
  mem_get_real_usage fuel st = Done (real_usage_of (mem st) l).
Proof.
  intros [Hinit Hreg Hlay Hok Hbrk Hlim Hcnt] Hf.
  pose proof (usage_le_real (mem st) l). pose proof (real_usage_lt _ _ _ Hlay Hok).
  unfold mem_get_real_usage.
  rewrite (real_usage_loop_spec (mem st) l fuel _ _ 0 Hreg Hok Hf); [reflexivity|lia|lia].
Qed.

Lemma mem_check_integrity_spec (st : state) (l : list Z) (fuel : nat) :
  wf st l -> (length l < fuel)%nat -> mem_check_integrity fuel st = Done tt.
Proof.
  intros [Hinit Hreg Hlay Hok Hbrk Hlim Hcnt] Hf.
  exact (check_loop_spec (mem st) l fuel _ _ Hreg Hok Hf).
Qed.

(** ** Reachable states *)

Lemma wf_listed (limit : Z) : limit + 16 <= 2 ^ 64 -> wf (listed limit) [].
Proof.
  intros H. constructor; cbn [listed boot set_mem set_org_ptrs mem org_brk org_limit
    gp_orgRealloc_set gi_allocCount].
  - reflexivity.
  - unfold registry, LIST_INIT. rewrite load8_store8_small by lia. reflexivity.
  - cbn. lia.
  - constructor.
  - reflexivity.
  - exact H.
  - unfold INT_MIN, INT_MAX. lia.
Qed.

Lemma malloc_wf (st : state) (l : list Z) (size : Z) :
  wf st l -> 0 <= size <= MAX_PAYLOAD ->
  org_brk st + adjSize_of size 1 <= org_limit st ->
  returned (malloc st size) = Some (payload_of (org_brk st)) /\
  wf (state_after (malloc st size) st) (org_brk st :: l).
Proof.
  intros Hwf Hs Hf. destruct (alloc_new_spec st l size MALLOC Hwf Hs Hf) as (st' & E & W & _).
  unfold malloc. rewrite (wf_init _ _ Hwf), E. split; [reflexivity|exact W].
Qed.

Lemma init_spec (limit : Z) :
  HEAP_BASE + 72 <= limit -> limit + 16 <= 2 ^ 64 ->
  init (boot limit) = Done (started limit) /\ wf (started limit) [HEAP_BASE] /\
  gi_allocCount (started limit) = 1 /\ gi_hookDisabled (started limit) = 0 /\
  org_brk (started limit) = HEAP_BASE + 80 /\ org_limit (started limit) = limit.
Proof.
  intros H1 H2. pose proof (wf_listed limit H2) as W0.
  assert (Hs : 0 <= 0 <= MAX_PAYLOAD) by (unfold MAX_PAYLOAD; lia).
  assert (Ha : adjSize_of 0 1 = 72) by reflexivity.
  destruct (alloc_new_spec (listed limit) [] 0 MALLOC W0 Hs)
    as (st' & E & W & _ & _ & C & Hk & Ch & L & B).
  { rewrite Ha. cbn [listed boot set_mem set_org_ptrs org_brk org_limit]. lia. }
  assert (Ei : init (boot limit) = Done st').
  { change (init (boot limit))
      with ('(_, st) <- malloc (listed limit) 0 ;; Done st).
    unfold malloc. change (gp_orgRealloc_set (listed limit)) with true.
    cbv iota. rewrite E. reflexivity. }
  unfold started. rewrite Ei. cbn [state_of].
  split; [reflexivity|]. split; [exact W|]. split; [exact C|]. split; [exact Hk|].
  split; [|exact L].
  rewrite B, Ha. reflexivity.
Qed.

Lemma wf_set_hook (st : state) (l : list Z) (k : Z) : wf st l -> wf (set_hook st k) l.
Proof.
  intros W. apply (wf_ext st); try reflexivity; [exact W|exact (wf_count _ _ W)].
Qed.

(** ** Release after allocation *)

Lemma free_malloc_roundtrip (st : state) (l : list Z) (S : Z) :
  wf st l -> 0 <= S <= MAX_PAYLOAD ->
  exists p st1 st2,
    malloc st S = Done (p, st1) /\ free st1 p = Done st2 /\
    mem_get_alloc_count st2 = mem_get_alloc_count st.
Proof.
  intros Hwf Hs. unfold malloc. rewrite (wf_init _ _ Hwf).
  destruct (Z_le_gt_dec (org_brk st + adjSize_of S 1) (org_limit st)) as [Hfit|Hfull].
  - destruct (alloc_new_spec st l S MALLOC Hwf Hs Hfit)
      as (st1 & E & W & _ & _ & C & Hk & _).
    destruct (free_tracked st1 [] l (org_brk st) W) as (st2 & E2 & _ & C2 & _).
    exists (payload_of (org_brk st)), st1, st2. split; [exact E|]. split; [exact E2|].
    unfold mem_get_alloc_count. rewrite C2, Hk, C. unfold hook_count.
    destruct (gi_hookDisabled st =? 0); [|reflexivity].
    cbn [count_after_alloc]. apply wrap_int_succ_pred. exact (wf_count _ _ Hwf).
  - exists 0, st, st. split; [|split; reflexivity].
    unfold internalRealloc, detach_old, org_realloc. cbn [Z.eqb bind].
    destruct (Z.leb_spec (org_brk st + adjSize_of S 1) (org_limit st)); [lia|].
    reflexivity.
Qed.

(** ** The bounded loops never run out of fuel

    The padding loops stop within eight tests whatever the memory holds,
    so the entry points return or abort; fuel is only ever at stake in the
    traversals of the list. *)

Lemma wrap64_mod8 (z : Z) : wrap64 z mod 8 = z mod 8.
Proof.
  unfold wrap64, SIZE_MAX_P1.
  apply Z.mod_mod_divide. exists (2 ^ 61). reflexivity.
Qed.

Lemma pad_step_mod8 (ucPtr s : Z) :
  wrap64 (ucPtr + wrap64 (s + 1)) mod 8 = (wrap64 (ucPtr + s) mod 8 + 1) mod 8.
Proof.
  rewrite !wrap64_mod8.
  rewrite (Z.add_mod ucPtr (wrap64 (s + 1))), wrap64_mod8, <- Z.add_mod by lia.
  rewrite Z.add_mod_idemp_l by lia. f_equal. lia.
Qed.

Lemma pad_distance_step (r : Z) :
  0 <= r < 8 -> r <> 0 -> (8 - (r + 1) mod 8) mod 8 = (8 - r) mod 8 - 1.
Proof.
  intros Hr E.
  assert (Hc : r = 1 \/ r = 2 \/ r = 3 \/ r = 4 \/ r = 5 \/ r = 6 \/ r = 7) by lia.
  destruct Hc as [->|[->|[->|[->|[->|[->| ->]]]]]]; reflexivity.
Qed.

Lemma verify_pad_terminates (m : memory) (ucPtr size : Z) : forall (fuel : nat) (s : Z),
  (8 - wrap64 (ucPtr + s) mod 8) mod 8 < Z.of_nat fuel ->
  verify_pad fuel m ucPtr size s <> Timeout.
Proof.
  induction fuel as [|f IH]; intros s Hf.
  - pose proof (Z.mod_pos_bound (8 - wrap64 (ucPtr + s) mod 8) 8 ltac:(lia)).
    change (Z.of_nat 0) with 0 in Hf. lia.
  - rewrite Nat2Z.inj_succ in Hf. cbn [verify_pad]. unfold sizeof_ull.
    destruct (Z.eqb_spec (wrap64 (ucPtr + s) mod 8) 0) as [E|E]; [discriminate|].
    destruct (_ =? _); [|discriminate].
    apply IH. rewrite pad_step_mod8.
    pose proof (Z.mod_pos_bound (wrap64 (ucPtr + s)) 8 ltac:(lia)) as Hr.
    rewrite (pad_distance_step _ Hr E). lia.
Qed.

Lemma fill_pad_terminates (ucPtr : Z) : forall (fuel : nat) (m : memory) (s : Z),
  (8 - wrap64 (ucPtr + s) mod 8) mod 8 < Z.of_nat fuel ->
  exists m' s', fill_pad fuel m ucPtr s = Done (m', s').
Proof.
  induction fuel as [|f IH]; intros m s Hf.
  - pose proof (Z.mod_pos_bound (8 - wrap64 (ucPtr + s) mod 8) 8 ltac:(lia)).
    change (Z.of_nat 0) with 0 in Hf. lia.
  - rewrite Nat2Z.inj_succ in Hf. cbn [fill_pad]. unfold sizeof_ull.
    destruct (Z.eqb_spec (wrap64 (ucPtr + s) mod 8) 0) as [E|E]; [now exists m, s|].
    apply IH. rewrite pad_step_mod8.
    pose proof (Z.mod_pos_bound (wrap64 (ucPtr + s)) 8 ltac:(lia)) as Hr.
    rewrite (pad_distance_step _ Hr E). lia.
Qed.

Lemma check_guards_terminates (n : nat) : forall (m : memory) (w i guard : Z)
                                                 (why : Z -> abort_reason),
  check_guards n m w i guard why <> Timeout.
Proof.
  induction n as [|n IH]; intros m w i guard why; cbn [check_guards]; [discriminate|].
  destruct (_ =? _); [apply IH|discriminate].
Qed.

Lemma verifyIntegrity_terminates (m : memory) (vPtr : Z) :
  verifyIntegrity m vPtr <> Timeout.
Proof.
  unfold verifyIntegrity.
  destruct (check_guards MEM_HEADER_GUARD_LEN _ _ _ _ _) eqn:E1; cbn [bind];
    [|discriminate|now apply check_guards_terminates in E1].
  destruct (verify_pad 8 _ _ _ _) eqn:E2; cbn [bind]; [|discriminate|].
  - destruct (check_guards MEM_CAP_GUARD_LEN _ _ _ _ _) eqn:E3; cbn [bind];
      [discriminate|discriminate|now apply check_guards_terminates in E3].
  - apply verify_pad_terminates in E2; [contradiction|].
    pose proof (Z.mod_pos_bound (8 - wrap64 (vPtr + load8 m
      (wrap64 (vPtr - sizeof_memoryHeader) + off_size)) mod 8) 8 ltac:(lia)).
    change (Z.of_nat 8) with 8. lia.
Qed.

Lemma build_record_terminates (st : state) (mHead size nmemb szCaller : Z) :
  exists p st', build_record st mHead size nmemb szCaller = Done (p, st').
Proof.
  unfold build_record.
  match goal with
  | |- context [fill_pad 8 ?m ?u ?s] =>
      destruct (fill_pad_terminates u 8 m s) as (m' & s' & E)
  end.
  - match goal with
    | |- (8 - ?r mod 8) mod 8 < _ =>
        pose proof (Z.mod_pos_bound (8 - r mod 8) 8 ltac:(lia))
    end. change (Z.of_nat 8) with 8. lia.
  - rewrite E. cbn [bind]. eexists. eexists. reflexivity.
Qed.

Lemma internalRealloc_terminates (st : state) (vPtr size nmemb : Z) (type : alloc_type) :
  internalRealloc st vPtr size nmemb type <> Timeout.
Proof.
  unfold internalRealloc, detach_old.
  destruct (vPtr =? 0); cbn [bind].
  - destruct (org_realloc st 0 _) as [mHead st1].
    destruct (mHead =? 0); [discriminate|].
    destruct (trace_and_count st1 type vPtr) as [szCaller st2].
    destruct (build_record_terminates st2 mHead size nmemb szCaller) as (p & st' & E).
    rewrite E. discriminate.
  - destruct (verifyIntegrity (mem st) vPtr) as [h|r|] eqn:Ev; cbn [bind];
      [|discriminate|now apply verifyIntegrity_terminates in Ev].
    destruct (org_realloc _ h _) as [mHead st1].
    destruct (mHead =? 0); [discriminate|].
    destruct (trace_and_count st1 type vPtr) as [szCaller st2].
    destruct (build_record_terminates st2 mHead size nmemb szCaller) as (p & st' & E).
    rewrite E. discriminate.
Qed.

(** The three entry points return or abort. *)
Lemma entry_points_terminate (st : state) (vPtr size : Z) :
  malloc st size <> Timeout /\ realloc st vPtr size <> Timeout /\
  free st vPtr <> Timeout.
Proof.
  split; [|split].
  - unfold malloc. destruct (gp_orgRealloc_set st);
      [apply internalRealloc_terminates|].
    unfold internalStaticAlloc. destruct (_ >=? _); discriminate.
  - unfold realloc. destruct (gp_orgRealloc_set st);
      [apply internalRealloc_terminates|discriminate].
  - unfold free. destruct (vPtr =? 0); [discriminate|].
    unfold internalFree.
    destruct (verifyIntegrity (mem st) vPtr) as [h|r|] eqn:Ev; cbn [bind];
      [|discriminate|now apply verifyIntegrity_terminates in Ev].
    destruct (gi_hookDisabled _ =? 0); discriminate.
Qed.

(** * The claims *)

(** ** Exhaustion of the underlying allocator *)

Lemma internalRealloc_exhausted (st : state) (size nmemb : Z) (type : alloc_type) :
  org_limit st < org_brk st + adjSize_of size nmemb ->
  internalRealloc st 0 size nmemb type = Done (0, st).
Proof.
  intros H. unfold internalRealloc, detach_old, org_realloc. cbn [Z.eqb bind].
  destruct (Z.leb_spec (org_brk st + adjSize_of size nmemb) (org_limit st)); [lia|].
  reflexivity.
Qed.

(** C1, counterexample.  The process has been initialised and its arena is
    full; [malloc (8)] does not abort, it returns NULL to the caller. *)
Lemma malloc_exhausted_does_not_abort :
  let st := started (HEAP_BASE + 80) in
  org_limit st < org_brk st + adjSize_of 8 1 /\
  completes (malloc st 8) = true /\ returned (malloc st 8) = Some 0.
Proof. vm_compute. repeat split; reflexivity. Qed.

(** C1, as the code has it.  When the underlying allocator cannot satisfy
    the request, [malloc] returns NULL to the caller and leaves the whole
    state as it was: nothing aborts. *)
Theorem malloc_exhausted_returns_null (st : state) (size : Z) :
  gp_orgRealloc_set st = true ->
  org_limit st < org_brk st + adjSize_of size 1 ->
  malloc st size = Done (0, st).
Proof.
  intros Hi H. unfold malloc. rewrite Hi. now apply internalRealloc_exhausted.
Qed.

(** On a run: right after [init] in an arena of 80 bytes, [malloc (8)]. *)
Lemma malloc_exhausted_returns_null_witness :
  gp_orgRealloc_set (started (HEAP_BASE + 80)) = true /\
  org_limit (started (HEAP_BASE + 80))
    < org_brk (started (HEAP_BASE + 80)) + adjSize_of 8 1 /\
  malloc (started (HEAP_BASE + 80)) 8 = Done (0, started (HEAP_BASE + 80)).
Proof.
  split; [vm_compute; reflexivity|]. split; [vm_compute; reflexivity|].
  apply (malloc_exhausted_returns_null (started (HEAP_BASE + 80)) 8);
    vm_compute; reflexivity.
Defined.

(** ** Release after allocation *)

(** C3, at the failing input.  [malloc (SIZE_MAX)] does not fail: [adjSize]
    wraps to 72, the underlying allocator returns a block of 72 bytes, and
    the padding fill, which starts at [ucPtr + SIZE_MAX], that is one byte
    below the payload, overwrites the last byte of the second head guard.
    [free] of the returned pointer then aborts on that guard. *)
Theorem free_malloc_size_max_aborts :
  let st := started (HEAP_BASE + 4096) in
  returned (malloc st (2 ^ 64 - 1)) = Some (HEAP_BASE + 136) /\
  free (state_after (malloc st (2 ^ 64 - 1)) st) (HEAP_BASE + 136)
  = Aborted (TopGuardCorrupt 1).
Proof. vm_compute. split; reflexivity. Qed.

(** ** Resize *)

Lemma realloc_null_is_malloc (st : state) (S : Z) :
  gp_orgRealloc_set st = true -> realloc st 0 S = malloc st S.
Proof.
  intros Hi. unfold realloc, malloc. rewrite Hi. reflexivity.
Qed.

(** ** Corruption detection *)

(** The state after [init] and one [malloc (S)]: two records, the second
    block 80 bytes above the first. *)
Lemma wf_after_malloc (S : Z) :
  0 <= S <= 1024 ->
  returned (malloc (started arena) S) = Some (payload_of (nth_header 1)) /\
  wf (after_malloc S) [nth_header 1; nth_header 0] /\
  gi_hookDisabled (after_malloc S) = 0.
Proof.
  intros HS.
  destruct (init_spec arena) as (_ & W & _ & Hk & B & L);
    [unfold arena, HEAP_BASE; lia|unfold arena, HEAP_BASE; lia|].
  assert (Hs : 0 <= S <= MAX_PAYLOAD) by (unfold MAX_PAYLOAD; lia).
  assert (Hfit : org_brk (started arena) + adjSize_of S 1 <= org_limit (started arena)).
  { rewrite B, L, (adjSize_of_small S Hs). pose proof (pad_len_range S).
    unfold arena. lia. }
  destruct (alloc_new_spec (started arena) _ S MALLOC W Hs Hfit)
    as (st' & E & W' & _ & _ & _ & Hk' & _).
  unfold after_malloc, malloc. rewrite (wf_init _ _ W), E. cbn [returned state_after].
  rewrite B in *.
  split; [reflexivity|]. split; [exact W'|]. congruence.
Qed.

(** C2, counterexample.  A byte written just past the payload with the
    value that is there already goes unnoticed: after [malloc (3)] the byte
    at offset 3 is a padding byte and holds the low byte of its address,
    after [malloc (8)] the byte at offset 8 is the first byte of the cap,
    0xDE.  [free] and [mem_check_integrity] both complete. *)
Lemma same_byte_goes_unnoticed :
  let p := payload_of (nth_header 1) in
  completes (free (poke (after_malloc 3) (p + 3) ((p + 3) mod 256)) p) = true /\
  mem_check_integrity 3 (poke (after_malloc 3) (p + 3) ((p + 3) mod 256)) = Done tt /\
  completes (free (poke (after_malloc 8) (p + 8) 0xDE) p) = true /\
  mem_check_integrity 3 (poke (after_malloc 8) (p + 8) 0xDE) = Done tt.
Proof. vm_compute. repeat split; reflexivity. Qed.

(** C2, as the code has it.  For a tracked block, a byte written at any
    offset from the end of the payload to the end of the cap, with a value
    other than the one the byte holds, makes the next [free] of that
    pointer and the next [mem_check_integrity] abort. *)
Theorem overrun_detected (st : state) (l : list Z) (h k v : Z) :
  wf st l -> In h l ->
  rec_size (mem st) h <= k -> payload_of h + k < block_end (mem st) h ->
  0 <= v < 256 -> v <> loadb (mem st) (payload_of h + k) ->
  (exists r, free (poke st (payload_of h + k) v) (payload_of h) = Aborted r) /\
  (forall fuel, (length l < fuel)%nat ->
     exists r, mem_check_integrity fuel (poke st (payload_of h + k) v) = Aborted r).
Proof.
  intros Hwf Hin Hk1 Hk2 Hv Hne.
  destruct (wf_member st l h Hwf Hin) as (Hb & Hbase & Hend & Hpz & Hw & Hnz).
  set (a := payload_of h + k) in *.
  assert (Ha : payload_end (mem st) h <= a < block_end (mem st) h)
    by (unfold payload_end, a; lia).
  assert (Hv' : v mod 256 <> loadb (mem st) a) by (rewrite Z.mod_small; lia).
  destruct (verifyIntegrity_bad (mem st) h a v Hb Ha Hv') as [r Er].
  pose proof (block_end_lower (mem st) h) as Hlow.
  pose proof (rec_size_range (mem st) h) as Hsz.
  split.
  - exists r. unfold free. destruct (Z.eqb_spec (payload_of h) 0); [contradiction|].
    unfold internalFree. cbn [poke set_mem mem]. now rewrite Er.
  - intros fuel Hf. exists r.
    destruct (in_split h l Hin) as (l1 & l2 & ->).
    destruct Hwf as [Hinit Hreg Hlay Hok Hbrk Hlim Hcnt].
    pose proof (layout_NoDup _ _ _ Hlay) as Hnd.
    assert (Hother : forall h' x, In h' (l1 ++ h :: l2) -> h' <> h ->
                       h' <= x < block_end (mem st) h' -> x <> a).
    { intros h' x Hh' Hd Hx.
      destruct (layout_disjoint _ _ _ h' h Hlay Hh' Hin Hd); unfold payload_end in Ha;
        consts; lia. }
    assert (Hlinks : same_links (mem st) (storeb (mem st) a v) (l1 ++ h :: l2)).
    { intros h' x Hh' Hx. apply storeb_neq.
      destruct (Z.eq_dec h' h) as [->|Hd].
      - unfold payload_end in Ha. consts. lia.
      - apply (Hother h' x Hh' Hd). pose proof (block_end_lower (mem st) h').
        consts. lia. }
    unfold mem_check_integrity. cbn [poke set_mem mem].
    apply (check_loop_abort _ l1 l2 h r fuel gp_listHead).
    + apply (registry_same (mem st)); [exact Hlinks| |exact Hreg].
      intros x Hx. apply storeb_neq. unfold payload_end in Ha. consts. lia.
    + rewrite Forall_forall in *. intros h' Hh'.
      assert (Hh'' : In h' (l1 ++ h :: l2)) by (apply in_or_app; now left).
      apply (block_ok_same (mem st)); [|exact (Hok h' Hh'')].
      intros x Hx. apply storeb_neq. apply (Hother h' x Hh'').
      * intros ->. apply NoDup_remove_2 in Hnd. apply Hnd. apply in_or_app. now left.
      * pose proof (block_end_lower (mem st) h'). consts. lia.
    + exact Hnz.
    + rewrite Hw. exact Er.
    + rewrite length_app in Hf. cbn in Hf. lia.
Qed.

(** On a run: [init], [malloc (3)], then a zero written at offset 3, the
    first padding byte. *)
Lemma overrun_detected_witness :
  (exists r, free (poke (after_malloc 3) (payload_of (nth_header 1) + 3) 0)
                  (payload_of (nth_header 1)) = Aborted r) /\
  (forall fuel, (2 < fuel)%nat ->
     exists r, mem_check_integrity fuel
                 (poke (after_malloc 3) (payload_of (nth_header 1) + 3) 0)
               = Aborted r).
Proof.
  destruct (wf_after_malloc 3 ltac:(lia)) as (_ & W & _).
  refine (overrun_detected (after_malloc 3) _ (nth_header 1) 3 0 W _ _ _ _ _).
  - now left.
  - vm_compute. discriminate.
  - vm_compute. reflexivity.
  - lia.
  - vm_compute. discriminate.
Defined.

(** ** Usage accounting *)






(** C5.  For every size, [realloc (NULL, S)] is [malloc (S)]: the same
    result and the same state, so the same block and the same count.  For a
    tracked pointer, [realloc (p, 0)], when the underlying allocator grants
    the 72 bytes of header and cap, returns a block that is not NULL, is
    linked in the list in place of [p], has size zero and intact guards,
    and can be released with [free]; the count is the one before the
    call. *)
Theorem resize_semantics :
  (forall (st : state) (S : Z),
     gp_orgRealloc_set st = true -> realloc st 0 S = malloc st S) /\
  (forall (st : state) (l1 l2 : list Z) (h : Z),
     wf st (l1 ++ h :: l2) ->
     org_brk st + adjSize_of 0 1 <= org_limit st ->
     exists q st',
       realloc st (payload_of h) 0 = Done (q, st') /\ q <> 0 /\
       q = payload_of (org_brk st) /\
       wf st' (org_brk st :: l1 ++ l2) /\
       rec_size (mem st') (org_brk st) = 0 /\
       verifyIntegrity (mem st') q = Done (org_brk st) /\
       mem_get_alloc_count st' = mem_get_alloc_count st /\
       exists st'', free st' q = Done st'').
Proof.
  split; [exact realloc_null_is_malloc|].
  intros st l1 l2 h Hwf Hfit.
  assert (Hs : 0 <= 0 <= MAX_PAYLOAD) by (unfold MAX_PAYLOAD; lia).
  destruct (realloc_tracked st l1 l2 h 0 Hwf Hs Hfit) as (st' & E & W & S & _ & C & _).
  destruct (wf_member st' _ (org_brk st) W (or_introl eq_refl))
    as (Hb & _ & _ & Hpz & _ & _).
  exists (payload_of (org_brk st)), st'.
  split; [exact E|]. split; [exact Hpz|]. split; [reflexivity|]. split; [exact W|].
  split; [exact S|]. split; [now apply verifyIntegrity_ok|]. split; [exact C|].
  destruct (free_tracked st' [] (l1 ++ l2) (org_brk st) W) as (st'' & E'' & _).
  now exists st''.
Qed.

(** On a run: [init], [malloc (3)], then [realloc (NULL, 5)] against
    [malloc (5)], and [realloc (p, 0)] of the block of 3 bytes. *)
Lemma resize_semantics_witness :
  realloc (after_malloc 3) 0 5 = malloc (after_malloc 3) 5 /\
  exists q st',
    realloc (after_malloc 3) (payload_of (nth_header 1)) 0 = Done (q, st') /\
    q <> 0 /\ rec_size (mem st') (nth_header 2) = 0 /\
    mem_get_alloc_count st' = mem_get_alloc_count (after_malloc 3).
Proof.
  destruct (wf_after_malloc 3 ltac:(lia)) as (_ & W & _).
  destruct resize_semantics as [A B]. split.
  - apply A. exact (wf_init _ _ W).
  - destruct (B (after_malloc 3) [] [nth_header 0] (nth_header 1) W) as
      (q & st' & E & Hq & _ & _ & Hs & _ & Hc & _).
    + vm_compute. discriminate.
    + exists q, st'. split; [exact E|]. split; [exact Hq|]. split; [|exact Hc].
      replace (nth_header 2) with (org_brk (after_malloc 3)); [exact Hs|].
      vm_compute. reflexivity.
Defined.

(** ** Blocks that are not in the list *)

Lemma free_detached (st : state) (h : Z) :
  block_ok (mem st) h -> rec_prev (mem st) h = 0 ->
  exists st',
    free st (payload_of h) = Done st' /\
    gi_allocCount st' =
      (if gi_hookDisabled st =? 0 then wrap_int (gi_allocCount st - 1)
       else gi_allocCount st) /\
    mem st' = mem st /\ org_blocks st' h = None.
Proof.
  intros Hb Hp. pose proof Hb as (_ & Hpos & _).
  unfold free. destruct (Z.eqb_spec (payload_of h) 0) as [E|_]; [consts; lia|].
  unfold internalFree. rewrite (verifyIntegrity_ok _ _ Hb). cbn [bind].
  unfold rec_prev in Hp. rewrite Hp. cbn [Z.eqb].
  assert (Ob : forall s, org_blocks (org_free s h) h = None)
    by (intros s; unfold org_free, set_org, upd; cbn [org_blocks]; now rewrite Z.eqb_refl).
  change (gi_hookDisabled (org_free (set_mem st (mem st)) h)) with (gi_hookDisabled st).
  destruct (gi_hookDisabled st =? 0); eexists; (split; [reflexivity|]);
    cbn [set_hook set_count gi_allocCount mem org_blocks]; conjs;
    first [reflexivity | apply Ob].
Qed.

Lemma show_nothing_listed (st : state) (fuel : nat) :
  registry (mem st) [] -> (0 < fuel)%nat ->
  mem_show_allocations fuel st = Done [F_no_allocations].
Proof.
  intros Hr Hf. unfold registry in Hr. cbn [chain] in Hr.
  unfold mem_show_allocations. destruct fuel as [|f]; [lia|].
  cbn [show_loop]. rewrite Hr. reflexivity.
Qed.

(** C6.  [mem_ignore_current_allocations] leaves a count of zero and an
    empty list, so [mem_show_allocations] writes the no-allocations message
    and nothing else.  Every block that was tracked keeps its size field,
    guards, payload, padding and cap byte for byte, still passes
    [verifyIntegrity], is still held by the underlying allocator, and can be
    released with [free]. *)
Theorem ignored_blocks_stay_valid (st : state) (l : list Z) (fuel : nat) :
  wf st l -> (length l < fuel)%nat ->
  exists st',
    mem_ignore_current_allocations fuel st = Done st' /\
    mem_get_alloc_count st' = 0 /\
    (forall fuel', (0 < fuel')%nat ->
       mem_show_allocations fuel' st' = Done [F_no_allocations]) /\
    (forall h, In h l ->
       verifyIntegrity (mem st') (payload_of h) = Done h /\
       (forall x, payload_of h <= x < block_end (mem st) h ->
                  mem st' x = mem st x) /\
       rec_size (mem st') h = rec_size (mem st) h /\
       org_blocks st' h = org_blocks st h /\
       exists st'', free st' (payload_of h) = Done st'').
Proof.
  intros Hwf Hf. pose proof Hwf as [Hinit Hreg Hlay Hok Hbrk Hlim Hcnt].
  destruct (ignore_loop_spec l fuel (mem st) _ Hreg Hlay Hf) as (m' & E & R & P & C).
  assert (C' : changed_only (mem st) m' (org_brk st) (org_brk st) l)
    by (intros x _; apply C; lia).
  pose proof (changed_only_blocks_ok _ _ _ _ _ C' Hlay Hok) as Hok'.
  exists (set_count (set_mem st m') 0).
  unfold mem_ignore_current_allocations. rewrite E. cbn [bind].
  split; [reflexivity|]. split; [reflexivity|]. split.
  - intros fuel' Hf'. now apply show_nothing_listed.
  - intros h Hh. rewrite Forall_forall in Hok'. pose proof (Hok' h Hh) as Hb.
    destruct (changed_only_block _ _ _ _ _ h C' Hlay Hh) as (Sb & _ & K).
    cbn [set_count set_mem mem org_blocks].
    split; [now apply verifyIntegrity_ok|]. split.
    + intros x Hx. apply K. consts. lia.
    + split; [now apply same_block_size|]. split; [reflexivity|].
      destruct (free_detached (set_count (set_mem st m') 0) h Hb (P h Hh))
        as (st'' & E'' & _). now exists st''.
Qed.

(** On a run: [init], [malloc (3)], [mem_ignore_current_allocations]. *)
Lemma ignored_blocks_stay_valid_witness :
  exists st',
    mem_ignore_current_allocations 3 (after_malloc 3) = Done st' /\
    mem_get_alloc_count st' = 0 /\
    mem_show_allocations 1 st' = Done [F_no_allocations] /\
    verifyIntegrity (mem st') (payload_of (nth_header 1)) = Done (nth_header 1).
Proof.
  destruct (wf_after_malloc 3 ltac:(lia)) as (_ & W & _).
  destruct (ignored_blocks_stay_valid (after_malloc 3) _ 3 W)
    as (st' & E & C & Sh & V).
  - cbn. lia.
  - exists st'. split; [exact E|]. split; [exact C|]. split; [apply Sh; lia|].
    apply (V (nth_header 1)). now left.
Defined.

(** C9.  After [mem_ignore_current_allocations], [free] of a block that
    was tracked finds [le_prev] NULL, skips [LIST_REMOVE], and still runs
    [gi_allocCount--]: the count goes from 0 to -1. *)
Theorem count_negative_after_ignore (st : state) (l : list Z) (h : Z) (fuel : nat) :
  wf st l -> In h l -> gi_hookDisabled st = 0 -> (length l < fuel)%nat ->
  exists st1 st2,
    mem_ignore_current_allocations fuel st = Done st1 /\
    free st1 (payload_of h) = Done st2 /\
    mem_get_alloc_count st1 = 0 /\ mem_get_alloc_count st2 = -1.
Proof.
  intros Hwf Hh Hk Hf. pose proof Hwf as [Hinit Hreg Hlay Hok Hbrk Hlim Hcnt].
  destruct (ignore_loop_spec l fuel (mem st) _ Hreg Hlay Hf) as (m' & E & R & P & C).
  assert (C' : changed_only (mem st) m' (org_brk st) (org_brk st) l)
    by (intros x _; apply C; lia).
  pose proof (changed_only_blocks_ok _ _ _ _ _ C' Hlay Hok) as Hok'.
  rewrite Forall_forall in Hok'.
  destruct (free_detached (set_count (set_mem st m') 0) h (Hok' h Hh) (P h Hh))
    as (st2 & E2 & C2 & _).
  exists (set_count (set_mem st m') 0), st2.
  unfold mem_ignore_current_allocations. rewrite E. cbn [bind].
  split; [reflexivity|]. split; [exact E2|]. split; [reflexivity|].
  unfold mem_get_alloc_count. rewrite C2.
  cbn [set_count set_mem gi_hookDisabled gi_allocCount]. rewrite Hk. reflexivity.
Qed.

(** On a run: [init], [malloc (3)], [mem_ignore_current_allocations], then
    [free] of the block of 3 bytes. *)
Lemma count_negative_after_ignore_witness :
  exists st1 st2,
    mem_ignore_current_allocations 3 (after_malloc 3) = Done st1 /\
    free st1 (payload_of (nth_header 1)) = Done st2 /\
    mem_get_alloc_count st1 = 0 /\ mem_get_alloc_count st2 = -1.
Proof.
  destruct (wf_after_malloc 3 ltac:(lia)) as (_ & W & K).
  apply (count_negative_after_ignore (after_malloc 3) _ (nth_header 1) 3 W).
  - now left.
  - exact K.
  - cbn. lia.
Defined.

(** ** The report of [mem_show_allocations] *)

Lemma no_message_in_header (count : Z) : ~ In F_no_allocations (show_header count).
Proof.
  unfold show_header. intros H. apply in_app_or in H as [H|H].
  - destruct H as [H|[H|[]]]; discriminate.
  - apply in_app_or in H as [H|H].
    + apply repeat_spec in H. discriminate.
    + destruct H as [H|[]]. discriminate.
Qed.

Lemma shown_lines_in (m : memory) (l : list Z) (x : fprintf_call) :
  In x (shown_lines m l) <->
  exists h, In h l /\ shown m h = true /\ x = address_line m h.
Proof.
  unfold shown_lines. rewrite in_map_iff. split.
  - intros (h & <- & Hh). apply filter_In in Hh as [H1 H2]. now exists h.
  - intros (h & H1 & H2 & ->). exists h. split; [reflexivity|].
    apply filter_In. now split.
Qed.

Lemma show_output_message (count : Z) (m : memory) (l : list Z) :
  In F_no_allocations (show_output count m l) <->
  (forall h, In h l -> shown m h = false).
Proof.
  unfold show_output. destruct (shown_lines m l) as [|x ls] eqn:E.
  - split; [|intros _; now left]. intros _ h Hh.
    destruct (shown m h) eqn:Es; [|reflexivity].
    assert (Hin : In (address_line m h) (shown_lines m l))
      by (apply shown_lines_in; now exists h).
    rewrite E in Hin. destruct Hin.
  - assert (Hx : In x (shown_lines m l)) by (rewrite E; now left).
    apply shown_lines_in in Hx as (h & Hh & Hs & _). split.
    + intros H. exfalso. apply in_app_or in H as [H|H].
      * exact (no_message_in_header count H).
      * apply in_app_or in H as [H|H].
        -- rewrite <- E in H. apply shown_lines_in in H as (h' & _ & _ & Hd).
           discriminate.
        -- destruct H as [H|[]]. discriminate.
    + intros H. rewrite (H h Hh) in Hs. discriminate.
Qed.

Lemma show_output_line (count : Z) (m : memory) (l : list Z) (x : fprintf_call) :
  In x (shown_lines m l) -> In x (show_output count m l).
Proof.
  intros H. unfold show_output. destruct (shown_lines m l) as [|y ls] eqn:E; [destruct H|].
  apply in_or_app. right. apply in_or_app. now left.
Qed.

Lemma show_output_address (count : Z) (m : memory) (l : list Z) (a s z : Z) :
  In (F_address a s z) (show_output count m l) -> In (F_address a s z) (shown_lines m l).
Proof.
  unfold show_output. destruct (shown_lines m l) as [|y ls] eqn:E.
  - intros [H|[]]. discriminate.
  - intros H. apply in_app_or in H as [H|H].
    + exfalso. unfold show_header in H. apply in_app_or in H as [H|H].
      * destruct H as [H|[H|[]]]; discriminate.
      * apply in_app_or in H as [H|H].
        -- apply repeat_spec in H. discriminate.
        -- destruct H as [H|[]]. discriminate.
    + apply in_app_or in H as [H|H]; [exact H|]. destruct H as [H|[]]. discriminate.
Qed.

(** C7, counterexample.  Right after [init] one allocation is tracked, the
    [malloc (0)] of [init] itself: the list holds its header, its size is
    zero, the count is 1.  [mem_show_allocations] writes no line for it and
    writes the no-allocations message. *)
Lemma zero_size_block_not_reported :
  let st := started arena in
  load8 (mem st) gp_listHead = nth_header 0 /\
  rec_size (mem st) (nth_header 0) = 0 /\
  rec_allocator (mem st) (nth_header 0) = szEmpty /\
  mem_get_alloc_count st = 1 /\
  mem_show_allocations 2 st = Done [F_no_allocations].
Proof. vm_compute. repeat split; reflexivity. Qed.

(** C7, as the code has it.  [mem_show_allocations] writes a line
    (address, size, attribution) for every tracked record whose attribution
    is not NULL and whose size is not zero.  A tracked record of size zero,
    or with a NULL attribution, gets no line, and every line written is
    the line of a tracked record with an attribution and a size other than
    zero.  The no-allocations message is written exactly when no tracked
    record has both. *)
Theorem show_allocations_report (st : state) (l : list Z) (fuel : nat) :
  wf st l -> (length l < fuel)%nat -> Z.of_nat (length l) <= INT_MAX ->
  exists out,
    mem_show_allocations fuel st = Done out /\
    (forall h, In h l ->
       rec_allocator (mem st) h <> 0 -> rec_size (mem st) h <> 0 ->
       In (F_address (payload_of h) (rec_size (mem st) h) (rec_allocator (mem st) h))
          out) /\
    (forall h, In h l ->
       rec_allocator (mem st) h = 0 \/ rec_size (mem st) h = 0 ->
       forall s z, ~ In (F_address (payload_of h) s z) out) /\
    (forall a s z, In (F_address a s z) out ->
       exists h, In h l /\
         rec_allocator (mem st) h <> 0 /\ rec_size (mem st) h <> 0 /\
         a = payload_of h /\ s = rec_size (mem st) h /\
         z = rec_allocator (mem st) h) /\
    (In F_no_allocations out <->
     forall h, In h l -> rec_allocator (mem st) h = 0 \/ rec_size (mem st) h = 0).
Proof.
  intros Hwf Hf Hb. exists (show_output (gi_allocCount st) (mem st) l).
  split; [now apply mem_show_allocations_spec|]. split; [|split; [|split]].
  - intros h Hh Ha Hs. apply show_output_line. apply shown_lines_in.
    exists h. split; [exact Hh|]. split; [|reflexivity].
    unfold shown. apply Z.eqb_neq in Ha, Hs. now rewrite Ha, Hs.
  - intros h Hh Hz s z H.
    apply show_output_address, shown_lines_in in H as (h' & _ & Hs' & E).
    unfold address_line in E. injection E as E _ _.
    assert (Eh : h' = h) by (unfold payload_of in E; lia). subst h'.
    unfold shown in Hs'. destruct Hz as [Hz|Hz]; rewrite Hz in Hs'; cbn in Hs';
      [discriminate|rewrite andb_false_r in Hs'; discriminate].
  - intros a s z H.
    apply show_output_address, shown_lines_in in H as (h & Hh & Hs & E).
    exists h. unfold shown in Hs. apply andb_true_iff in Hs as [H1 H2].
    apply negb_true_iff, Z.eqb_neq in H1. apply negb_true_iff, Z.eqb_neq in H2.
    unfold address_line in E. injection E as -> -> ->. auto 6.
  - rewrite show_output_message. split; intros H h Hh; specialize (H h Hh).
    + unfold shown in H. apply andb_false_iff in H as [H|H];
        apply negb_false_iff, Z.eqb_eq in H; auto.
    + unfold shown. destruct H as [-> | ->]; cbn; [reflexivity|apply andb_false_r].
Qed.

(** On a run: [init], [malloc (3)]; the report has the line of the block of
    3 bytes, no line for the block of size zero that [init] allocated, and
    no no-allocations message. *)
Lemma show_allocations_report_witness :
  exists out,
    mem_show_allocations 3 (after_malloc 3) = Done out /\
    In (F_address (payload_of (nth_header 1)) 3 szEmpty) out /\
    (forall s z, ~ In (F_address (payload_of (nth_header 0)) s z) out) /\
    ~ In F_no_allocations out.
Proof.
  destruct (wf_after_malloc 3 ltac:(lia)) as (_ & W & _).
  destruct (show_allocations_report (after_malloc 3) _ 3 W) as (out & E & L & N & _ & M).
  - cbn. lia.
  - cbn. unfold INT_MAX. lia.
  - exists out. split; [exact E|]. split; [|split].
    + specialize (L (nth_header 1) (or_introl eq_refl)).
      assert (Es : rec_size (mem (after_malloc 3)) (nth_header 1) = 3)
        by (vm_compute; reflexivity).
      assert (Ea : rec_allocator (mem (after_malloc 3)) (nth_header 1) = szEmpty)
        by (vm_compute; reflexivity).
      rewrite Es, Ea in L. apply L; [unfold szEmpty|]; lia.
    + apply (N (nth_header 0) (or_intror (or_introl eq_refl))).
      right. vm_compute. reflexivity.
    + intros H. pose proof (proj1 M H (nth_header 1) (or_introl eq_refl)) as H'.
      destruct H' as [H'|H']; vm_compute in H'; discriminate.
Defined.

(** ** Failure of the underlying allocator during a resize *)

(** C8, counterexample.  The arena is full and [realloc (p, 100)] returns
    NULL.  The count was 2 before the call and is 2 after it: the count
    still includes the block, while the list and the report no longer do. *)
Lemma count_kept_after_failed_realloc :
  let st := state_after (malloc (started (HEAP_BASE + 160)) 8)
                        (started (HEAP_BASE + 160)) in
  let p := payload_of (nth_header 1) in
  returned (malloc (started (HEAP_BASE + 160)) 8) = Some p /\
  mem_get_alloc_count st = 2 /\
  mem_show_allocations 3 st
  = Done (show_header 2 ++ [F_address p 8 szEmpty; F_newline]) /\
  returned (realloc st p 100) = Some 0 /\
  mem_get_alloc_count (state_after (realloc st p 100) st) = 2 /\
  mem_show_allocations 3 (state_after (realloc st p 100) st)
  = Done [F_no_allocations].
Proof. vm_compute. repeat split; reflexivity. Qed.

(** C8, as the code has it.  When the underlying allocator fails during
    [realloc] of a tracked pointer, the call returns NULL after the record
    has been taken out of the list: the list, the report, and the usage
    figures no longer include the block, its header is marked as unlinked,
    its storage is intact and still held by the underlying allocator.
    [gi_allocCount] is not touched and still counts the block. *)
Theorem failed_realloc_untracks (st : state) (l1 l2 : list Z) (h size : Z) (fuel : nat) :
  wf st (l1 ++ h :: l2) -> 0 <= size <= MAX_PAYLOAD ->
  org_limit st < org_brk st + adjSize_of size 1 ->
  (length (l1 ++ l2) < fuel)%nat -> Z.of_nat (length (l1 ++ l2)) <= INT_MAX ->
  exists st',
    realloc st (payload_of h) size = Done (0, st') /\
    wf st' (l1 ++ l2) /\ ~ In h (l1 ++ l2) /\
    rec_prev (mem st') h = 0 /\
    mem_get_alloc_count st' = mem_get_alloc_count st /\
    (exists out, mem_show_allocations fuel st' = Done out /\
                 forall s z, ~ In (F_address (payload_of h) s z) out) /\
    mem_get_usage fuel st' = Done (usage_of (mem st) (l1 ++ l2)) /\
    mem_get_real_usage fuel st' = Done (real_usage_of (mem st) (l1 ++ l2)) /\
    block_ok (mem st') h /\
    org_blocks st' = org_blocks st /\ org_brk st' = org_brk st.
Proof.
  intros Hwf Hs Hfull Hf Hb.
  destruct (wf_remove st l1 l2 h Hwf) as (_ & W3 & B3 & P3 & C3).
  set (m3 := store8 (LIST_REMOVE (mem st) h) (h + off_le_prev) 0) in *.
  pose proof (layout_NoDup _ _ _ (wf_layout _ _ Hwf)) as Hnd.
  apply NoDup_remove_2 in Hnd.
  assert (C3' : changed_only (mem st) m3 (org_brk st) (org_brk st) (l1 ++ h :: l2))
    by (intros x _; apply C3; lia).
  assert (Hincl : incl (l1 ++ l2) (l1 ++ h :: l2)).
  { intros x Hx. apply in_app_or in Hx. apply in_or_app.
    destruct Hx; [now left|right; now right]. }
  destruct (changed_only_usage _ _ _ _ _ (l1 ++ l2) C3' (wf_layout _ _ Hwf) Hincl)
    as [U R].
  exists (set_mem st m3).
  split; [now apply (realloc_fails st l1 l2 h size)|].
  split; [exact W3|]. split; [exact Hnd|]. split; [exact P3|].
  split; [reflexivity|]. split; [|split; [|split; [|split; [exact B3|split; reflexivity]]]].
  - exists (show_output (gi_allocCount st) m3 (l1 ++ l2)).
    split; [exact (mem_show_allocations_spec _ _ fuel W3 Hf Hb)|].
    intros s z H. apply show_output_address, shown_lines_in in H as (h' & Hh' & _ & E).
    unfold address_line in E. injection E as E _ _.
    apply Hnd. replace h with h'; [exact Hh'|]. unfold payload_of in E. lia.
  - rewrite (mem_get_usage_spec _ _ fuel W3 Hf). cbn [set_mem mem]. now rewrite U.
  - rewrite (mem_get_real_usage_spec _ _ fuel W3 Hf). cbn [set_mem mem]. now rewrite R.
Qed.

(** On a run: [init] and [malloc (8)] fill an arena of 160 bytes, then
    [realloc (p, 100)]. *)
Lemma failed_realloc_untracks_witness :
  let st := state_after (malloc (started (HEAP_BASE + 160)) 8)
                        (started (HEAP_BASE + 160)) in
  exists st',
    realloc st (payload_of (nth_header 1)) 100 = Done (0, st') /\
    wf st' [nth_header 0] /\
    mem_get_alloc_count st' = mem_get_alloc_count st.
Proof.
  intros st.
  destruct (init_spec (HEAP_BASE + 160)) as (_ & W & _ & Hk & B & L);
    [unfold HEAP_BASE; lia|unfold HEAP_BASE; lia|].
  destruct (malloc_wf (started (HEAP_BASE + 160)) _ 8 W) as [_ W1].
  { unfold MAX_PAYLOAD. lia. }
  { rewrite B, L. vm_compute. discriminate. }
  fold st in W1. rewrite B in W1.
  destruct (failed_realloc_untracks st [] [nth_header 0] (nth_header 1) 100 2 W1)
    as (st' & E & W' & _ & _ & C & _).
  - unfold MAX_PAYLOAD. lia.
  - vm_compute. reflexivity.
  - cbn. lia.
  - cbn. unfold INT_MAX. lia.
  - exists st'. split; [exact E|]. split; [exact W'|exact C].
Defined.

(** ** Allocations made while the hook is disabled *)

Lemma internalRealloc_any_type (st : state) (size nmemb : Z) (type : alloc_type) :
  gi_hookDisabled st <> 0 ->
  internalRealloc st 0 size nmemb type = internalRealloc st 0 size nmemb MALLOC.
Proof.
  intros Hk. apply Z.eqb_neq in Hk.
  unfold internalRealloc, detach_old, org_realloc. cbn [Z.eqb bind].
  destruct (_ <=? _); [|reflexivity].
  destruct (org_brk st =? 0); [reflexivity|].
  unfold trace_and_count. cbn [set_org gi_hookDisabled]. now rewrite Hk.
Qed.

(** C10.  While [gi_hookDisabled] is set, an allocation ([internalRealloc]
    with a NULL pointer, whatever the type of the call, so [malloc] and
    [realloc] of NULL; and likewise [realloc] of a tracked pointer) is
    linked at the head of the list with a NULL [szAllocator] and leaves
    [gi_allocCount] as it was.  [mem_get_usage] skips the new record and
    returns what it returned before; [mem_get_real_usage] grows by its
    size, header and cap. *)
Theorem reentrant_allocation_untraced :
  (forall (st : state) (l : list Z) (size : Z) (fuel : nat),
     wf st l -> gi_hookDisabled st <> 0 -> 0 <= size <= MAX_PAYLOAD ->
     org_brk st + adjSize_of size 1 <= org_limit st ->
     (S (length l) < fuel)%nat ->
     exists st',
       (forall type, internalRealloc st 0 size 1 type
                     = Done (payload_of (org_brk st), st')) /\
       malloc st size = Done (payload_of (org_brk st), st') /\
       wf st' (org_brk st :: l) /\
       rec_allocator (mem st') (org_brk st) = 0 /\
       rec_size (mem st') (org_brk st) = size /\
       mem_get_alloc_count st' = mem_get_alloc_count st /\
       mem_get_usage fuel st = Done (usage_of (mem st) l) /\
       mem_get_usage fuel st' = Done (usage_of (mem st) l) /\
       mem_get_real_usage fuel st = Done (real_usage_of (mem st) l) /\
       mem_get_real_usage fuel st'
       = Done (real_usage_of (mem st) l
               + (size + sizeof_memoryHeader + sizeof_memoryCap))) /\
  (forall (st : state) (l1 l2 : list Z) (h size : Z),
     wf st (l1 ++ h :: l2) -> gi_hookDisabled st <> 0 -> 0 <= size <= MAX_PAYLOAD ->
     org_brk st + adjSize_of size 1 <= org_limit st ->
     exists st',
       realloc st (payload_of h) size = Done (payload_of (org_brk st), st') /\
       wf st' (org_brk st :: l1 ++ l2) /\
       rec_allocator (mem st') (org_brk st) = 0 /\
       mem_get_alloc_count st' = mem_get_alloc_count st).
Proof.
  split.
  - intros st l size fuel Hwf Hk Hs Hfit Hf.
    destruct (alloc_new_spec st l size MALLOC Hwf Hs Hfit)
      as (st' & E & W & S1 & A & C & _ & Ch & _).
    unfold hook_allocator, hook_count in *.
    destruct (Z.eqb_spec (gi_hookDisabled st) 0) as [?|_]; [contradiction|].
    destruct (changed_only_usage _ _ _ _ l l Ch (wf_layout _ _ Hwf) (incl_refl l))
      as [U R].
    exists st'. split; [intros type; now rewrite internalRealloc_any_type|].
    split; [unfold malloc; now rewrite (wf_init _ _ Hwf)|].
    split; [exact W|]. split; [exact A|]. split; [exact S1|]. split; [exact C|].
    rewrite (mem_get_usage_spec st l fuel Hwf) by lia.
    rewrite (mem_get_real_usage_spec st l fuel Hwf) by lia.
    rewrite (mem_get_usage_spec st' _ fuel W) by (cbn [length]; lia).
    rewrite (mem_get_real_usage_spec st' _ fuel W) by (cbn [length]; lia).
    cbn [usage_of real_usage_of fold_right].
    fold (usage_of (mem st') l) (real_usage_of (mem st') l).
    rewrite A, S1, U, R. cbn [Z.eqb].
    conjs; f_equal; lia.
  - intros st l1 l2 h size Hwf Hk Hs Hfit.
    destruct (realloc_tracked st l1 l2 h size Hwf Hs Hfit)
      as (st' & E & W & _ & A & C & _).
    unfold hook_allocator in A.
    destruct (Z.eqb_spec (gi_hookDisabled st) 0) as [?|_]; [contradiction|].
    exists st'. auto.
Qed.

(** On a run: [init], [malloc (3)], then [malloc (5)] with the hook disabled.
    Three records are linked, the count is 2, the usage 3, the real usage
    8 plus three times 72. *)
Lemma reentrant_allocation_untraced_witness :
  let st := set_hook (after_malloc 3) 1 in
  exists st',
    malloc st 5 = Done (payload_of (nth_header 2), st') /\
    wf st' [nth_header 2; nth_header 1; nth_header 0] /\
    rec_allocator (mem st') (nth_header 2) = 0 /\
    mem_get_alloc_count st' = 2 /\
    mem_get_usage 4 st' = Done 3 /\
    mem_get_real_usage 4 st' = Done (3 + 5 + 3 * 72).
Proof.
  intros st.
  destruct (wf_after_malloc 3 ltac:(lia)) as (_ & W & _).
  pose proof (wf_set_hook _ _ 1 W) as W1. fold st in W1.
  assert (Eb : org_brk st = nth_header 2) by (vm_compute; reflexivity).
  destruct (proj1 reentrant_allocation_untraced st _ 5 4%nat W1)
    as (st' & _ & E & W' & A & _ & C & _ & U & _ & R).
  - vm_compute. discriminate.
  - unfold MAX_PAYLOAD. lia.
  - vm_compute. discriminate.
  - cbn. lia.
  - rewrite Eb in *. exists st'.
    split; [exact E|]. split; [exact W'|]. split; [exact A|].
    split; [rewrite C; vm_compute; reflexivity|].
    split; [rewrite U|rewrite R]; f_equal; vm_compute; reflexivity.
Defined.

(** * More of the library's behaviour *)

(** ** The bootstrap allocator *)

Lemma static_index_step (i size : Z) :
  0 <= i < ullStatic_len -> 0 <= size <= 2 ^ 64 - 8 ->
  wrap64 (i + wrap64 (size + (sizeof_ull - 1)) / sizeof_ull) = i + (size + 7) / 8 /\
  size <= 8 * ((size + 7) / 8) < size + 8.
Proof.
  intros Hi Hs. unfold sizeof_ull, ullStatic_len in *.
  replace (8 - 1) with 7 by lia.
  rewrite (wrap64_small (size + 7)) by lia.
  pose proof (Z_div_mod_eq_full (size + 7) 8) as Hd.
  pose proof (Z.mod_pos_bound (size + 7) 8 ltac:(lia)) as Hm.
  split; [apply wrap64_small|]; lia.
Qed.

Lemma static_alloc_spec (st st' : state) (size p : Z) :
  gp_orgRealloc_set st = false -> 0 <= sIndex st < ullStatic_len ->
  0 <= size <= 2 ^ 64 - 8 ->
  malloc st size = Done (p, st') ->
  p = ullStatic + 8 * sIndex st /\
  sIndex st' = sIndex st + (size + 7) / 8 /\ sIndex st' < ullStatic_len /\
  mem st' = mem st /\ gi_allocCount st' = gi_allocCount st /\
  gp_orgRealloc_set st' = false.
Proof.
  intros Hg Hi Hs. unfold malloc, internalStaticAlloc. rewrite Hg.
  destruct (static_index_step (sIndex st) size Hi Hs) as [E _]. rewrite E.
  destruct (Z.geb_spec (sIndex st + (size + 7) / 8) ullStatic_len) as [?|Hlt];
    [discriminate|].
  intros [= <- <-]. cbn [set_sIndex sIndex mem gi_allocCount gp_orgRealloc_set].
  unfold sizeof_ull. auto 10.
Qed.

(** X1.  Before [init] has run, two successive calls of [malloc] that
    return hand out regions of the bootstrap array that are aligned on 8
    bytes, do not overlap, and end at least one array element before the
    end of the array; memory and the allocation count are not touched. *)
Theorem bootstrap_blocks_disjoint (st st1 st2 : state) (s1 s2 p1 p2 : Z) :
  gp_orgRealloc_set st = false -> 0 <= sIndex st < ullStatic_len ->
  0 <= s1 <= 2 ^ 64 - 8 -> 0 <= s2 <= 2 ^ 64 - 8 ->
  malloc st s1 = Done (p1, st1) -> malloc st1 s2 = Done (p2, st2) ->
  p1 mod 8 = 0 /\ p2 mod 8 = 0 /\
  ullStatic <= p1 /\ p1 + s1 <= p2 /\
  p2 + s2 <= ullStatic + 8 * (ullStatic_len - 1) /\
  mem st2 = mem st /\ mem_get_alloc_count st2 = mem_get_alloc_count st.
Proof.
  intros Hg Hi H1 H2 E1 E2.
  destruct (static_alloc_spec st st1 s1 p1 Hg Hi H1 E1) as (P1 & I1 & L1 & M1 & C1 & G1).
  destruct (static_index_step (sIndex st) s1 Hi H1) as [_ R1].
  pose proof (Z.div_pos (s1 + 7) 8 ltac:(lia) ltac:(lia)) as D1.
  assert (Hi1 : 0 <= sIndex st1 < ullStatic_len) by lia.
  destruct (static_alloc_spec st1 st2 s2 p2 G1 Hi1 H2 E2) as (P2 & I2 & L2 & M2 & C2 & _).
  destruct (static_index_step (sIndex st1) s2 Hi1 H2) as [_ R2].
  unfold mem_get_alloc_count. subst p1 p2.
  assert (A : forall k, (ullStatic + 8 * k) mod 8 = 0).
  { intros k. unfold ullStatic. replace (8192 + 8 * k) with ((1024 + k) * 8) by lia.
    apply Z_mod_mult. }
  conjs; try apply A; try congruence; lia.
Qed.

(** On a run: [malloc (10)] then [malloc (1)] in a process that has not
    been initialised. *)
Lemma bootstrap_blocks_disjoint_witness :
  exists p1 p2 st1 st2,
    malloc (boot arena) 10 = Done (p1, st1) /\ malloc st1 1 = Done (p2, st2) /\
    p1 + 10 <= p2 /\ p2 mod 8 = 0.
Proof.
  destruct (malloc (boot arena) 10) as [[p1 st1]|r|] eqn:E1;
    [|vm_compute in E1; discriminate E1|vm_compute in E1; discriminate E1].
  destruct (malloc st1 1) as [[p2 st2]|r|] eqn:E2.
  - exists p1, p2, st1, st2. split; [reflexivity|]. split; [exact E2|].
    destruct (bootstrap_blocks_disjoint (boot arena) st1 st2 10 1 p1 p2)
      as (_ & A & _ & B & _);
      [reflexivity|unfold ullStatic_len; cbn; lia|lia|lia|exact E1|exact E2|].
    split; assumption.
  - exfalso. revert E2. injection E1 as <- <-. vm_compute. discriminate.
  - exfalso. revert E2. injection E1 as <- <-. vm_compute. discriminate.
Defined.



(** X3.  Before [init] has run, a request of more than [SIZE_MAX - 7]
    bytes does not abort: rounding the size up to whole elements wraps to
    zero, the call returns the address at the cursor and reserves nothing,
    and the next request is given the same address. *)
Theorem bootstrap_size_wrap (st : state) (size : Z) :
  gp_orgRealloc_set st = false -> 0 <= sIndex st < ullStatic_len ->
  2 ^ 64 - 7 <= size < 2 ^ 64 ->
  exists st',
    malloc st size = Done (ullStatic + 8 * sIndex st, st') /\
    sIndex st' = sIndex st /\
    forall s2 p2 st2, malloc st' s2 = Done (p2, st2) -> p2 = ullStatic + 8 * sIndex st.
Proof.
  intros Hg Hi Hs. unfold malloc at 1. unfold internalStaticAlloc. rewrite Hg.
  assert (E : wrap64 (size + (sizeof_ull - 1)) / sizeof_ull = 0).
  { unfold sizeof_ull, wrap64, SIZE_MAX_P1.
    replace (size + (8 - 1)) with (size + 7 - 2 ^ 64 + 1 * 2 ^ 64) by lia.
    rewrite Z_mod_plus_full, Z.mod_small by lia. apply Z.div_small. lia. }
  rewrite E, Z.add_0_r, wrap64_small by (unfold ullStatic_len in Hi; lia).
  destruct (Z.geb_spec (sIndex st) ullStatic_len) as [?|_]; [lia|].
  eexists. split; [unfold sizeof_ull; reflexivity|]. split; [reflexivity|].
  intros s2 p2 st2. unfold malloc, internalStaticAlloc.
  cbn [set_sIndex gp_orgRealloc_set sIndex]. rewrite Hg.
  destruct (_ >=? _); [discriminate|]. intros [= <- _]. reflexivity.
Qed.

(** On a run: [malloc (SIZE_MAX)] in a fresh process, then [malloc (16)]. *)
Lemma bootstrap_size_wrap_witness :
  exists st',
    malloc (boot arena) (2 ^ 64 - 1) = Done (ullStatic, st') /\
    returned (malloc st' 16) = Some ullStatic.
Proof.
  destruct (bootstrap_size_wrap (boot arena) (2 ^ 64 - 1)) as (st' & E & _ & N).
  - reflexivity.
  - cbn. unfold ullStatic_len. lia.
  - lia.
  - exists st'. split; [exact E|].
    destruct (malloc st' 16) as [[p2 st2]|r|] eqn:E2.
    + cbn. f_equal. rewrite (N 16 p2 st2 E2). reflexivity.
    + exfalso. revert E2. injection E as <-. vm_compute. discriminate.
    + exfalso. revert E2. injection E as <-. vm_compute. discriminate.
Defined.

(** ** Writes to the payload *)

Lemma block_ok_frame (m m' : memory) (h : Z) :
  (forall x, h + off_size <= x < h + off_threadId \/
             h + off_ullFixedValues <= x < payload_of h \/
             payload_end m h <= x < block_end m h -> m' x = m x) ->
  block_ok m h -> block_ok m' h /\ rec_size m' h = rec_size m h.
Proof.
  intros H (Hal & Hpos & Hend & Ht0 & Ht1 & Hpad & Hc0 & Hc1).
  assert (Hs : rec_size m' h = rec_size m h).
  { unfold rec_size. apply load8_agree. intros x Hx. apply H. consts. lia. }
  pose proof (load8_range m (h + 8)) as Hsz.
  pose proof (pad_len_range (payload_end m h)) as Hpl.
  assert (Hce : cap_of m' h = cap_of m h)
    by (unfold cap_of, payload_end; now rewrite Hs).
  assert (Hpe : payload_end m' h = payload_end m h)
    by (unfold payload_end; now rewrite Hs).
  assert (Hbe : block_end m' h = block_end m h)
    by (unfold block_end; now rewrite Hce).
  split; [|exact Hs].
  unfold block_ok. rewrite Hbe, Hce, Hpe.
  repeat split; try assumption.
  - rewrite <- Ht0. apply load8_agree. intros x Hx. apply H. consts. lia.
  - rewrite <- Ht1. apply load8_agree. intros x Hx. apply H. consts. lia.
  - intros x Hx. rewrite <- (Hpad x Hx). apply loadb_agree. apply H. consts. lia.
  - rewrite <- Hc0. apply load8_agree. intros x Hx. apply H. consts. lia.
  - rewrite <- Hc1. apply load8_agree. intros x Hx. apply H. consts. lia.
Qed.

(** The bytes of a tracked block that [verifyIntegrity] and the list do
    not depend on: the [szAllocator] and [threadId] fields of the header,
    and the payload.  Whatever is written there, the state stays
    well-formed and the sizes are what they were. *)
Lemma unchecked_write_wf (st : state) (l : list Z) (h : Z) (m' : memory) :
  wf st l -> In h l ->
  (forall x, ~ (h <= x < h + off_size \/ h + off_threadId <= x < h + off_le_next \/
                payload_of h <= x < payload_end (mem st) h) -> m' x = mem st x) ->
  wf (set_mem st m') l /\
  (forall h', In h' l -> rec_size m' h' = rec_size (mem st) h' /\
                         (h' <> h -> rec_allocator m' h' = rec_allocator (mem st) h')).
Proof.
  intros W Hin Hm. pose proof W as [Hinit Hreg Hlay Hok Hbrk Hlim Hcnt].
  pose proof (block_end_lower (mem st) h) as Hlow.
  pose proof (pad_len_range (payload_end (mem st) h)) as Hpl.
  pose proof (rec_size_range (mem st) h) as Hsz.
  assert (K : forall h' x, In h' l ->
            h' + off_size <= x < h' + off_threadId \/
            h' + off_le_next <= x < payload_of h' \/
            payload_end (mem st) h' <= x < block_end (mem st) h' ->
            m' x = mem st x).
  { intros h' x Hh' Hx. apply Hm.
    pose proof (block_end_lower (mem st) h').
    pose proof (rec_size_range (mem st) h').
    destruct (Z.eq_dec h' h) as [->|Hne].
    - unfold block_end, cap_of in *. consts. lia.
    - destruct (layout_disjoint _ _ _ h' h Hlay Hh' Hin Hne);
        unfold block_end, cap_of in *; consts; lia. }
  assert (F : forall h', In h' l ->
            block_ok m' h' /\ rec_size m' h' = rec_size (mem st) h').
  { intros h' Hh'. apply block_ok_frame.
    - intros x Hx. apply (K h' x Hh'). consts. lia.
    - rewrite Forall_forall in Hok. now apply Hok. }
  split.
  - constructor; cbn [set_mem mem gi_allocCount org_brk org_limit gp_orgRealloc_set];
      try assumption.
    + apply (registry_same (mem st)); [| |exact Hreg].
      * intros h' x Hh' Hx. apply (K h' x Hh'). consts. lia.
      * intros x Hx. apply Hm.
        destruct (layout_in _ _ _ _ Hlay Hin). consts. lia.
    + apply (layout_same (mem st)); [|exact Hlay].
      intros h' Hh'. unfold block_end, cap_of, payload_end.
      now rewrite (proj2 (F h' Hh')).
    + rewrite Forall_forall. intros h' Hh'. exact (proj1 (F h' Hh')).
  - intros h' Hh'. split; [exact (proj2 (F h' Hh'))|]. intros Hne.
    unfold rec_allocator. apply load8_agree. intros x Hx. apply Hm.
    pose proof (block_end_lower (mem st) h').
    destruct (layout_disjoint _ _ _ h' h Hlay Hh' Hin Hne);
      unfold block_end, cap_of in *; consts; lia.
Qed.

Lemma payload_write_wf (st : state) (l : list Z) (h : Z) (m' : memory) :
  wf st l -> In h l ->
  (forall x, ~ (payload_of h <= x < payload_end (mem st) h) -> m' x = mem st x) ->
  wf (set_mem st m') l /\
  (forall h', In h' l -> rec_size m' h' = rec_size (mem st) h' /\
                         rec_allocator m' h' = rec_allocator (mem st) h').
Proof.
  intros W Hin Hm.
  destruct (unchecked_write_wf st l h m' W Hin) as [W' E].
  { intros x Hx. apply Hm. tauto. }
  split; [exact W'|]. intros h' Hh'. destruct (E h' Hh') as [E1 E2].
  split; [exact E1|]. destruct (Z.eq_dec h' h) as [->|Hne]; [|now apply E2].
  unfold rec_allocator. apply load8_agree. intros x Hx. apply Hm.
  consts. lia.
Qed.

Lemma poke_payload_wf (st : state) (l : list Z) (h a v : Z) :
  wf st l -> In h l -> payload_of h <= a < payload_end (mem st) h ->
  wf (poke st a v) l.
Proof.
  intros W Hin Ha.
  destruct (payload_write_wf st l h (storeb (mem st) a v) W Hin) as [W' _];
    [|exact W'].
  intros x Hx. apply storeb_neq. intros ->. contradiction.
Qed.

(** X4.  Bytes written inside the payload of a tracked block are never
    taken for corruption: whatever the payload holds afterwards,
    [mem_check_integrity] completes, [mem_get_usage] returns what it
    returned before, and [free] of the block completes. *)
Theorem payload_writes_pass (st : state) (l : list Z) (h : Z) (m' : memory)
        (fuel : nat) :
  wf st l -> In h l -> (length l < fuel)%nat ->
  (forall x, ~ (payload_of h <= x < payload_end (mem st) h) -> m' x = mem st x) ->
  mem_check_integrity fuel (set_mem st m') = Done tt /\
  mem_get_usage fuel (set_mem st m') = mem_get_usage fuel st /\
  exists st', free (set_mem st m') (payload_of h) = Done st'.
Proof.
  intros W Hin Hf Hm.
  destruct (payload_write_wf st l h m' W Hin Hm) as [W' E].
  split; [exact (mem_check_integrity_spec _ _ fuel W' Hf)|]. split.
  - rewrite (mem_get_usage_spec _ _ fuel W' Hf), (mem_get_usage_spec _ _ fuel W Hf).
    f_equal. cbn [set_mem mem]. clear - E.
    induction l as [|a t IH]; [reflexivity|].
    cbn [usage_of fold_right]. fold (usage_of m' t) (usage_of (mem st) t).
    destruct (E a (or_introl eq_refl)) as [-> ->].
    rewrite IH; [reflexivity|]. intros h' Hh'. apply E. now right.
  - destruct (in_split h l Hin) as (l1 & l2 & ->).
    destruct (free_tracked _ l1 l2 h W') as (st' & Ef & _). now exists st'.
Qed.

(** On a run: [init], [malloc (3)], then the three bytes of the block set
    to 0xFF. *)
Lemma payload_writes_pass_witness :
  let p := payload_of (nth_header 1) in
  let st := after_malloc 3 in
  let m' := storeb (storeb (storeb (mem st) p 255) (p + 1) 255) (p + 2) 255 in
  mem_check_integrity 3 (set_mem st m') = Done tt /\
  exists st', free (set_mem st m') p = Done st'.
Proof.
  intros p st m'.
  destruct (wf_after_malloc 3 ltac:(lia)) as (_ & W & _).
  destruct (payload_writes_pass st _ (nth_header 1) m' 3 W) as (A & _ & B).
  - now left.
  - cbn. lia.
  - intros x Hx. unfold m'.
    assert (Ep : payload_end (mem st) (nth_header 1) = p + 3)
      by (vm_compute; reflexivity).
    rewrite Ep in Hx. fold p in Hx.
    rewrite !storeb_neq by lia. reflexivity.
  - split; assumption.
Defined.

(** ** calloc *)

Lemma memset_spec (c : Z) : forall (n : nat) (m : memory) (dst x : Z),
  memset n m dst c x
  = if (dst <=? x) && (x <? dst + Z.of_nat n) then c mod 256 else m x.
Proof.
  induction n as [|n IH]; intros m dst x; cbn [memset].
  - destruct (Z.leb_spec dst x); destruct (Z.ltb_spec x (dst + Z.of_nat 0));
      cbn [andb]; try reflexivity. lia.
  - rewrite IH, Nat2Z.inj_succ.
    destruct (Z.leb_spec (dst + 1) x); destruct (Z.ltb_spec x (dst + 1 + Z.of_nat n));
      destruct (Z.leb_spec dst x); destruct (Z.ltb_spec x (dst + Z.succ (Z.of_nat n)));
      cbn [andb]; try lia;
      first [reflexivity | apply storeb_neq; lia
            | replace x with dst by lia; apply storeb_eq].
Qed.






(** X6.  After [init], when the underlying allocator cannot satisfy the
    request, [calloc] does not return NULL for a size other than zero: it
    hands the NULL it got to [memset].  Only when the product of [nmemb] and
    [size] is zero modulo 2^64 does it return NULL, with the state as it
    was. *)
Theorem calloc_exhausted_stores_through_null (st : state) (nmemb size : Z) :
  gp_orgRealloc_set st = true ->
  org_limit st < org_brk st + adjSize_of nmemb size ->
  (wrap64 (nmemb * size) <> 0 -> calloc st nmemb size = Done BadStore) /\
  (wrap64 (nmemb * size) = 0 -> calloc st nmemb size = Done (Valid (0, st))).
Proof.
  intros Hi Hfull. unfold calloc. rewrite Hi.
  rewrite (internalRealloc_exhausted st nmemb size CALLOC Hfull). cbn [bind Z.eqb orb].
  split; intros H.
  - apply Z.eqb_neq in H. rewrite H. reflexivity.
  - rewrite H. cbn [Z.eqb negb andb Z.to_nat memset]. destruct st; reflexivity.
Qed.

(** On a run: right after [init] in an arena of 80 bytes, [calloc (2, 4)]
    and [calloc (0, 4)]. *)
Lemma calloc_exhausted_stores_through_null_witness :
  calloc (started (HEAP_BASE + 80)) 2 4 = Done BadStore /\
  calloc (started (HEAP_BASE + 80)) 0 4 = Done (Valid (0, started (HEAP_BASE + 80))).
Proof.
  split.
  - refine (proj1 (calloc_exhausted_stores_through_null
                     (started (HEAP_BASE + 80)) 2 4 _ _) _).
    + vm_compute. reflexivity.
    + vm_compute. reflexivity.
    + vm_compute. discriminate.
  - refine (proj2 (calloc_exhausted_stores_through_null
                     (started (HEAP_BASE + 80)) 0 4 _ _) _).
    + vm_compute. reflexivity.
    + vm_compute. reflexivity.
    + vm_compute. reflexivity.
Defined.

(** ** getFunction *)

Lemma overwrite_length (dst : list ascii) (s : nat) (cs : list ascii) :
  (s + length cs <= length dst)%nat -> length (overwrite dst s cs) = length dst.
Proof.
  intros H. unfold overwrite.
  rewrite !length_app, length_firstn, length_skipn. lia.
Qed.

Lemma overwrite_nil (dst : list ascii) (s : nat) : overwrite dst s [] = dst.
Proof. unfold overwrite. cbn [length app]. rewrite Nat.add_0_r. apply firstn_skipn. Qed.

Lemma overwrite_app (dst : list ascii) (s : nat) (a b : list ascii) :
  (s + length a <= length dst)%nat ->
  overwrite (overwrite dst s a) (s + length a) b = overwrite dst s (a ++ b).
Proof.
  intros H. unfold overwrite.
  assert (Hf : length (firstn s dst) = s) by (rewrite length_firstn; lia).
  rewrite (app_assoc (firstn s dst) a).
  assert (Hfa : length (firstn s dst ++ a) = (s + length a)%nat)
    by (rewrite length_app, Hf; reflexivity).
  assert (E1 : firstn (s + length a) ((firstn s dst ++ a) ++ skipn (s + length a) dst)
               = firstn s dst ++ a).
  { rewrite firstn_app, Hfa, Nat.sub_diag, firstn_O, app_nil_r.
    apply firstn_all2. lia. }
  assert (E2 : skipn (s + length a + length b)
                 ((firstn s dst ++ a) ++ skipn (s + length a) dst)
               = skipn (s + length (a ++ b)) dst).
  { rewrite skipn_app, Hfa.
    assert (E3 : skipn (s + length a + length b) (firstn s dst ++ a) = [])
      by (apply skipn_all2; lia).
    rewrite E3. cbn [app].
    replace (s + length a + length b - (s + length a))%nat with (length b) by lia.
    rewrite skipn_skipn, length_app. f_equal. lia. }
  rewrite E1, E2, <- !app_assoc. reflexivity.
Qed.

Lemma buf_store_some (dst : list ascii) (i : Z) (c : ascii) :
  0 <= i < Z.of_nat (length dst) ->
  buf_store dst i c = Some (overwrite dst (Z.to_nat i) [c]).
Proof.
  intros H. unfold buf_store, overwrite.
  destruct (Z.leb_spec 0 i); [|lia]. destruct (Z.ltb_spec i (Z.of_nat (length dst))); [|lia].
  cbn [andb length app]. now rewrite Nat.add_1_r.
Qed.

Lemma overwrite_nth (dst : list ascii) (s : nat) (cs : list ascii) (i : nat) :
  (s + length cs <= length dst)%nat -> (i < s \/ s + length cs <= i)%nat ->
  nth i (overwrite dst s cs) zero = nth i dst zero.
Proof.
  intros H Hi. unfold overwrite.
  assert (Hf : length (firstn s dst) = s) by (rewrite length_firstn; lia).
  destruct Hi as [Hi|Hi].
  - rewrite app_nth1 by lia. rewrite nth_firstn.
    destruct (Nat.ltb_spec i s); [reflexivity|lia].
  - rewrite app_nth2 by lia. rewrite app_nth2 by lia.
    rewrite nth_skipn, Hf. f_equal. lia.
Qed.

Lemma put_if_room_spec (dst : list ascii) (s sMax : Z) (c : ascii) :
  0 <= s <= sMax -> sMax <= Z.of_nat (length dst) -> sMax < 2 ^ 64 ->
  put_if_room dst s sMax c
  = if s <? sMax then Some (overwrite dst (Z.to_nat s) [c], s + 1) else Some (dst, s).
Proof.
  intros Hs Hm Hw. unfold put_if_room.
  destruct (Z.ltb_spec s sMax); [|reflexivity].
  rewrite buf_store_some by lia. now rewrite wrap64_small by lia.
Qed.

(** What the loop leaves of the buffer, whatever the source holds. *)
Lemma getFunction_loop_bounds (sMax : Z) : forall (szSrc dst : list ascii) (s iMode : Z),
  0 < sMax <= Z.of_nat (length dst) -> sMax < 2 ^ 64 -> 0 <= s <= sMax ->
  exists d n,
    getFunction_loop dst s iMode szSrc sMax = Some (d, n) /\
    length d = length dst /\ s <= n <= sMax /\
    forall i, (Z.of_nat i < s \/ sMax <= Z.of_nat i) -> Z.of_nat i <> sMax - 1 ->
              nth i d zero = nth i dst zero.
Proof.
  assert (P : forall (dst : list ascii) (s : Z) (c : ascii),
             0 < sMax <= Z.of_nat (length dst) -> sMax < 2 ^ 64 -> 0 <= s <= sMax ->
             exists d n, put_if_room dst s sMax c = Some (d, n) /\
               length d = length dst /\ s <= n <= sMax /\
               forall i, (Z.of_nat i < s \/ sMax <= Z.of_nat i) ->
                         nth i d zero = nth i dst zero).
  { intros dst s c Hm Hw Hs. rewrite put_if_room_spec by lia.
    destruct (Z.ltb_spec s sMax).
    - eexists. eexists. split; [reflexivity|].
      split; [apply overwrite_length; cbn [length]; lia|]. split; [lia|].
      intros i Hi. apply overwrite_nth; cbn [length]; lia.
    - exists dst, s. split; [reflexivity|]. split; [reflexivity|]. split; [lia|].
      reflexivity. }
  induction szSrc as [|c rest IH]; intros dst s iMode Hm Hw Hs;
    cbn [getFunction_loop].
  - exists dst, s. split; [reflexivity|]. split; [reflexivity|]. split; [lia|]. reflexivity.
  - destruct (Ascii.eqb c zero).
    { exists dst, s. split; [reflexivity|]. split; [reflexivity|]. split; [lia|].
      reflexivity. }
    destruct (Z.eqb_spec s sMax) as [->|Hne].
    { rewrite wrap64_small, buf_store_some by lia.
      eexists. eexists. split; [reflexivity|].
      split; [apply overwrite_length; cbn [length]; lia|]. split; [lia|].
      intros i Hi Hi'. apply overwrite_nth; cbn [length]; lia. }
    destruct (Ascii.eqb c "("%char); [exact (IH dst s 1 Hm Hw Hs)|].
    destruct (Ascii.eqb c ")"%char).
    { destruct (P dst s "<"%char Hm Hw Hs) as (d1 & s1 & E1 & L1 & R1 & N1).
      rewrite E1.
      destruct (P d1 s1 "<"%char ltac:(lia) Hw ltac:(lia)) as (d2 & s2 & E2 & L2 & R2 & N2).
      rewrite E2.
      destruct (P d2 s2 "-"%char ltac:(lia) Hw ltac:(lia)) as (d3 & s3 & E3 & L3 & R3 & N3).
      rewrite E3.
      destruct (IH d3 s3 2 ltac:(lia) Hw ltac:(lia)) as (d & n & E & L & R & N).
      exists d, n. split; [exact E|]. split; [lia|]. split; [lia|].
      intros i Hi Hi'. rewrite N, N3, N2, N1 by lia. reflexivity. }
    destruct (iMode =? 1).
    + destruct (P dst s c Hm Hw Hs) as (d1 & s1 & E1 & L1 & R1 & N1). rewrite E1.
      destruct (IH d1 s1 iMode ltac:(lia) Hw ltac:(lia)) as (d & n & E & L & R & N).
      exists d, n. split; [exact E|]. split; [lia|]. split; [lia|].
      intros i Hi Hi'. rewrite N, N1 by lia. reflexivity.
    + exact (IH dst s iMode Hm Hw Hs).
Qed.

(** X7.  [getFunction] stays inside the buffer: for a buffer of at least
    [sMax] characters, [sMax] not zero, and an offset of at most [sMax],
    the call returns an index between the offset and [sMax], the buffer
    keeps its length, nothing at or beyond [sMax] is written, and nothing
    before the offset is written except the terminator at [sMax - 1]. *)
Theorem getFunction_in_bounds (szDst szSrc : list ascii) (sOffset sMax : Z) :
  0 < sMax <= Z.of_nat (length szDst) -> sMax < 2 ^ 64 -> 0 <= sOffset <= sMax ->
  exists d n,
    getFunction szDst sOffset szSrc sMax = Some (d, n) /\
    length d = length szDst /\ sOffset <= n <= sMax /\
    forall i, (Z.of_nat i < sOffset \/ sMax <= Z.of_nat i) ->
              Z.of_nat i <> sMax - 1 -> nth i d zero = nth i szDst zero.
Proof. intros Hm Hw Hs. now apply getFunction_loop_bounds. Qed.

(** On a run: a buffer of 10 characters of which 8 may be used, offset 2. *)
Lemma getFunction_in_bounds_witness :
  exists d n,
    getFunction (repeat "."%char 10) 2 ["a"; "("; "f"; "o"; "o"; "b"; "a"; "r"; ")"]%char 8
    = Some (d, n) /\ length d = 10%nat /\ 2 <= n <= 8.
Proof.
  destruct (getFunction_in_bounds (repeat "."%char 10)
              ["a"; "("; "f"; "o"; "o"; "b"; "a"; "r"; ")"]%char 2 8)
    as (d & n & E & L & R & _); [cbn; lia|lia|lia|].
  exists d, n. split; [exact E|]. split; [exact L|exact R].
Defined.

Lemma plain_cons (c : ascii) (s : list ascii) :
  plain (c :: s) ->
  Ascii.eqb c zero = false /\ Ascii.eqb c "("%char = false /\
  Ascii.eqb c ")"%char = false /\ plain s.
Proof.
  intros H. destruct (H c (or_introl eq_refl)) as (H1 & H2 & H3).
  repeat split; try (apply Ascii.eqb_neq; assumption).
  - apply H; now right.
  - apply H; now right.
  - apply H; now right.
Qed.

Lemma getFunction_loop_open (dst rest : list ascii) (s iMode sMax : Z) :
  s <> sMax ->
  getFunction_loop dst s iMode ("("%char :: rest) sMax
  = getFunction_loop dst s 1 rest sMax.
Proof.
  intros H. cbn [getFunction_loop].
  change (Ascii.eqb "("%char zero) with false.
  change (Ascii.eqb "("%char "("%char) with true. cbv iota.
  destruct (Z.eqb_spec s sMax); [contradiction|reflexivity].
Qed.

Lemma getFunction_loop_close (dst rest : list ascii) (s iMode sMax : Z) :
  0 <= s -> s + 3 <= sMax -> sMax <= Z.of_nat (length dst) -> sMax < 2 ^ 64 ->
  getFunction_loop dst s iMode (")"%char :: rest) sMax
  = getFunction_loop (overwrite dst (Z.to_nat s) arrow) (s + 3) 2 rest sMax.
Proof.
  intros Hs Hfit Hm Hw. cbn [getFunction_loop].
  change (Ascii.eqb ")"%char zero) with false.
  change (Ascii.eqb ")"%char "("%char) with false.
  change (Ascii.eqb ")"%char ")"%char) with true. cbv iota.
  destruct (Z.eqb_spec s sMax); [lia|].
  rewrite put_if_room_spec by lia. destruct (Z.ltb_spec s sMax); [|lia].
  set (d2 := overwrite dst (Z.to_nat s) ["<"%char]).
  assert (L2 : length d2 = length dst)
    by (unfold d2; rewrite overwrite_length; cbn [length]; lia).
  rewrite put_if_room_spec by lia. destruct (Z.ltb_spec (s + 1) sMax); [|lia].
  set (d3 := overwrite d2 (Z.to_nat (s + 1)) ["<"%char]).
  assert (L3 : length d3 = length dst)
    by (unfold d3; rewrite overwrite_length; cbn [length]; lia).
  rewrite put_if_room_spec by lia. destruct (Z.ltb_spec (s + 1 + 1) sMax); [|lia].
  replace (s + 1 + 1 + 1) with (s + 3) by lia. f_equal.
  unfold d3, d2, arrow.
  replace (Z.to_nat (s + 1)) with (Z.to_nat s + length ["<"%char])%nat
    by (cbn [length]; lia).
  rewrite overwrite_app by (cbn [length]; lia).
  replace (Z.to_nat (s + 1 + 1))
    with (Z.to_nat s + length (["<"%char] ++ ["<"%char]))%nat by (cbn [length app]; lia).
  rewrite overwrite_app by (cbn [length app]; lia). reflexivity.
Qed.

(** Characters outside parentheses are passed over. *)
Lemma getFunction_loop_skip (sMax : Z) (dst rest : list ascii) (s iMode : Z) :
  forall pre : list ascii,
    plain pre -> iMode <> 1 -> s <> sMax \/ pre = [] ->
    getFunction_loop dst s iMode (pre ++ rest) sMax
    = getFunction_loop dst s iMode rest sMax.
Proof.
  induction pre as [|c t IH]; intros Hp Hmode Hs; [reflexivity|].
  destruct (plain_cons c t Hp) as (E0 & E1 & E2 & Hp').
  destruct Hs as [Hs|Hs]; [|discriminate].
  cbn [app getFunction_loop]. rewrite E0, E1, E2.
  destruct (Z.eqb_spec s sMax) as [?|_]; [contradiction|].
  destruct (Z.eqb_spec iMode 1) as [?|_]; [contradiction|].
  apply IH; [exact Hp'|exact Hmode|now left].
Qed.

(** Characters between parentheses are copied while there is room. *)
Lemma getFunction_loop_copy (sMax : Z) (rest : list ascii) :
  forall (name dst : list ascii) (s : Z),
    plain name -> 0 <= s -> s + Z.of_nat (length name) <= sMax ->
    sMax <= Z.of_nat (length dst) -> sMax < 2 ^ 64 ->
    getFunction_loop dst s 1 (name ++ rest) sMax
    = getFunction_loop (overwrite dst (Z.to_nat s) name)
                       (s + Z.of_nat (length name)) 1 rest sMax.
Proof.
  induction name as [|c t IH]; intros dst s Hp Hs Hfit Hm Hw.
  - cbn [app length]. rewrite overwrite_nil, Z.add_0_r. reflexivity.
  - destruct (plain_cons c t Hp) as (E0 & E1 & E2 & Hp').
    cbn [length] in *. rewrite Nat2Z.inj_succ in *.
    cbn [app getFunction_loop]. rewrite E0, E1, E2.
    destruct (Z.eqb_spec s sMax) as [?|_]; [lia|].
    change (1 =? 1) with true. cbv iota. rewrite put_if_room_spec by lia.
    destruct (Z.ltb_spec s sMax); [|lia].
    rewrite IH;
      [|exact Hp'|lia|lia|rewrite overwrite_length by (cbn [length]; lia); exact Hm|lia].
    replace (Z.to_nat (s + 1)) with (Z.to_nat s + length [c])%nat
      by (cbn [length]; lia).
    rewrite overwrite_app by (cbn [length]; lia).
    cbn [app]. f_equal. lia.
Qed.

(** X8.  For a source of the form [pre(name)post], with no parenthesis and
    no terminator inside the three parts, and a buffer with room for the
    name, the arrow and one more character, [getFunction] writes the name
    followed by "<<-" at the offset, leaves the rest of the buffer alone
    and returns the index after the arrow. *)
Theorem getFunction_extracts (szDst pre name post : list ascii) (sOffset sMax : Z) :
  plain pre -> plain name -> plain post ->
  0 <= sOffset ->
  sOffset + Z.of_nat (length name) + 3 < sMax -> sMax <= Z.of_nat (length szDst) ->
  sMax < 2 ^ 64 ->
  getFunction szDst sOffset (pre ++ "("%char :: name ++ ")"%char :: post) sMax
  = Some (overwrite szDst (Z.to_nat sOffset) (name ++ arrow),
          sOffset + Z.of_nat (length name) + 3).
Proof.
  intros Hpre Hname Hpost Hs Hfit Hm Hw. unfold getFunction.
  rewrite getFunction_loop_skip; [|exact Hpre|lia|left; lia].
  rewrite getFunction_loop_open by lia.
  rewrite (getFunction_loop_copy sMax (")"%char :: post) name szDst sOffset);
    try assumption; try lia.
  rewrite getFunction_loop_close;
    [|lia|lia|rewrite overwrite_length by lia; exact Hm|lia].
  rewrite <- (app_nil_r post).
  rewrite getFunction_loop_skip; [|exact Hpost|lia|left; lia].
  cbn [getFunction_loop].
  replace (Z.to_nat (sOffset + Z.of_nat (length name)))
    with (Z.to_nat sOffset + length name)%nat by lia.
  rewrite overwrite_app by lia. repeat f_equal; lia.
Qed.

(** On a run: the symbol of a backtrace line, written at offset 2. *)
Lemma getFunction_extracts_witness :
  getFunction (repeat "."%char 12) 2
              (["."; "/"; "a"] ++ "(" :: ["f"; "+"; "1"] ++ ")" :: [" "; "["; "0"; "]"])%char
              12
  = Some ([".";"."; "f"; "+"; "1"; "<"; "<"; "-"; "."; "."; "."; "."]%char, 8).
Proof.
  refine (getFunction_extracts (repeat "."%char 12) ["."; "/"; "a"]%char
            ["f"; "+"; "1"]%char [" "; "["; "0"; "]"]%char 2 12 _ _ _ _ _ _ _);
    try (cbn; lia);
    intros c Hc; cbn in Hc;
    repeat (destruct Hc as [<-|Hc]; [repeat split; discriminate|]); destruct Hc.
Defined.

(** X9.  When the name between the parentheses does not fit, the output
    is cut: the buffer is filled up to [sMax] with the characters of the
    name that fit, the character at [sMax - 1] is then replaced by the
    terminator, and the call returns [sMax]. *)
Theorem getFunction_truncates (szDst pre name post : list ascii) (sOffset sMax : Z) :
  plain pre -> plain name ->
  0 <= sOffset < sMax -> sMax <= sOffset + Z.of_nat (length name) ->
  sMax <= Z.of_nat (length szDst) -> sMax < 2 ^ 64 ->
  getFunction szDst sOffset (pre ++ "("%char :: name ++ ")"%char :: post) sMax
  = Some (overwrite
            (overwrite szDst (Z.to_nat sOffset)
                       (firstn (Z.to_nat (sMax - sOffset)) name))
            (Z.to_nat (sMax - 1)) [zero],
          sMax).
Proof.
  intros Hpre Hname Hs Hlong Hm Hw. unfold getFunction.
  rewrite getFunction_loop_skip; [|exact Hpre|lia|left; lia].
  rewrite getFunction_loop_open by lia.
  set (k := Z.to_nat (sMax - sOffset)).
  assert (Hk : (k <= length name)%nat) by (unfold k; lia).
  rewrite <- (firstn_skipn k name) at 1. rewrite <- app_assoc.
  assert (Lk : length (firstn k name) = k) by (rewrite length_firstn; lia).
  assert (Pk : plain (firstn k name)).
  { intros c Hc. apply Hname. rewrite <- (firstn_skipn k name).
    apply in_or_app. now left. }
  rewrite (getFunction_loop_copy sMax _ (firstn k name) szDst sOffset);
    [|exact Pk|lia|rewrite Lk; unfold k; lia|exact Hm|exact Hw].
  rewrite Lk. replace (sOffset + Z.of_nat k) with sMax by (unfold k; lia).
  set (d1 := overwrite szDst (Z.to_nat sOffset) (firstn k name)).
  assert (L1 : length d1 = length szDst) by (apply overwrite_length; lia).
  assert (Hnext : exists c rest, skipn k name ++ ")"%char :: post = c :: rest /\
                                 Ascii.eqb c zero = false).
  { destruct (skipn k name) as [|c r] eqn:Ek.
    - exists ")"%char, post. split; reflexivity.
    - exists c, (r ++ ")"%char :: post). split; [reflexivity|].
      apply Ascii.eqb_neq. apply Hname. rewrite <- (firstn_skipn k name), Ek.
      apply in_or_app. right. now left. }
  destruct Hnext as (c & rest & -> & Ec).
  cbn [getFunction_loop]. rewrite Ec, Z.eqb_refl.
  rewrite wrap64_small, buf_store_some by lia. reflexivity.
Qed.

(** On a run: a name of six characters and room for four. *)
Lemma getFunction_truncates_witness :
  getFunction (repeat "."%char 6) 2
              (["a"] ++ "(" :: ["f"; "o"; "o"; "b"; "a"; "r"] ++ ")" :: [])%char 6
  = Some ([".";"."; "f"; "o"; "o"; zero]%char, 6).
Proof.
  refine (getFunction_truncates (repeat "."%char 6) ["a"]%char
            ["f"; "o"; "o"; "b"; "a"; "r"]%char [] 2 6 _ _ _ _ _ _);
    try (cbn; lia);
    intros c Hc; cbn in Hc;
    repeat (destruct Hc as [<-|Hc]; [repeat split; discriminate|]); destruct Hc.
Defined.

(** ** What allocation and release leave alone *)

Lemma changed_only_anywhere (m m' : memory) (l : list Z) (t : Z) :
  changed_only m m' 0 0 l -> changed_only m m' t t l.
Proof. intros C x _. apply C. lia. Qed.

Lemma changed_only_records (m m' : memory) (lo hi : Z) (l l' : list Z) :
  changed_only m m' lo hi l -> layout m lo l -> incl l' l -> same_records m m' l'.
Proof.
  intros C L I h Hh.
  destruct (changed_only_block _ _ _ _ _ h C L (I h Hh)) as (Sb & _ & K).
  split; [now apply same_block_size|].
  split; [exact (changed_only_allocator _ _ _ _ _ _ C L (I h Hh))|].
  split; [now apply same_block_end|exact K].
Qed.

Lemma same_records_trans (m m1 m2 : memory) (l : list Z) :
  same_records m m1 l -> same_records m1 m2 l -> same_records m m2 l.
Proof.
  intros A B h Hh. destruct (A h Hh) as (A1 & A2 & A3 & A4).
  destruct (B h Hh) as (B1 & B2 & B3 & B4).
  split; [congruence|]. split; [congruence|]. split; [congruence|].
  intros x Hx. rewrite B4 by (rewrite A3; exact Hx). now apply A4.
Qed.

Lemma same_records_usage (m m' : memory) (l : list Z) :
  same_records m m' l ->
  usage_of m' l = usage_of m l /\ real_usage_of m' l = real_usage_of m l /\
  shown_lines m' l = shown_lines m l.
Proof.
  induction l as [|a t IH]; intros H; [repeat split; reflexivity|].
  destruct (H a (or_introl eq_refl)) as (E1 & E2 & _).
  destruct IH as (I1 & I2 & I3); [intros h Hh; apply H; now right|].
  unfold shown_lines in *.
  cbn [usage_of real_usage_of fold_right filter].
  fold (usage_of m' t) (usage_of m t) (real_usage_of m' t) (real_usage_of m t).
  unfold shown at 1 3. rewrite E1, E2, I1, I2.
  repeat split. fold (shown m a).
  destruct (shown m a); cbn [map]; [|exact I3].
  f_equal; [|exact I3]. unfold address_line. now rewrite E1, E2.
Qed.

(** X10.  A successful [malloc] leaves the other tracked blocks alone:
    each of them keeps its size and attribution, and keeps every byte from
    its guard words to the end of its cap, the payload included. *)
Theorem malloc_preserves_other_blocks (st : state) (l : list Z) (size : Z) :
  wf st l -> 0 <= size <= MAX_PAYLOAD ->
  org_brk st + adjSize_of size 1 <= org_limit st ->
  exists st',
    malloc st size = Done (payload_of (org_brk st), st') /\
    wf st' (org_brk st :: l) /\
    forall h, In h l ->
      rec_size (mem st') h = rec_size (mem st) h /\
      rec_allocator (mem st') h = rec_allocator (mem st) h /\
      forall x, h + off_ullFixedValues <= x < block_end (mem st) h ->
                mem st' x = mem st x.
Proof.
  intros W Hs Hfit.
  destruct (alloc_new_spec st l size MALLOC W Hs Hfit)
    as (st' & E & W' & _ & _ & _ & _ & Ch & _).
  exists st'. split; [unfold malloc; now rewrite (wf_init _ _ W)|].
  split; [exact W'|]. intros h Hh.
  destruct (changed_only_records _ _ _ _ l l Ch (wf_layout _ _ W) (incl_refl l) h Hh)
    as (E1 & E2 & _ & E4).
  auto.
Qed.

(** On a run: [init], [malloc (3)], then [malloc (5)]; the three bytes of
    the first block are where they were. *)
Lemma malloc_preserves_other_blocks_witness :
  exists st',
    malloc (after_malloc 3) 5 = Done (payload_of (nth_header 2), st') /\
    forall x, payload_of (nth_header 1) <= x < payload_of (nth_header 1) + 3 ->
              mem st' x = mem (after_malloc 3) x.
Proof.
  destruct (wf_after_malloc 3 ltac:(lia)) as (_ & W & _).
  destruct (malloc_preserves_other_blocks (after_malloc 3) _ 5 W) as (st' & E & _ & K).
  - unfold MAX_PAYLOAD. lia.
  - vm_compute. discriminate.
  - exists st'. split; [exact E|]. intros x Hx.
    destruct (K (nth_header 1) (or_introl eq_refl)) as (_ & _ & F). apply F.
    assert (Ee : block_end (mem (after_malloc 3)) (nth_header 1) = nth_header 2)
      by (vm_compute; reflexivity).
    rewrite Ee. unfold payload_of, nth_header in *. consts. lia.
Defined.

Lemma usage_of_app (m : memory) (l2 : list Z) : forall l1 : list Z,
  usage_of m (l1 ++ l2) = usage_of m l1 + usage_of m l2 /\
  real_usage_of m (l1 ++ l2) = real_usage_of m l1 + real_usage_of m l2.
Proof.
  induction l1 as [|a t [I1 I2]]; cbn [app usage_of real_usage_of fold_right].
  - split; reflexivity.
  - fold (usage_of m (t ++ l2)) (usage_of m t) (real_usage_of m (t ++ l2))
         (real_usage_of m t). rewrite I1, I2. split; lia.
Qed.

(** X11.  [free] of a tracked block takes exactly that block out of the
    figures: [mem_get_usage] goes down by its size (by nothing if the
    block has no attribution), [mem_get_real_usage] by its size plus header
    and cap, the count by one, and every other tracked block keeps its
    bytes from the guard words to the end of the cap. *)
Theorem free_accounting (st : state) (l1 l2 : list Z) (h : Z) (fuel : nat) :
  wf st (l1 ++ h :: l2) -> gi_hookDisabled st = 0 ->
  (length (l1 ++ l2) < fuel)%nat ->
  exists st' u r,
    free st (payload_of h) = Done st' /\
    mem_get_usage (S fuel) st = Done u /\
    mem_get_real_usage (S fuel) st = Done r /\
    mem_get_usage fuel st'
    = Done (u - (if rec_allocator (mem st) h =? 0 then 0 else rec_size (mem st) h)) /\
    mem_get_real_usage fuel st'
    = Done (r - (rec_size (mem st) h + sizeof_memoryHeader + sizeof_memoryCap)) /\
    mem_get_alloc_count st' = wrap_int (mem_get_alloc_count st - 1) /\
    forall h' x, In h' (l1 ++ l2) ->
      h' + off_ullFixedValues <= x < block_end (mem st) h' -> mem st' x = mem st x.
Proof.
  intros W Hk Hf.
  destruct (free_tracked st l1 l2 h W) as (st' & E & W' & C & _ & _ & Ch).
  assert (Hincl : incl (l1 ++ l2) (l1 ++ h :: l2)).
  { intros x Hx. apply in_app_or in Hx. apply in_or_app.
    destruct Hx; [now left|right; now right]. }
  pose proof (changed_only_records _ _ _ _ _ (l1 ++ l2)
                (changed_only_anywhere _ _ _ (org_brk st) Ch) (wf_layout _ _ W) Hincl)
    as R.
  destruct (same_records_usage _ _ _ R) as (U & RU & _).
  assert (Hlen : (length (l1 ++ h :: l2) < S fuel)%nat)
    by (rewrite length_app in *; cbn [length]; lia).
  exists st', (usage_of (mem st) (l1 ++ h :: l2)),
         (real_usage_of (mem st) (l1 ++ h :: l2)).
  split; [exact E|].
  split; [exact (mem_get_usage_spec _ _ _ W Hlen)|].
  split; [exact (mem_get_real_usage_spec _ _ _ W Hlen)|].
  rewrite (mem_get_usage_spec _ _ fuel W' Hf), (mem_get_real_usage_spec _ _ fuel W' Hf).
  rewrite U, RU.
  destruct (usage_of_app (mem st) (h :: l2) l1) as [A1 A2].
  destruct (usage_of_app (mem st) l2 l1) as [B1 B2].
  rewrite A1, A2, B1, B2. cbn [usage_of real_usage_of fold_right].
  fold (usage_of (mem st) l2) (real_usage_of (mem st) l2).
  split; [f_equal; lia|]. split; [f_equal; lia|].
  split; [unfold mem_get_alloc_count; rewrite C, Hk; reflexivity|].
  intros h' x Hh' Hx. exact (proj2 (proj2 (proj2 (R h' Hh'))) x Hx).
Qed.

(** On a run: [init], [malloc (3)], then [free] of the block of 3 bytes. *)
Lemma free_accounting_witness :
  exists st',
    free (after_malloc 3) (payload_of (nth_header 1)) = Done st' /\
    mem_get_usage 3 (after_malloc 3) = Done 3 /\
    mem_get_usage 2 st' = Done 0 /\
    mem_get_alloc_count st' = 1.
Proof.
  destruct (wf_after_malloc 3 ltac:(lia)) as (_ & W & K).
  destruct (free_accounting (after_malloc 3) [] [nth_header 0] (nth_header 1) 2 W K)
    as (st' & u & r & E & U & _ & U' & _ & C & _); [cbn; lia|].
  assert (Eu : u = 3) by (vm_compute in U; now injection U as <-).
  subst u. exists st'. split; [exact E|]. split; [exact U|]. split.
  - rewrite U'. f_equal.
  - rewrite C. reflexivity.
Defined.

(** X12.  [malloc] followed by [free] of the pointer it returned leaves the
    library where it was: the same list, the same count, the same answers
    of [mem_get_usage], [mem_get_real_usage] and [mem_show_allocations],
    and every tracked block with the bytes it had from its guard words to
    the end of its cap. *)
Theorem malloc_free_restores (st : state) (l : list Z) (S0 : Z) (fuel : nat) :
  wf st l -> 0 <= S0 <= MAX_PAYLOAD -> (length l < fuel)%nat ->
  Z.of_nat (length l) <= INT_MAX ->
  exists p st1 st2,
    malloc st S0 = Done (p, st1) /\ free st1 p = Done st2 /\
    wf st2 l /\
    mem_get_alloc_count st2 = mem_get_alloc_count st /\
    mem_get_usage fuel st2 = mem_get_usage fuel st /\
    mem_get_real_usage fuel st2 = mem_get_real_usage fuel st /\
    mem_show_allocations fuel st2 = mem_show_allocations fuel st /\
    forall h x, In h l ->
      h + off_ullFixedValues <= x < block_end (mem st) h -> mem st2 x = mem st x.
Proof.
  intros W Hs Hf Hb.
  destruct (free_malloc_roundtrip st l S0 W Hs) as (p & st1 & st2 & E1 & E2 & C).
  exists p, st1, st2. split; [exact E1|]. split; [exact E2|].
  destruct (Z_le_gt_dec (org_brk st + adjSize_of S0 1) (org_limit st)) as [Hfit|Hfull].
  - destruct (alloc_new_spec st l S0 MALLOC W Hs Hfit)
      as (st1' & E1' & W1 & _ & _ & _ & _ & Ch1 & _).
    unfold malloc in E1. rewrite (wf_init _ _ W), E1' in E1. injection E1 as <- <-.
    destruct (free_tracked st1' [] l (org_brk st) W1) as (st2' & E2' & W2 & _ & _ & _ & Ch2).
    rewrite E2' in E2. injection E2 as <-. cbn [app] in *.
    pose proof (changed_only_records _ _ _ _ l l Ch1 (wf_layout _ _ W) (incl_refl l))
      as R1.
    assert (Hincl : incl l (org_brk st :: l)) by (intros x Hx; now right).
    pose proof (changed_only_records _ _ _ _ _ l
                  (changed_only_anywhere _ _ _ (org_brk st1') Ch2)
                  (wf_layout _ _ W1) Hincl) as R2.
    pose proof (same_records_trans _ _ _ _ R1 R2) as R.
    destruct (same_records_usage _ _ _ R) as (U & RU & Sh).
    split; [exact W2|]. split; [exact C|].
    rewrite (mem_get_usage_spec _ _ fuel W2 Hf), (mem_get_usage_spec _ _ fuel W Hf).
    rewrite (mem_get_real_usage_spec _ _ fuel W2 Hf),
            (mem_get_real_usage_spec _ _ fuel W Hf).
    rewrite (mem_show_allocations_spec _ _ fuel W2 Hf Hb),
            (mem_show_allocations_spec _ _ fuel W Hf Hb).
    unfold mem_get_alloc_count in C. unfold show_output. rewrite U, RU, Sh, C.
    conjs; try reflexivity.
    intros h x Hh Hx. exact (proj2 (proj2 (proj2 (R h Hh))) x Hx).
  - unfold malloc in E1. rewrite (wf_init _ _ W) in E1.
    rewrite internalRealloc_exhausted in E1 by lia. injection E1 as <- <-.
    cbn in E2. injection E2 as <-.
    conjs; try reflexivity. exact W.
Qed.

(** On a run: [init], [malloc (3)], then [malloc (5)] and [free] of it. *)
Lemma malloc_free_restores_witness :
  exists p st1 st2,
    malloc (after_malloc 3) 5 = Done (p, st1) /\ free st1 p = Done st2 /\
    mem_get_alloc_count st2 = 2 /\
    mem_show_allocations 3 st2 = mem_show_allocations 3 (after_malloc 3).
Proof.
  destruct (wf_after_malloc 3 ltac:(lia)) as (_ & W & _).
  destruct (malloc_free_restores (after_malloc 3) _ 5 3 W)
    as (p & st1 & st2 & E1 & E2 & _ & C & _ & _ & Sh & _).
  - unfold MAX_PAYLOAD. lia.
  - cbn. lia.
  - cbn. unfold INT_MAX. lia.
  - exists p, st1, st2. split; [exact E1|]. split; [exact E2|].
    split; [rewrite C; reflexivity|exact Sh].
Defined.

(** ** What the integrity check reports, and what it does not look at *)

Lemma verify_pad_first_bad (m : memory) (ucPtr size : Z) : forall (fuel : nat) (s x : Z),
  0 <= ucPtr -> 0 <= s -> ucPtr + s + pad_len (ucPtr + s) < 2 ^ 64 ->
  pad_len (ucPtr + s) < Z.of_nat fuel ->
  ucPtr + s <= x < ucPtr + s + pad_len (ucPtr + s) ->
  (forall y, ucPtr + s <= y < x -> loadb m y = y mod 256) ->
  loadb m x <> x mod 256 ->
  verify_pad fuel m ucPtr size s
  = Aborted (EndOverwritten (wrap64 (1 + (x - ucPtr) - size))).
Proof.
  induction fuel as [|f IH]; intros s x Hu Hs Hb Hf Hx Hok Hne.
  - pose proof (pad_len_range (ucPtr + s)). lia.
  - rewrite Nat2Z.inj_succ in Hf. cbn [verify_pad]. unfold sizeof_ull.
    pose proof (pad_len_range (ucPtr + s)) as Hr.
    rewrite (wrap64_small (ucPtr + s)) by lia.
    destruct (Z.eqb_spec ((ucPtr + s) mod 8) 0) as [E|E].
    + rewrite pad_len_0 in Hx by exact E. lia.
    + pose proof (pad_len_succ _ E) as Hk.
      pose proof (pad_len_range (ucPtr + s + 1)).
      rewrite land_255.
      destruct (Z.eq_dec x (ucPtr + s)) as [->|Hd].
      * destruct (Z.eqb_spec (loadb m (ucPtr + s)) ((ucPtr + s) mod 256)) as [E2|_];
          [contradiction|].
        do 3 f_equal. lia.
      * rewrite (Hok (ucPtr + s)) by lia. rewrite Z.eqb_refl.
        rewrite (wrap64_small (s + 1)) by lia.
        assert (Ea : ucPtr + (s + 1) = ucPtr + s + 1) by lia.
        apply (IH (s + 1) x); rewrite ?Ea; try lia; try exact Hne.
        intros y Hy. apply Hok. lia.
Qed.

(** What [verifyIntegrity] answers when one byte of a sound block, outside
    its payload, has been given another value. *)
Lemma verifyIntegrity_reason (m : memory) (h a v : Z) :
  block_ok m h -> h + off_ullFixedValues <= a < block_end m h ->
  ~ (payload_of h <= a < payload_end m h) ->
  v mod 256 <> loadb m a ->
  verifyIntegrity (storeb m a v) (payload_of h)
  = Aborted (if a <? payload_of h
             then TopGuardCorrupt ((a - (h + off_ullFixedValues)) / 8)
             else if a <? cap_of m h
                  then EndOverwritten (a - payload_end m h + 1)
                  else BottomGuardCorrupt ((a - cap_of m h) / 8)).
Proof.
  intros (Hal & Hpos & Hend & Ht0 & Ht1 & Hpad & Hc0 & Hc1) Ha Hout Hv.
  pose proof (block_end_lower m h) as Hlow.
  pose proof (rec_size_range m h) as Hsz.
  pose proof (pad_len_range (payload_end m h)) as Hpl.
  set (m' := storeb m a v).
  unfold verifyIntegrity.
  replace (wrap64 (payload_of h - sizeof_memoryHeader)) with h
    by (consts; rewrite wrap64_small; lia).
  assert (Es : load8 m' (h + off_size) = rec_size m h)
    by (unfold m', rec_size; apply load8_storeb_other; consts; lia).
  rewrite Es.
  cbn [check_guards MEM_HEADER_GUARD_LEN bind].
  replace (h + off_ullFixedValues + sizeof_ull * 0) with (h + off_ullFixedValues)
    by (consts; lia).
  replace (h + off_ullFixedValues + sizeof_ull * (0 + 1))
    with (h + off_ullFixedValues + 8) by (consts; lia).
  destruct (Z.ltb_spec a (payload_of h)) as [Hhead|Hbody].
  - (* a head guard *)
    destruct (Z_lt_ge_dec a (h + off_ullFixedValues + 8)) as [H0|H1].
    + pose proof (load8_storeb_changed m a v (h + off_ullFixedValues) ltac:(lia) Hv) as Hne.
      fold m' in Hne. rewrite Ht0 in Hne.
      destruct (Z.eqb_spec (load8 m' (h + off_ullFixedValues)) GUARD_BAND_TOP);
        [contradiction|].
      rewrite Z.div_small by lia. reflexivity.
    + unfold m' at 1. rewrite load8_storeb_other by lia. rewrite Ht0, Z.eqb_refl.
      pose proof (load8_storeb_changed m a v (h + off_ullFixedValues + 8)
                    ltac:(consts; lia) Hv) as Hne.
      fold m' in Hne. rewrite Ht1 in Hne.
      destruct (Z.eqb_spec (load8 m' (h + off_ullFixedValues + 8)) GUARD_BAND_TOP);
        [contradiction|].
      replace ((a - (h + off_ullFixedValues)) / 8) with 1; [reflexivity|].
      apply (Z.div_unique _ 8 1 (a - (h + off_ullFixedValues) - 8)); consts; lia.
  - assert (Hpe : payload_end m h <= a) by lia.
    unfold m' at 1. rewrite load8_storeb_other by (consts; lia).
    rewrite Ht0, Z.eqb_refl.
    unfold m' at 1. rewrite load8_storeb_other by (consts; lia).
    rewrite Ht1, Z.eqb_refl. cbn [bind].
    destruct (Z.ltb_spec a (cap_of m h)) as [Hlt|Hge].
    + rewrite (verify_pad_first_bad m' (payload_of h) (rec_size m h) 8 (rec_size m h) a);
        try (consts; lia).
      * cbn [bind]. do 2 f_equal. unfold payload_end in *.
        rewrite wrap64_small by (consts; lia). lia.
      * intros y Hy. unfold m', loadb. rewrite storeb_neq by lia.
        apply Hpad. consts. lia.
      * unfold m'. rewrite loadb_storeb_eq. rewrite <- (Hpad a) by lia. exact Hv.
    + rewrite (verify_pad_ok m' (payload_of h) _ 8 (rec_size m h)); try (consts; lia).
      2:{ intros x Hx. unfold m', loadb. rewrite storeb_neq by (consts; lia).
          apply Hpad. consts. lia. }
      cbn [bind check_guards MEM_CAP_GUARD_LEN].
      replace (wrap64 (payload_of h + (rec_size m h
                + pad_len (payload_of h + rec_size m h))))
        with (cap_of m h) by (consts; rewrite wrap64_small; lia).
      replace (cap_of m h + sizeof_ull * 0) with (cap_of m h) by (consts; lia).
      replace (cap_of m h + sizeof_ull * (0 + 1)) with (cap_of m h + 8) by (consts; lia).
      destruct (Z_lt_ge_dec a (cap_of m h + 8)) as [Hlt8|Hge8].
      * pose proof (load8_storeb_changed m a v (cap_of m h) ltac:(lia) Hv) as Hne.
        fold m' in Hne. rewrite Hc0 in Hne.
        destruct (Z.eqb_spec (load8 m' (cap_of m h)) GUARD_BAND_BOTTOM);
          [contradiction|].
        rewrite Z.div_small by lia. reflexivity.
      * unfold m' at 1. rewrite load8_storeb_other by lia. rewrite Hc0, Z.eqb_refl.
        assert (Ha16 : cap_of m h + 8 <= a < cap_of m h + 8 + 8)
          by (unfold block_end, sizeof_memoryCap in Ha; lia).
        pose proof (load8_storeb_changed m a v (cap_of m h + 8) Ha16 Hv) as Hne.
        fold m' in Hne. rewrite Hc1 in Hne.
        destruct (Z.eqb_spec (load8 m' (cap_of m h + 8)) GUARD_BAND_BOTTOM);
          [contradiction|].
        replace ((a - cap_of m h) / 8) with 1; [reflexivity|].
        apply (Z.div_unique _ 8 1 (a - cap_of m h - 8)); lia.
Qed.

Lemma show_loop_abort (m : memory) (count : Z) :
  forall (l1 : list Z) (l2 : list Z) (h : Z) (r : abort_reason) (fuel : nat)
         (prevp p iCount : Z) (out : list fprintf_call),
  chain m prevp p (l1 ++ h :: l2) -> Forall (block_ok m) l1 ->
  h <> 0 -> verifyIntegrity m (wrap64 (h + sizeof_memoryHeader)) = Aborted r ->
  (length l1 < fuel)%nat ->
  show_loop fuel m count p iCount out = Aborted r.
Proof.
  induction l1 as [|a t IH]; intros l2 h r fuel prevp p iCount out Hc Hok Hnz Hv Hf;
    (destruct fuel as [|f]; [cbn in Hf; lia|]); cbn [show_loop].
  - destruct Hc as (-> & _). destruct (Z.eqb_spec h 0); [contradiction|].
    now rewrite Hv.
  - destruct Hc as (-> & _ & Hc). inversion Hok as [|? ? Hb Hok']; subst.
    destruct (step_member m a Hb) as [E1 E2]. rewrite E1, E2. cbn [bind].
    destruct (negb _ && negb _);
      apply (IH l2 h r f _ _ _ _ Hc Hok' Hnz Hv); cbn in Hf; lia.
Qed.

(** A byte of a tracked block, from its guard words on, that is given
    another value: the list still links the same headers, the blocks before
    this one are sound, and whatever [verifyIntegrity] answers for this
    block is what [free] and the traversals end with. *)
Lemma corrupt_block_detected (st : state) (l : list Z) (h a v : Z) (r : abort_reason) :
  wf st l -> In h l -> h + off_ullFixedValues <= a < block_end (mem st) h ->
  verifyIntegrity (storeb (mem st) a v) (payload_of h) = Aborted r ->
  free (poke st a v) (payload_of h) = Aborted r /\
  forall fuel, (length l < fuel)%nat ->
    mem_check_integrity fuel (poke st a v) = Aborted r /\
    mem_show_allocations fuel (poke st a v) = Aborted r.
Proof.
  intros Hwf Hin Ha Er.
  destruct (wf_member st l h Hwf Hin) as (Hb & Hbase & Hend & Hpz & Hw & Hnz).
  pose proof (block_end_lower (mem st) h) as Hlow.
  split.
  - unfold free. destruct (Z.eqb_spec (payload_of h) 0); [contradiction|].
    unfold internalFree. cbn [poke set_mem mem]. now rewrite Er.
  - intros fuel Hf.
    destruct (in_split h l Hin) as (l1 & l2 & ->).
    destruct Hwf as [Hinit Hreg Hlay Hok Hbrk Hlim Hcnt].
    pose proof (layout_NoDup _ _ _ Hlay) as Hnd.
    assert (Hother : forall h' x, In h' (l1 ++ h :: l2) -> h' <> h ->
                       h' <= x < block_end (mem st) h' -> x <> a).
    { intros h' x Hh' Hd Hx.
      destruct (layout_disjoint _ _ _ h' h Hlay Hh' Hin Hd); consts; lia. }
    assert (Hlinks : same_links (mem st) (storeb (mem st) a v) (l1 ++ h :: l2)).
    { intros h' x Hh' Hx. apply storeb_neq.
      destruct (Z.eq_dec h' h) as [->|Hd].
      - consts. lia.
      - apply (Hother h' x Hh' Hd). pose proof (block_end_lower (mem st) h').
        consts. lia. }
    assert (Hreg' : registry (storeb (mem st) a v) (l1 ++ h :: l2)).
    { apply (registry_same (mem st)); [exact Hlinks| |exact Hreg].
      intros x Hx. apply storeb_neq. consts. lia. }
    assert (Hok1 : Forall (block_ok (storeb (mem st) a v)) l1).
    { rewrite Forall_forall in *. intros h' Hh'.
      assert (Hh'' : In h' (l1 ++ h :: l2)) by (apply in_or_app; now left).
      apply (block_ok_same (mem st)); [|exact (Hok h' Hh'')].
      intros x Hx. apply storeb_neq. apply (Hother h' x Hh'').
      * intros ->. apply NoDup_remove_2 in Hnd. apply Hnd. apply in_or_app. now left.
      * pose proof (block_end_lower (mem st) h'). consts. lia. }
    assert (Hl1 : (length l1 < fuel)%nat) by (rewrite length_app in Hf; cbn in Hf; lia).
    split.
    + unfold mem_check_integrity. cbn [poke set_mem mem].
      apply (check_loop_abort _ l1 l2 h r fuel gp_listHead);
        [exact Hreg'|exact Hok1|exact Hnz|rewrite Hw; exact Er|exact Hl1].
    + unfold mem_show_allocations. cbn [poke set_mem mem gi_allocCount].
      rewrite (show_loop_abort _ _ l1 l2 h r fuel gp_listHead _ 0 []
                 Hreg' Hok1 Hnz ltac:(rewrite Hw; exact Er) Hl1).
      reflexivity.
Qed.

(** X13.  A byte written just before the payload of a tracked block, into
    one of the two guard words of its header, with a value other than the
    one it holds, makes the next [free] of the block and the next
    [mem_check_integrity] abort, and the report names the guard word that
    was hit: 0 for the eight bytes from 16 to 9 before the payload, 1 for
    the eight bytes just before it. *)
Theorem underrun_detected (st : state) (l : list Z) (h k v : Z) :
  wf st l -> In h l -> 1 <= k <= 16 -> 0 <= v < 256 ->
  v <> loadb (mem st) (payload_of h - k) ->
  free (poke st (payload_of h - k) v) (payload_of h)
  = Aborted (TopGuardCorrupt (if 8 <? k then 0 else 1)) /\
  forall fuel, (length l < fuel)%nat ->
    mem_check_integrity fuel (poke st (payload_of h - k) v)
    = Aborted (TopGuardCorrupt (if 8 <? k then 0 else 1)).
Proof.
  intros Hwf Hin Hk Hv Hne.
  destruct (wf_member st l h Hwf Hin) as (Hb & _).
  pose proof (block_end_lower (mem st) h) as Hlow.
  pose proof (rec_size_range (mem st) h) as Hsz.
  set (a := payload_of h - k) in *.
  assert (Ha : h + off_ullFixedValues <= a < block_end (mem st) h)
    by (unfold a; consts; lia).
  assert (Er : verifyIntegrity (storeb (mem st) a v) (payload_of h)
               = Aborted (TopGuardCorrupt (if 8 <? k then 0 else 1))).
  { rewrite (verifyIntegrity_reason (mem st) h a v Hb Ha);
      [|unfold a; consts; lia|rewrite Z.mod_small by lia; exact Hne].
    destruct (Z.ltb_spec a (payload_of h)); [|unfold a in *; lia].
    do 2 f_equal. destruct (Z.ltb_spec 8 k).
    - apply Z.div_small. unfold a. consts. lia.
    - symmetry. apply (Z.div_unique _ 8 1 (8 - k)); unfold a; consts; lia. }
  destruct (corrupt_block_detected st l h a v _ Hwf Hin Ha Er) as [F C].
  split; [exact F|]. intros fuel Hf. exact (proj1 (C fuel Hf)).
Qed.

(** On a run: [init], [malloc (3)], then a zero written into the byte just
    before the payload. *)
Lemma underrun_detected_witness :
  free (poke (after_malloc 3) (payload_of (nth_header 1) - 1) 0)
       (payload_of (nth_header 1))
  = Aborted (TopGuardCorrupt 1).
Proof.
  destruct (wf_after_malloc 3 ltac:(lia)) as (_ & W & _).
  refine (proj1 (underrun_detected (after_malloc 3) _ (nth_header 1) 1 0 W _ _ _ _)).
  - now left.
  - lia.
  - lia.
  - vm_compute. discriminate.
Defined.

(** X14.  A byte written past the payload of a tracked block with a value
    other than the one it holds is reported by what it hit: in the padding,
    the abort says how many bytes beyond the end of the payload the byte
    lies; in the cap, it names the guard word, 0 or 1.  [free],
    [mem_check_integrity] and [mem_show_allocations] all end with that
    report. *)
Theorem overrun_report (st : state) (l : list Z) (h a v : Z) :
  wf st l -> In h l ->
  payload_end (mem st) h <= a < block_end (mem st) h ->
  0 <= v < 256 -> v <> loadb (mem st) a ->
  let r := if a <? cap_of (mem st) h
           then EndOverwritten (a - payload_end (mem st) h + 1)
           else BottomGuardCorrupt ((a - cap_of (mem st) h) / 8) in
  free (poke st a v) (payload_of h) = Aborted r /\
  forall fuel, (length l < fuel)%nat ->
    mem_check_integrity fuel (poke st a v) = Aborted r /\
    mem_show_allocations fuel (poke st a v) = Aborted r.
Proof.
  intros Hwf Hin Ha Hv Hne r.
  destruct (wf_member st l h Hwf Hin) as (Hb & _).
  pose proof (rec_size_range (mem st) h) as Hsz.
  assert (Ha' : h + off_ullFixedValues <= a < block_end (mem st) h)
    by (consts; lia).
  apply (corrupt_block_detected st l h a v r Hwf Hin Ha').
  rewrite (verifyIntegrity_reason (mem st) h a v Hb Ha');
    [|lia|rewrite Z.mod_small by lia; exact Hne].
  destruct (Z.ltb_spec a (payload_of h)); [consts; lia|reflexivity].
Qed.

(** On a run: [init], [malloc (3)], then a zero written five bytes past
    the payload, the last byte of the padding. *)
Lemma overrun_report_witness :
  free (poke (after_malloc 3) (payload_of (nth_header 1) + 7) 0)
       (payload_of (nth_header 1))
  = Aborted (EndOverwritten 5).
Proof.
  destruct (wf_after_malloc 3 ltac:(lia)) as (_ & W & _).
  refine (proj1 (overrun_report (after_malloc 3) _ (nth_header 1)
                   (payload_of (nth_header 1) + 7) 0 W _ _ _ _)).
  - now left.
  - split; [vm_compute; discriminate|vm_compute; reflexivity].
  - lia.
  - vm_compute. discriminate.
Defined.

(** X15.  [verifyIntegrity] looks at the guard words, the padding and the
    cap, and reads the size; the [szAllocator] and [threadId] fields of the
    header are not covered.  Whatever is written into these two fields of a
    tracked block, [mem_check_integrity] completes, [free] of the block
    completes, and [mem_get_real_usage] returns what it returned before. *)
Theorem header_fields_unchecked (st : state) (l : list Z) (h a v : Z) (fuel : nat) :
  wf st l -> In h l -> (length l < fuel)%nat ->
  h + off_szAllocator <= a < h + off_size \/
  h + off_threadId <= a < h + off_le_next ->
  mem_check_integrity fuel (poke st a v) = Done tt /\
  mem_get_real_usage fuel (poke st a v) = mem_get_real_usage fuel st /\
  exists st', free (poke st a v) (payload_of h) = Done st'.
Proof.
  intros W Hin Hf Ha.
  destruct (unchecked_write_wf st l h (storeb (mem st) a v) W Hin) as [W' E].
  { intros x Hx. apply storeb_neq. intros ->. apply Hx. consts. lia. }
  change (set_mem st (storeb (mem st) a v)) with (poke st a v) in W'.
  split; [exact (mem_check_integrity_spec _ _ fuel W' Hf)|]. split.
  - rewrite (mem_get_real_usage_spec _ _ fuel W' Hf),
            (mem_get_real_usage_spec _ _ fuel W Hf).
    f_equal. cbn [poke set_mem mem]. clear - E.
    induction l as [|b t IH]; [reflexivity|].
    cbn [real_usage_of fold_right].
    fold (real_usage_of (storeb (mem st) a v) t) (real_usage_of (mem st) t).
    rewrite (proj1 (E b (or_introl eq_refl))).
    rewrite IH; [reflexivity|]. intros h' Hh'. apply E. now right.
  - destruct (in_split h l Hin) as (l1 & l2 & ->).
    destruct (free_tracked _ l1 l2 h W') as (st' & Ef & _). now exists st'.
Qed.

(** On a run: [init], [malloc (3)], then the first byte of the attribution
    pointer of the block overwritten. *)
Lemma header_fields_unchecked_witness :
  mem_check_integrity 3 (poke (after_malloc 3) (nth_header 1) 255) = Done tt /\
  exists st', free (poke (after_malloc 3) (nth_header 1) 255)
                   (payload_of (nth_header 1)) = Done st'.
Proof.
  destruct (wf_after_malloc 3 ltac:(lia)) as (_ & W & _).
  destruct (header_fields_unchecked (after_malloc 3) _ (nth_header 1)
              (nth_header 1) 255 3 W) as (A & _ & B).
  - now left.
  - cbn. lia.
  - left. consts. lia.
  - split; assumption.
Defined.

(** ** init, end, and what follows mem_ignore_current_allocations *)




(** X17.  [mem_ignore_current_allocations] hides what was allocated
    before it, not what is allocated after: a [malloc] of a size other than
    zero that follows it is the only tracked block, the count is 1,
    [mem_get_usage] is its size, and the leak report has the header for one
    block and the line of that block. *)
Theorem report_after_ignore (st : state) (l : list Z) (S0 : Z) (fuel : nat) :
  wf st l -> (length l < fuel)%nat -> gi_hookDisabled st = 0 ->
  0 < S0 <= MAX_PAYLOAD -> org_brk st + adjSize_of S0 1 <= org_limit st ->
  exists st1 st2,
    mem_ignore_current_allocations fuel st = Done st1 /\
    malloc st1 S0 = Done (payload_of (org_brk st), st2) /\
    wf st2 [org_brk st] /\
    mem_get_alloc_count st2 = 1 /\
    mem_get_usage 2 st2 = Done S0 /\
    mem_show_allocations 2 st2
    = Done (show_header 1
            ++ [F_address (payload_of (org_brk st)) S0 szEmpty; F_newline]).
Proof.
  intros W Hf Hk Hs Hfit.
  destruct (ignore_loop_spec l fuel (mem st) _ (wf_registry _ _ W) (wf_layout _ _ W) Hf)
    as (m' & E & R & _ & _).
  set (st1 := set_count (set_mem st m') 0).
  assert (W1 : wf st1 []).
  { constructor; cbn [st1 set_count set_mem mem org_brk org_limit
      gp_orgRealloc_set gi_allocCount].
    - exact (wf_init _ _ W).
    - exact R.
    - exact (layout_base _ _ _ (wf_layout _ _ W)).
    - constructor.
    - exact (wf_brk _ _ W).
    - exact (wf_limit _ _ W).
    - unfold INT_MIN, INT_MAX. lia. }
  destruct (alloc_new_spec st1 [] S0 MALLOC W1 ltac:(lia) Hfit)
    as (st2 & E2 & W2 & S2 & A2 & C2 & _).
  change (org_brk st1) with (org_brk st) in *.
  unfold hook_count, hook_allocator in *.
  change (gi_hookDisabled st1) with (gi_hookDisabled st) in *.
  rewrite Hk in *. cbn [Z.eqb] in *.
  exists st1, st2.
  split; [unfold mem_ignore_current_allocations; rewrite E; reflexivity|].
  split; [unfold malloc; rewrite (wf_init _ _ W1); exact E2|].
  split; [exact W2|]. split; [exact C2|]. split.
  - rewrite (mem_get_usage_spec st2 _ 2 W2) by (cbn; lia).
    cbn [usage_of fold_right]. rewrite A2, S2. unfold szEmpty. cbn [Z.eqb].
    f_equal. lia.
  - rewrite (mem_show_allocations_spec st2 _ 2 W2) by (cbn; unfold INT_MAX; lia).
    f_equal. unfold show_output, shown_lines. cbn [filter]. unfold shown.
    rewrite A2, S2. unfold szEmpty at 1. cbn [Z.eqb negb andb].
    destruct (Z.eqb_spec S0 0) as [?|_]; [lia|]. cbn [negb map app].
    unfold address_line. rewrite A2, S2. rewrite C2. reflexivity.
Qed.

(** On a run: [init], [malloc (3)], [mem_ignore_current_allocations], then
    [malloc (5)]. *)
Lemma report_after_ignore_witness :
  exists st1 st2,
    mem_ignore_current_allocations 3 (after_malloc 3) = Done st1 /\
    malloc st1 5 = Done (payload_of (nth_header 2), st2) /\
    mem_get_alloc_count st2 = 1 /\ mem_get_usage 2 st2 = Done 5.
Proof.
  destruct (wf_after_malloc 3 ltac:(lia)) as (_ & W & K).
  destruct (report_after_ignore (after_malloc 3) _ 5 3 W) as
    (st1 & st2 & E1 & E2 & _ & C & U & _).
  - cbn. lia.
  - exact K.
  - unfold MAX_PAYLOAD. lia.
  - vm_compute. discriminate.
  - exists st1, st2. split; [exact E1|].
    assert (Eb : org_brk (after_malloc 3) = nth_header 2) by (vm_compute; reflexivity).
    rewrite Eb in E2. auto.
Defined.

(** X18.  The destructor [end] writes the leak report and then checks
    every tracked block.  On a state whose blocks are sound it completes,
    and what it wrote is the report of [mem_show_allocations].  If a byte
    past the payload of a tracked block has been given another value, it
    aborts, with the report of that damage. *)
Theorem end_reports_or_aborts (st : state) (l : list Z) (fuel : nat) :
  wf st l -> (length l < fuel)%nat -> Z.of_nat (length l) <= INT_MAX ->
  end_ fuel st = Done (show_output (gi_allocCount st) (mem st) l) /\
  forall h a v, In h l ->
    payload_end (mem st) h <= a < block_end (mem st) h ->
    0 <= v < 256 -> v <> loadb (mem st) a ->
    end_ fuel (poke st a v)
    = Aborted (if a <? cap_of (mem st) h
               then EndOverwritten (a - payload_end (mem st) h + 1)
               else BottomGuardCorrupt ((a - cap_of (mem st) h) / 8)).
Proof.
  intros W Hf Hb. split.
  - unfold end_. rewrite (mem_show_allocations_spec st l fuel W Hf Hb).
    cbn [bind]. rewrite (mem_check_integrity_spec st l fuel W Hf). reflexivity.
  - intros h a v Hin Ha Hv Hne.
    destruct (wf_member st l h W Hin) as (Hbk & _).
    pose proof (rec_size_range (mem st) h) as Hsz.
    assert (Ha' : h + off_ullFixedValues <= a < block_end (mem st) h)
      by (consts; lia).
    assert (Er : verifyIntegrity (storeb (mem st) a v) (payload_of h)
                 = Aborted (if a <? cap_of (mem st) h
                            then EndOverwritten (a - payload_end (mem st) h + 1)
                            else BottomGuardCorrupt ((a - cap_of (mem st) h) / 8))).
    { rewrite (verifyIntegrity_reason (mem st) h a v Hbk Ha');
        [|lia|rewrite Z.mod_small by lia; exact Hne].
      destruct (Z.ltb_spec a (payload_of h)); [consts; lia|reflexivity]. }
    destruct (corrupt_block_detected st l h a v _ W Hin Ha' Er) as [_ C].
    unfold end_. rewrite (proj2 (C fuel Hf)). reflexivity.
Qed.

(** On a run: [init], [malloc (3)], then [end]. *)
Lemma end_reports_or_aborts_witness :
  end_ 3 (after_malloc 3)
  = Done (show_header 2 ++ [F_address (payload_of (nth_header 1)) 3 szEmpty; F_newline]).
Proof.
  destruct (wf_after_malloc 3 ltac:(lia)) as (_ & W & _).
  refine (eq_trans (proj1 (end_reports_or_aborts (after_malloc 3) _ 3 W _ _)) _).
  - cbn. lia.
  - cbn. unfold INT_MAX. lia.
  - vm_compute. reflexivity.
Defined.

(** ** What realloc keeps of the payload *)

Lemma memcpy_copies : forall (n : nat) (m : memory) (dst src i : Z),
  src + Z.of_nat n <= dst -> 0 <= i < Z.of_nat n ->
  loadb (memcpy n m dst src) (dst + i) = loadb m (src + i).
Proof.
  induction n as [|n IH]; intros m dst src i Hd Hi; [cbn in Hi; lia|].
  rewrite Nat2Z.inj_succ in *. cbn [memcpy].
  destruct (Z.eq_dec i 0) as [->|Hnz].
  - rewrite !Z.add_0_r. unfold loadb at 1.
    rewrite memcpy_outside by lia. rewrite storeb_eq.
    rewrite Z.mod_mod by lia. apply Z.mod_small, loadb_range.
  - replace (dst + i) with (dst + 1 + (i - 1)) by lia.
    rewrite IH by lia. unfold loadb. rewrite storeb_neq by lia.
    f_equal. f_equal. lia.
Qed.

(** [build_record] writes the header, the padding and the cap, and the
    [le_prev] of the record that was first in the list: the payload is
    between them. *)
Lemma build_record_payload (st st' : state) (b size nmemb szCaller p : Z) :
  HEAP_BASE <= b -> b + 80 + wrap64 (size * nmemb) <= 2 ^ 64 ->
  load8 (mem st) gp_listHead = 0 \/
  load8 (mem st) gp_listHead + off_ullFixedValues <= b ->
  build_record st b size nmemb szCaller = Done (p, st') ->
  forall x, payload_of b <= x < payload_of b + wrap64 (size * nmemb) ->
            mem st' x = mem st x.
Proof.
  intros Hbase Hfit Hhead E x Hx.
  pose proof (wrap64_range (size * nmemb)) as Hw.
  set (sz := wrap64 (size * nmemb)) in *.
  pose proof (pad_len_range (b + 56 + sz)) as Hpl.
  pose proof (load8_range (mem st) gp_listHead) as Hr.
  unfold HEAP_BASE in Hbase.
  unfold build_record in E.
  match type of E with context [LIST_INSERT_HEAD ?m _] => set (m5 := m) in E end.
  assert (F5 : forall y, y < b \/ b + 40 <= y -> m5 y = mem st y).
  { intros y Hy. unfold m5. consts. mem_simpl. reflexivity. }
  assert (H5 : load8 m5 gp_listHead = load8 (mem st) gp_listHead).
  { apply load8_agree. intros y Hy. apply F5. consts. lia. }
  set (m6 := LIST_INSERT_HEAD m5 b) in E.
  assert (F6 : forall y, b <= y < b + 24 \/ b + 40 <= y < 2 ^ 64 -> m6 y = m5 y).
  { intros y Hy. unfold m6, LIST_INSERT_HEAD.
    rewrite load8_store8_small by apply load8_range.
    rewrite !(load8_store8_other m5 (b + off_le_next)) by (consts; lia).
    rewrite H5.
    destruct (Z.eqb_spec (load8 (mem st) gp_listHead) 0) as [E0|E0].
    - consts. mem_simpl. reflexivity.
    - destruct Hhead as [?|Hhead]; [contradiction|].
      consts. mem_simpl. reflexivity. }
  cbn [write_guards MEM_HEADER_GUARD_LEN MEM_CAP_GUARD_LEN] in E.
  replace (b + off_ullFixedValues + sizeof_ull * 0) with (b + 40) in E by (consts; lia).
  replace (b + off_ullFixedValues + sizeof_ull * (0 + 1)) with (b + 48) in E
    by (consts; lia).
  set (m7 := store8 (store8 m6 (b + 40) GUARD_BAND_TOP) (b + 48) GUARD_BAND_TOP) in E.
  assert (S7 : load8 m7 (b + off_size) = sz).
  { unfold m7. consts. mem_simpl.
    rewrite (load8_agree m5 m6) by (intros y Hy; apply F6; lia).
    unfold m5. consts. mem_simpl. reflexivity. }
  rewrite S7 in E.
  replace (wrap64 (b + sizeof_memoryHeader)) with (b + 56) in E
    by (consts; rewrite wrap64_small; lia).
  destruct (fill_pad_spec (b + 56) 8 m7 sz) as (m8 & E8 & F8 & _);
    [consts; lia|lia|consts; lia|cbn; lia|].
  rewrite E8 in E. cbn [bind] in E.
  replace (wrap64 (b + 56 + (sz + pad_len (b + 56 + sz))))
    with (b + 56 + sz + pad_len (b + 56 + sz)) in E by (rewrite wrap64_small; lia).
  injection E as _ <-. cbn [set_mem mem].
  unfold payload_of, sizeof_memoryHeader in Hx.
  unfold sizeof_ull. rewrite !store8_outside by lia.
  rewrite F8 by lia. unfold m7. rewrite !store8_outside by lia.
  rewrite F6 by lia. apply F5. lia.
Qed.

(** X19.  [realloc] of a tracked block that the underlying allocator moves
    keeps the payload: the new block has the new size, and its bytes up to
    the smaller of the old and the new size are those of the old block.
    The underlying allocator must know the old block with at least the
    size of its header and payload, which is what it was asked for when the
    block was made. *)
Theorem realloc_preserves_payload (st : state) (l1 l2 : list Z) (h size k : Z) :
  wf st (l1 ++ h :: l2) -> 0 <= size <= MAX_PAYLOAD ->
  org_brk st + adjSize_of size 1 <= org_limit st ->
  org_blocks st h = Some k ->
  sizeof_memoryHeader + rec_size (mem st) h <= k -> h + k <= org_brk st ->
  exists st',
    realloc st (payload_of h) size = Done (payload_of (org_brk st), st') /\
    rec_size (mem st') (org_brk st) = size /\
    forall i, 0 <= i < Z.min (rec_size (mem st) h) size ->
      loadb (mem st') (payload_of (org_brk st) + i)
      = loadb (mem st) (payload_of h + i).
Proof.
  intros Hwf Hsz Hfit Hblk Hk Hbelow.
  assert (Hin : In h (l1 ++ h :: l2)) by (apply in_or_app; right; now left).
  destruct (wf_member st _ h Hwf Hin) as (_ & _ & _ & Hpz & _ & Hnz).
  destruct (wf_remove st l1 l2 h Hwf) as (_ & W3 & _ & _ & C3).
  pose proof (adjSize_lower size Hsz) as Hadj.
  pose proof (adjSize_of_small size Hsz) as Hadj'.
  pose proof (pad_len_range size) as Hpl.
  pose proof (rec_size_range (mem st) h) as Hold.
  destruct (changed_only_block _ _ _ _ _ h
              (changed_only_anywhere _ _ _ (org_brk st) C3) (wf_layout _ _ Hwf) Hin)
    as (_ & _ & K3).
  unfold realloc. rewrite (wf_init _ _ Hwf).
  unfold internalRealloc. rewrite (detach_tracked st l1 l2 h Hwf). cbn [bind].
  set (m3 := store8 (LIST_REMOVE (mem st) h) (h + off_le_prev) 0) in *.
  unfold org_realloc.
  destruct (Z.eqb_spec h 0) as [E|_]; [contradiction|].
  destruct (Z.eqb_spec (adjSize_of size 1) 0) as [E|_]; [lia|].
  cbn [org_brk org_limit set_mem org_blocks mem].
  destruct (Z.leb_spec (org_brk st + adjSize_of size 1) (org_limit st)) as [_|?]; [|lia].
  rewrite Hblk.
  destruct W3 as [Hinit Hreg Hlay Hok Hbrk Hlim Hcnt].
  cbn [set_mem mem org_brk org_limit gp_orgRealloc_set gi_allocCount] in *.
  pose proof (layout_base _ _ _ Hlay) as Hbase.
  destruct (Z.eqb_spec (org_brk st) 0) as [E|_]; [unfold HEAP_BASE in Hbase; lia|].
  set (n := Z.to_nat (Z.min k (adjSize_of size 1))).
  set (mc := memcpy n m3 (org_brk st) h).
  assert (Fc : forall x, x < org_brk st -> mc x = m3 x)
    by (intros x Hx; unfold mc; apply memcpy_outside; lia).
  destruct (above_preserved m3 mc (l1 ++ l2) (org_brk st) Fc Hlay) as (Rc & Lc & Oc).
  match goal with
  | |- context [trace_and_count ?s _ _] => set (st1 := s)
  end.
  destruct (record_new_block st1 (l1 ++ l2) (org_brk st) size REALLOC (payload_of h))
    as (st' & E & W & S & _); try assumption; try reflexivity; auto.
  exists st'. rewrite E. split; [reflexivity|]. split; [exact S|].
  intros i Hi.
  (* the bytes of the new payload are those [gp_orgRealloc] copied *)
  assert (Eb : exists st2 szc, mem st2 = mc /\
                build_record st2 (org_brk st) size 1 szc = Done (payload_of (org_brk st), st')).
  { revert E. unfold trace_and_count.
    destruct (gi_hookDisabled st1 =? 0); intros E; eexists; eexists;
      (split; [|exact E]); reflexivity. }
  destruct Eb as (st2 & szc & Em & Eb).
  assert (Hw : wrap64 (size * 1) = size)
    by (rewrite Z.mul_1_r; apply wrap64_small; unfold MAX_PAYLOAD in Hsz; lia).
  pose proof (align16_spec (org_brk st + adjSize_of size 1)) as [Hal1 Hal2].
  assert (Hx1 : mem st' (payload_of (org_brk st) + i) = mc (payload_of (org_brk st) + i)).
  { rewrite <- Em.
    apply (build_record_payload st2 st' (org_brk st) size 1 szc (payload_of (org_brk st)) Hbase).
    - rewrite Hw. unfold MAX_PAYLOAD in Hsz. lia.
    - rewrite Em.
      pose proof (chain_head_range mc (l1 ++ l2) _ _ (org_brk st) (Rc Hreg) Lc) as Hh.
      destruct (l1 ++ l2) as [|h0 t]; [left; exact Hh|right].
      destruct Hh as (-> & _ & Hh). consts. lia.
    - exact Eb.
    - rewrite Hw. lia. }
  unfold loadb at 1. rewrite Hx1. fold (loadb mc (payload_of (org_brk st) + i)).
  unfold mc, payload_of, sizeof_memoryHeader in *.
  replace (org_brk st + 56 + i) with (org_brk st + (56 + i)) by lia.
  rewrite memcpy_copies by (unfold n; lia).
  unfold loadb. rewrite Z.add_assoc. rewrite K3; [reflexivity|].
  pose proof (pad_len_range (payload_end (mem st) h)).
  consts. lia.
Qed.

(** On a run: [init], [malloc (3)], the three bytes of the block written,
    then [realloc] to 20 bytes. *)
Lemma realloc_preserves_payload_witness :
  let p := payload_of (nth_header 1) in
  let st := poke (poke (poke (after_malloc 3) p 7) (p + 1) 8) (p + 2) 9 in
  exists st',
    realloc st p 20 = Done (payload_of (nth_header 2), st') /\
    loadb (mem st') (payload_of (nth_header 2)) = 7 /\
    loadb (mem st') (payload_of (nth_header 2) + 2) = 9.
Proof.
  intros p st.
  destruct (wf_after_malloc 3 ltac:(lia)) as (_ & W & _).
  pose proof (poke_payload_wf _ _ (nth_header 1) p 7 W (or_introl eq_refl)
                ltac:(split; [vm_compute; discriminate|vm_compute; reflexivity])) as W1.
  pose proof (poke_payload_wf _ _ (nth_header 1) (p + 1) 8 W1 (or_introl eq_refl)
                ltac:(split; [vm_compute; discriminate|vm_compute; reflexivity])) as W2.
  pose proof (poke_payload_wf _ _ (nth_header 1) (p + 2) 9 W2 (or_introl eq_refl)
                ltac:(split; [vm_compute; discriminate|vm_compute; reflexivity])) as W'.
  fold st in W'.
  destruct (realloc_preserves_payload st [] [nth_header 0] (nth_header 1) 20 80 W')
    as (st' & E & _ & K).
  - unfold MAX_PAYLOAD. lia.
  - vm_compute. discriminate.
  - vm_compute. reflexivity.
  - vm_compute. discriminate.
  - vm_compute. discriminate.
  - assert (Eb : org_brk st = nth_header 2) by (vm_compute; reflexivity).
    rewrite Eb in *.
    assert (Es : rec_size (mem st) (nth_header 1) = 3) by (vm_compute; reflexivity).
    rewrite Es in K. exists st'. split; [exact E|]. split.
    + rewrite <- (Z.add_0_r (payload_of (nth_header 2))), (K 0 ltac:(lia)).
      vm_compute. reflexivity.
    + rewrite (K 2 ltac:(lia)). vm_compute. reflexivity.
Defined.

(** ** Accounting of a resize, and calloc before init *)

(** X20.  A successful [realloc] of a tracked block, with the hook
    enabled, replaces the block in the figures: [mem_get_usage] loses the
    old size (nothing if the old block had no attribution) and gains the
    new one, [mem_get_real_usage] changes by the difference of the sizes,
    the count stays, and every other tracked block keeps its bytes from the
    guard words to the end of the cap. *)
Theorem realloc_accounting (st : state) (l1 l2 : list Z) (h size : Z) (fuel : nat) :
  wf st (l1 ++ h :: l2) -> gi_hookDisabled st = 0 -> 0 <= size <= MAX_PAYLOAD ->
  org_brk st + adjSize_of size 1 <= org_limit st ->
  (length (l1 ++ h :: l2) < fuel)%nat ->
  exists st' u r,
    realloc st (payload_of h) size = Done (payload_of (org_brk st), st') /\
    mem_get_usage fuel st = Done u /\ mem_get_real_usage fuel st = Done r /\
    mem_get_usage fuel st'
    = Done (u - (if rec_allocator (mem st) h =? 0 then 0 else rec_size (mem st) h)
            + size) /\
    mem_get_real_usage fuel st' = Done (r - rec_size (mem st) h + size) /\
    mem_get_alloc_count st' = mem_get_alloc_count st /\
    forall h' x, In h' (l1 ++ l2) ->
      h' + off_ullFixedValues <= x < block_end (mem st) h' -> mem st' x = mem st x.
Proof.
  intros Hwf Hk Hsz Hfit Hf.
  assert (Hin : In h (l1 ++ h :: l2)) by (apply in_or_app; right; now left).
  assert (Hincl : incl (l1 ++ l2) (l1 ++ h :: l2)).
  { intros x Hx. apply in_app_or in Hx. apply in_or_app.
    destruct Hx; [now left|right; now right]. }
  destruct (wf_member st _ h Hwf Hin) as (_ & _ & _ & Hpz & _ & Hnz).
  destruct (wf_remove st l1 l2 h Hwf) as (_ & W3 & _ & _ & C3).
  pose proof (adjSize_lower size Hsz) as Hadj.
  pose proof (changed_only_records _ _ _ _ _ (l1 ++ l2)
                (changed_only_anywhere _ _ _ (org_brk st) C3) (wf_layout _ _ Hwf) Hincl)
    as R1.
  unfold realloc. rewrite (wf_init _ _ Hwf).
  unfold internalRealloc. rewrite (detach_tracked st l1 l2 h Hwf). cbn [bind].
  set (m3 := store8 (LIST_REMOVE (mem st) h) (h + off_le_prev) 0) in *.
  unfold org_realloc.
  destruct (Z.eqb_spec h 0) as [E|_]; [contradiction|].
  destruct (Z.eqb_spec (adjSize_of size 1) 0) as [E|_]; [lia|].
  cbn [org_brk org_limit set_mem org_blocks mem].
  destruct (Z.leb_spec (org_brk st + adjSize_of size 1) (org_limit st)) as [_|?]; [|lia].
  destruct W3 as [Hinit Hreg Hlay Hok Hbrk Hlim Hcnt].
  cbn [set_mem mem org_brk org_limit gp_orgRealloc_set gi_allocCount] in *.
  pose proof (layout_base _ _ _ Hlay) as Hbase.
  destruct (Z.eqb_spec (org_brk st) 0) as [E|_]; [unfold HEAP_BASE in Hbase; lia|].
  match goal with
  | |- context [memcpy ?k m3 ?d ?s] => set (n := k); set (mc := memcpy n m3 d s)
  end.
  assert (Fc : forall x, x < org_brk st -> mc x = m3 x)
    by (intros x Hx; unfold mc; apply memcpy_outside; lia).
  assert (Cc : changed_only m3 mc (org_brk st) (org_brk st + Z.of_nat n) (l1 ++ l2)).
  { intros x Hx _ _. unfold mc. apply memcpy_outside. exact Hx. }
  pose proof (changed_only_records _ _ _ _ _ _ Cc Hlay (incl_refl _)) as R2.
  destruct (above_preserved m3 mc (l1 ++ l2) (org_brk st) Fc Hlay) as (Rc & Lc & Oc).
  match goal with
  | |- context [trace_and_count ?s _ _] => set (st1 := s)
  end.
  destruct (record_new_block st1 (l1 ++ l2) (org_brk st) size REALLOC (payload_of h))
    as (st' & E & W & S & A & C & _ & Ch & _); try assumption; try reflexivity; auto.
  change (mem st1) with mc in Ch.
  pose proof (changed_only_records _ _ _ _ _ _ Ch Lc (incl_refl _)) as R3.
  pose proof (same_records_trans _ _ _ _ (same_records_trans _ _ _ _ R1 R2) R3) as R.
  destruct (same_records_usage _ _ _ R) as (U & RU & _).
  unfold hook_allocator in A. unfold hook_count in C.
  change (gi_hookDisabled st1) with (gi_hookDisabled st) in *.
  change (gi_allocCount st1) with (gi_allocCount st) in *.
  rewrite Hk in *. cbn [Z.eqb count_after_alloc] in *.
  destruct (Z.eqb_spec (payload_of h) 0) as [?|_]; [contradiction|].
  exists st', (usage_of (mem st) (l1 ++ h :: l2)),
         (real_usage_of (mem st) (l1 ++ h :: l2)).
  rewrite E. split; [reflexivity|].
  split; [exact (mem_get_usage_spec _ _ _ Hwf Hf)|].
  split; [exact (mem_get_real_usage_spec _ _ _ Hwf Hf)|].
  assert (Hf' : (length (org_brk st :: l1 ++ l2) < fuel)%nat)
    by (rewrite length_app in *; cbn [length] in *; rewrite length_app; lia).
  rewrite (mem_get_usage_spec _ _ fuel W Hf'), (mem_get_real_usage_spec _ _ fuel W Hf').
  cbn [usage_of real_usage_of fold_right].
  fold (usage_of (mem st') (l1 ++ l2)) (real_usage_of (mem st') (l1 ++ l2)).
  rewrite A, S, U, RU. unfold szEmpty at 1. cbn [Z.eqb].
  destruct (usage_of_app (mem st) (h :: l2) l1) as [A1 A2].
  destruct (usage_of_app (mem st) l2 l1) as [B1 B2].
  rewrite A1, A2, B1, B2. cbn [usage_of real_usage_of fold_right].
  fold (usage_of (mem st) l2) (real_usage_of (mem st) l2).
  split; [f_equal; lia|]. split; [f_equal; lia|].
  split; [exact C|].
  intros h' x Hh' Hx. exact (proj2 (proj2 (proj2 (R h' Hh'))) x Hx).
Qed.

(** On a run: [init], [malloc (3)], then [realloc] of the block to 20
    bytes. *)
Lemma realloc_accounting_witness :
  exists st',
    realloc (after_malloc 3) (payload_of (nth_header 1)) 20
    = Done (payload_of (nth_header 2), st') /\
    mem_get_usage 3 (after_malloc 3) = Done 3 /\
    mem_get_usage 3 st' = Done 20 /\
    mem_get_alloc_count st' = 2.
Proof.
  destruct (wf_after_malloc 3 ltac:(lia)) as (_ & W & K).
  destruct (realloc_accounting (after_malloc 3) [] [nth_header 0] (nth_header 1) 20 3 W K)
    as (st' & u & r & E & U & _ & U' & _ & C & _).
  - unfold MAX_PAYLOAD. lia.
  - vm_compute. discriminate.
  - cbn. lia.
  - assert (Eu : u = 3) by (vm_compute in U; now injection U as <-).
    subst u. exists st'.
    assert (Eb : org_brk (after_malloc 3) = nth_header 2) by (vm_compute; reflexivity).
    rewrite Eb in E. split; [exact E|]. split; [exact U|]. split.
    + rewrite U'. f_equal.
    + rewrite C. reflexivity.
Defined.

(** X21.  Before [init] has run, [calloc] takes its block from the
    bootstrap array: it returns the address at the cursor, the bytes of the
    block read zero, the cursor moves on by the size rounded up to whole
    elements, and no byte outside the block is written. *)
Theorem calloc_bootstrap (st : state) (nmemb size : Z) :
  gp_orgRealloc_set st = false -> 0 <= sIndex st < ullStatic_len ->
  wrap64 (nmemb * size) + 8 * sIndex st < 8 * (ullStatic_len - 1) ->
  exists st',
    calloc st nmemb size = Done (Valid (ullStatic + 8 * sIndex st, st')) /\
    sIndex st' = sIndex st + (wrap64 (nmemb * size) + 7) / 8 /\
    (forall x, ullStatic + 8 * sIndex st <= x
               < ullStatic + 8 * sIndex st + wrap64 (nmemb * size) ->
               loadb (mem st') x = 0) /\
    (forall x, x < ullStatic + 8 * sIndex st \/
               ullStatic + 8 * sIndex st + wrap64 (nmemb * size) <= x ->
               mem st' x = mem st x).
Proof.
  intros Hg Hi Hfit. set (n := wrap64 (nmemb * size)) in *.
  pose proof (wrap64_range (nmemb * size)) as Hn. fold n in Hn.
  assert (Hn8 : 0 <= n <= 2 ^ 64 - 8) by (unfold ullStatic_len in *; lia).
  destruct (static_index_step (sIndex st) n Hi Hn8) as [E R].
  unfold calloc. rewrite Hg. unfold internalStaticAlloc. fold n. rewrite E.
  destruct (Z.geb_spec (sIndex st + (n + 7) / 8) ullStatic_len) as [Hge|_]; [lia|].
  cbn [bind]. fold n. unfold sizeof_ull.
  destruct (Z.eqb_spec (ullStatic + 8 * sIndex st) 0) as [E0|_];
    [unfold ullStatic in E0; lia|].
  destruct (Z.ltb_spec SIZE_MAX_P1 (ullStatic + 8 * sIndex st + n)) as [Hlt|_];
    [unfold SIZE_MAX_P1, ullStatic, ullStatic_len in *; lia|].
  rewrite andb_false_r.
  eexists. split; [reflexivity|].
  cbn [set_mem set_sIndex mem sIndex]. split; [reflexivity|]. split.
  - intros x Hx. unfold loadb. rewrite memset_spec, Z2Nat.id by lia.
    destruct (Z.leb_spec (ullStatic + 8 * sIndex st) x);
      destruct (Z.ltb_spec x (ullStatic + 8 * sIndex st + n)); cbn [andb]; try lia.
    reflexivity.
  - intros x Hx. rewrite memset_spec, Z2Nat.id by lia.
    destruct (Z.leb_spec (ullStatic + 8 * sIndex st) x);
      destruct (Z.ltb_spec x (ullStatic + 8 * sIndex st + n)); cbn [andb]; try lia;
      reflexivity.
Qed.

(** On a run: [calloc (3, 4)] in a process that has not been
    initialised. *)
Lemma calloc_bootstrap_witness :
  exists st',
    calloc (boot arena) 3 4 = Done (Valid (ullStatic, st')) /\
    sIndex st' = 2 /\ loadb (mem st') (ullStatic + 11) = 0.
Proof.
  destruct (calloc_bootstrap (boot arena) 3 4) as (st' & E & I & Z0 & _).
  - reflexivity.
  - cbn. unfold ullStatic_len. lia.
  - vm_compute. reflexivity.
  - exists st'. split; [exact E|]. split; [exact I|].
    apply Z0. change (sIndex (boot arena)) with 0.
    change (wrap64 (3 * 4)) with 12. lia.
Defined.
